(** * auto-suite: the crawler's image resolver and the intelligent commenter

    A shallow embedding of the TypeScript sources

    - [scripts/crawler.ts] and [scripts/comprehensive-crawler.ts]
      (the two variants of the image resolver, and the crawl loops),
    - the commenter script (candidate filter, comment generator, run
      orchestrator) and
    - the OAuth manager (token cache, [postComment],
      [verifyAuthentication]),

    together with the properties the specification states about them, and
    further properties of the sources.

    Conventions.  A JavaScript string is a Rocq [string]; its characters
    are taken in the ASCII range, so [length] is the string's [.length],
    [toLowerCase] maps [A-Z] to [a-z] and leaves every other character
    alone, and [trim] strips the ASCII white space characters.  Lengths and
    counts are [nat], timestamps are [Z].  Asynchronous functions run
    sequentially (every call is awaited), so an [async] function is a
    computation in a state-and-exception monad whose state is the trace of
    the external requests issued so far; the answers of the external
    services (Reddit, the storage layer, the completion endpoint, image
    hosts) are oracles that may depend on that trace. *)

From Stdlib Require Import List String Ascii Bool Arith ZArith Lia.
From Stdlib Require Import DecimalString.
Import ListNotations.
Local Open Scope string_scope.
Local Open Scope list_scope.
Local Open Scope nat_scope.

(* ------------------------------------------------------------------ *)
(** ** JavaScript string primitives used by the sources *)

Module JS.

(** [s.includes(sub)] *)
Fixpoint includes (s sub : string) : bool :=
  String.prefix sub s ||
  match s with
  | EmptyString => false
  | String _ rest => includes rest sub
  end.

(** [s.startsWith(p)] *)
Definition startsWith (s p : string) : bool := String.prefix p s.

Definition lower_char (c : ascii) : ascii :=
  let n := nat_of_ascii c in
  if (65 <=? n) && (n <=? 90) then ascii_of_nat (n + 32) else c.

(** [s.toLowerCase()] *)
Fixpoint toLowerCase (s : string) : string :=
  match s with
  | EmptyString => EmptyString
  | String c rest => String (lower_char c) (toLowerCase rest)
  end.

(** [s.substring(0, n)] *)
Fixpoint substring0 (n : nat) (s : string) : string :=
  match n, s with
  | S k, String c rest => String c (substring0 k rest)
  | _, _ => EmptyString
  end.

Definition is_space (c : ascii) : bool :=
  let n := nat_of_ascii c in
  ((9 <=? n) && (n <=? 13)) || (n =? 32).

Fixpoint trimStart (s : string) : string :=
  match s with
  | String c rest => if is_space c then trimStart rest else s
  | EmptyString => EmptyString
  end.

Fixpoint trimEnd (s : string) : string :=
  match s with
  | EmptyString => EmptyString
  | String c rest =>
      match trimEnd rest with
      | EmptyString => if is_space c then EmptyString else String c EmptyString
      | kept => String c kept
      end
  end.

(** [s.trim()] *)
Definition trim (s : string) : string := trimEnd (trimStart s).

(** Truthiness of a string value: the empty string is falsy. *)
Definition truthy (s : string) : bool :=
  match s with
  | EmptyString => false
  | String _ _ => true
  end.

(** Truthiness of a possibly absent ([undefined] / [null]) string. *)
Definition truthy_opt (o : option string) : bool :=
  match o with
  | Some s => truthy s
  | None => false
  end.

(** [s.replace(/&amp;/g, '&')]: one left-to-right pass over the
    non-overlapping occurrences.  [skip] counts the characters of an
    occurrence that are still to be dropped. *)
Fixpoint replace_amp_from (skip : nat) (s : string) : string :=
  match s with
  | EmptyString => EmptyString
  | String c rest =>
      match skip with
      | S k => replace_amp_from k rest
      | O =>
          if String.prefix "&amp;" s
          then String "&" (replace_amp_from 4 rest)
          else String c (replace_amp_from 0 rest)
      end
  end.

Definition replace_amp (s : string) : string := replace_amp_from 0 s.

(** [list.some(p)] and [list.slice(0, n)] are [existsb] and [firstn]. *)
Definition some {A} (p : A -> bool) (l : list A) : bool := existsb p l.
Definition slice0 {A} (n : nat) (l : list A) : list A := firstn n l.

Definition is_alnum (c : ascii) : bool :=
  let n := nat_of_ascii c in
  ((48 <=? n) && (n <=? 57)) || ((65 <=? n) && (n <=? 90))
  || ((97 <=? n) && (n <=? 122)).

Fixpoint take_alnum (s : string) : string :=
  match s with
  | String c rest => if is_alnum c then String c (take_alnum rest) else EmptyString
  | EmptyString => EmptyString
  end.

Fixpoint strip_prefix (p s : string) : option string :=
  match p, s with
  | EmptyString, _ => Some s
  | String a p', String b s' =>
      if Ascii.eqb a b then strip_prefix p' s' else None
  | String _ _, EmptyString => None
  end.

End JS.

(* ------------------------------------------------------------------ *)
(** ** Sequential effects: a trace of external requests, and exceptions *)

Module Eff.

Inductive Res (A : Type) : Type :=
| Ok (a : A)
| Throw (msg : string).
Arguments Ok {A} a.
Arguments Throw {A} msg.

Section Monad.
Context {E : Type}.

(** A computation reads the trace of the requests issued so far (oldest
    first) and returns a value or throws, with the extended trace. *)
Definition M (A : Type) : Type := list E -> Res A * list E.

Definition ret {A} (a : A) : M A := fun t => (Ok a, t).

Definition throw {A} (msg : string) : M A := fun t => (Throw msg, t).

Definition bind {A B} (m : M A) (k : A -> M B) : M B :=
  fun t =>
    match m t with
    | (Ok a, t') => k a t'
    | (Throw msg, t') => (Throw msg, t')
    end.

(** [try { body } catch (error) { handler }] *)
Definition try_catch {A} (body : M A) (handler : string -> M A) : M A :=
  fun t =>
    match body t with
    | (Ok a, t') => (Ok a, t')
    | (Throw msg, t') => handler msg t'
    end.

(** One awaited request to an external service: the service's answer is
    read from its oracle at the current trace, and the request is
    recorded together with the answer. *)
Definition request {A} (oracle : list E -> A) (record : A -> E) : M A :=
  fun t => let a := oracle t in (Ok a, t ++ [record a]).

(** An effect without an answer of interest ([setTimeout], console). *)
Definition emit (e : E) : M unit := fun t => (Ok tt, t ++ [e]).
End Monad.

Arguments M : clear implicits.

Declare Scope eff_scope.
Delimit Scope eff_scope with eff.
Notation "x <- m ;; k" := (bind m (fun x => k))
  (at level 61, m at next level, right associativity) : eff_scope.
Notation "m ;; k" := (bind m (fun _ => k))
  (at level 61, right associativity) : eff_scope.

End Eff.
Import Eff.
Local Open Scope eff_scope.

(* ------------------------------------------------------------------ *)
(** ** [scripts/types.ts] *)

Module Types.

(** [interface ImageValidation] *)
Record ImageValidation := {
  isValid : bool;
  url : string;
  reason : option string
}.

(** [interface CrawlerResult] *)
Record CrawlerResult := {
  processed : nat;
  inserted : nat;
  skipped : nat;
  errors : nat
}.

End Types.

(* ------------------------------------------------------------------ *)
(** ** The image resolver ([crawler.ts], [comprehensive-crawler.ts]) *)

Module Resolver.

(** The part of a Reddit post payload ([post: any]) the resolver reads.
    An absent ([undefined] / [null]) property is [None]; flags are taken by
    their truthiness.  [media_metadata] is the object's own properties in
    the order [Object.keys] enumerates them. *)
Record MediaSource := { u : option string }.
Record MediaItem := { s : option MediaSource }.
Record GalleryItem := { media_id : string }.
Record GalleryData := { items : option (list GalleryItem) }.

Record RawPost := {
  url : option string;
  is_video : bool;
  is_gallery : bool;
  media_metadata : option (list (string * MediaItem));
  gallery_data : option GalleryData
}.

(** *** The network: metadata-only ([HEAD]) probes *)

Inductive HeadOutcome :=
| HeadFailed                                  (* network error or timeout *)
| HeadResponse (ok : bool) (content_type : option string).

Inductive NetEvent :=
| EvHead (target : string) (timeout_ms : nat) (answer : HeadOutcome).

Definition Net := list NetEvent -> string -> HeadOutcome.

(** [await fetch(target, { method: 'HEAD', signal: AbortSignal.timeout(ms) })] *)
Definition fetch_head (net : Net) (target : string) (ms : nat)
  : M NetEvent (bool * option string) :=
  answer <- request (fun t => net t target) (EvHead target ms) ;;
  match answer with
  | HeadFailed => throw "fetch failed"
  | HeadResponse ok ct => ret (ok, ct)
  end.

(** *** URL classification (textually the same in both files) *)

Definition imageExtensions := [".jpg"; ".jpeg"; ".png"; ".gif"; ".webp"].
Definition imageDomains := ["i.redd.it"; "i.imgur.com"; "preview.redd.it"].

Definition isImageUrl (link : string) : bool :=
  let hasImageExtension :=
    JS.some (fun ext => JS.includes (JS.toLowerCase link) ext) imageExtensions in
  let hasImageDomain :=
    JS.some (fun domain => JS.includes link domain) imageDomains in
  hasImageExtension || hasImageDomain.

Definition isGalleryUrl (link : string) : bool :=
  JS.includes link "reddit.com/gallery/".

Definition isImgurAlbumUrl (link : string) : bool :=
  JS.includes link "imgur.com/a/" || JS.includes link "imgur.com/gallery/".

(** *** Imgur albums *)

(** The regular expression [imgur\.com\/(?:a|gallery)\/([a-zA-Z0-9]+)]
    matched at the start of [text]; the result is capture group 1. *)
Definition album_id_here (text : string) : option string :=
  match JS.strip_prefix "imgur.com/" text with
  | None => None
  | Some r =>
      let branch (alt : string) :=
        match JS.strip_prefix alt r with
        | None => None
        | Some r1 =>
            match JS.strip_prefix "/" r1 with
            | None => None
            | Some r2 =>
                let id := JS.take_alnum r2 in
                if JS.truthy id then Some id else None
            end
        end in
      match branch "a" with
      | Some id => Some id
      | None => branch "gallery"
      end
  end.

(** [url.match(...)]: the leftmost match. *)
Fixpoint albumMatch (text : string) : option string :=
  match album_id_here text with
  | Some id => Some id
  | None =>
      match text with
      | EmptyString => None
      | String _ rest => albumMatch rest
      end
  end.

Definition is_image_type (ct : option string) : bool :=
  match ct with
  | Some v => JS.startsWith v "image/"
  | None => false
  end.

(** The [for (const testUrl of possibleUrls)] loop. *)
Fixpoint probe_each (net : Net) (possibleUrls : list string)
  : M NetEvent (option string) :=
  match possibleUrls with
  | [] => ret None
  | testUrl :: more =>
      hit <- try_catch
               (response <- fetch_head net testUrl 2000 ;;
                ret (fst response && is_image_type (snd response)))
               (fun _ => ret false) ;;
      if hit then ret (Some testUrl) else probe_each net more
  end.

Definition extractImageFromImgurAlbum (net : Net) (link : string)
  : M NetEvent (option string) :=
  try_catch
    match albumMatch link with
    | Some albumId =>
        let base := String.append "https://i.imgur.com/" albumId in
        probe_each net
          [String.append base ".jpg"; String.append base ".png";
           String.append base ".gif"]
    | None => ret None
    end
    (fun _ => ret None).

(** *** Galleries *)

(** [post.media_metadata[key]] *)
Fixpoint lookup_media (key : string) (mm : list (string * MediaItem))
  : option MediaItem :=
  match mm with
  | [] => None
  | (k, v) :: rest => if String.eqb k key then Some v else lookup_media key rest
  end.

(** [if (mediaItem && mediaItem.s && mediaItem.s.u)
       return mediaItem.s.u.replace(/&amp;/g, '&')] *)
Definition media_url (mediaItem : option MediaItem) : option string :=
  match mediaItem with
  | Some {| s := Some {| u := Some src |} |} =>
      if JS.truthy src then Some (JS.replace_amp src) else None
  | _ => None
  end.

(** The function has no effect of its own (it awaits nothing and its
    [catch] only logs), so it is a function of the payload. *)
Definition extractFirstImageFromGallery (post : RawPost) : option string :=
  match is_gallery post, media_metadata post with
  | true, Some mm =>
      let ordered :=
        match gallery_data post with
        | Some {| items := Some (firstItem :: _) |} =>
            media_url (lookup_media (media_id firstItem) mm)
        | _ => None
        end in
      match ordered with
      | Some imageUrl => Some imageUrl
      | None =>
          (* Fallback to Object.keys() *)
          match map fst mm with
          | [] => None
          | firstMediaId :: _ => media_url (lookup_media firstMediaId mm)
          end
      end
  | _, _ => None
  end.

Definition invalid (link why : string) : Types.ImageValidation :=
  {| Types.isValid := false; Types.url := link; Types.reason := Some why |}.

Definition valid (link : string) : Types.ImageValidation :=
  {| Types.isValid := true; Types.url := link; Types.reason := None |}.

End Resolver.

(** *** [scripts/crawler.ts]: the variant with the final availability probe *)

Module Crawler.
Import Resolver.

Definition checkImageAvailability (net : Net) (link : string)
  : M NetEvent bool :=
  try_catch
    (response <- fetch_head net link 5000 ;;
     if negb (fst response) then ret false
     else
       let contentType :=
         match snd response with Some v => v | None => "" end in
       ret (JS.startsWith contentType "image/"))
    (fun _ => ret false).

(** The tail of [validateImage], after [imageUrl] has been assigned. *)
Definition check_resolved (net : Net) (post_url : string)
  (imageUrl : option string) : M NetEvent Types.ImageValidation :=
  match imageUrl with
  | Some link =>
      if JS.truthy link then
        isAvailable <- checkImageAvailability net link ;;
        if negb isAvailable
        then ret (invalid link "Image URL returns 404 or is unavailable")
        else ret (valid link)
      else ret (invalid post_url "No valid image URL found")
  | None => ret (invalid post_url "No valid image URL found")
  end.

Definition validateImage (net : Net) (post : RawPost)
  : M NetEvent Types.ImageValidation :=
  match url post with
  | None => ret (invalid "" "No URL found")
  | Some post_url =>
      if negb (JS.truthy post_url) then ret (invalid "" "No URL found")
      else if is_video post then ret (invalid post_url "Post is a video")
      else if isImageUrl post_url then check_resolved net post_url (Some post_url)
      else if isGalleryUrl post_url then
        let imageUrl := extractFirstImageFromGallery post in
        if negb (JS.truthy_opt imageUrl)
        then ret (invalid post_url "Could not extract image from gallery")
        else check_resolved net post_url imageUrl
      else if isImgurAlbumUrl post_url then
        imageUrl <- extractImageFromImgurAlbum net post_url ;;
        if negb (JS.truthy_opt imageUrl)
        then ret (invalid post_url "Could not extract image from Imgur album")
        else check_resolved net post_url imageUrl
      else ret (invalid post_url "URL is not an image or gallery")
  end.

End Crawler.

(** *** [scripts/comprehensive-crawler.ts]: the variant without it *)

Module ComprehensiveCrawler.
Import Resolver.

Definition validateImage (net : Net) (post : RawPost)
  : M NetEvent Types.ImageValidation :=
  match url post with
  | None => ret (invalid "" "No URL found")
  | Some post_url =>
      if negb (JS.truthy post_url) then ret (invalid "" "No URL found")
      else if is_video post then ret (invalid post_url "Post is a video")
      else if isImageUrl post_url then ret (valid post_url)
      else if isGalleryUrl post_url then
        match extractFirstImageFromGallery post with
        | Some firstImage =>
            if JS.truthy firstImage then ret (valid firstImage)
            else ret (invalid post_url "Could not extract image from gallery")
        | None => ret (invalid post_url "Could not extract image from gallery")
        end
      else if isImgurAlbumUrl post_url then
        extractedImage <- extractImageFromImgurAlbum net post_url ;;
        match extractedImage with
        | Some link =>
            if JS.truthy link then ret (valid link)
            else ret (invalid post_url "Could not extract image from Imgur album")
        | None => ret (invalid post_url "Could not extract image from Imgur album")
        end
      else ret (invalid post_url "URL is not an image or gallery")
  end.

End ComprehensiveCrawler.

(* ------------------------------------------------------------------ *)
(** ** The OAuth manager's comment submission *)

Module OAuth.

(** The parsed body of the comment endpoint's answer, as far as
    [postComment] inspects it: [result.json.errors],
    [result.json.data.things] and [result.success]. *)
Record JsonData := { things : option (list string) }.
Record JsonPart := {
  json_errors : option (list string);
  json_data : option JsonData
}.
Record CommentResult := {
  json : option JsonPart;
  success : bool                        (* [result.success === true] *)
}.

(** What [makeAuthenticatedRequest] followed by reading the body can do:
    throw (the token refresh fails, the network fails, the body is not
    JSON), answer with a non-2xx status, or answer 2xx with a body. *)
Inductive SubmitOutcome :=
| SubmitThrows
| SubmitNotOk (status : nat)
| SubmitOk (result : CommentResult).

Definition has_api_errors (result : CommentResult) : bool :=
  match json result with
  | Some {| json_errors := Some (_ :: _) |} => true
  | _ => false
  end.

Definition has_things (result : CommentResult) : bool :=
  match json result with
  | Some {| json_data := Some {| things := Some _ |} |} => true
  | _ => false
  end.

Section Manager.
Context {E : Type}.
Variable endpoint : list E -> string -> string -> SubmitOutcome.
Variable record : string -> string -> SubmitOutcome -> E.

(** [RedditOAuthManager.postComment] *)
Definition postComment (postId commentText : string) : M E bool :=
  try_catch
    (response <- request (fun t => endpoint t postId commentText)
                         (record postId commentText) ;;
     match response with
     | SubmitThrows => throw "request failed"
     | SubmitNotOk _ => ret false
     | SubmitOk result =>
         if has_api_errors result then ret false
         else if has_things result then ret true
         else if success result then ret true
         else ret false
     end)
    (fun _ => ret false).
End Manager.

End OAuth.

(* ------------------------------------------------------------------ *)
(** ** The intelligent commenter *)

Module Commenter.

(** [interface CommenterConfig] *)
Record Commenting := {
  maxCommentsPerRun : nat;
  delayBetweenComments : nat;
  maxCommentsPerDay : nat;
  cooldownAfterRateLimit : nat
}.
Record PostSelection := {
  minCommentCount : nat;
  maxPostAgeHours : Z;
  candidateBatchSize : nat;
  topCommentsToFetch : nat;
  excludeAutoreply : bool
}.
Record QualityControl := {
  dryRunMode : bool;
  maxCommentLength : nat;
  minCommentLength : nat;
  blacklistedKeywords : list string;
  requirePortuguese : bool
}.
Record Api := {
  requestTimeout : nat;
  maxRetries : nat;
  batchDelay : nat
}.
Record CommenterConfig := {
  commenting : Commenting;
  postSelection : PostSelection;
  qualityControl : QualityControl;
  api : Api
}.

(** [interface RedditPost] *)
Module Post.
Record RedditPost := {
  id : string;
  title : string;
  selftext : string;
  author : string;
  url : string;
  created_utc : Z;
  num_comments : nat;
  score : Z;
  is_video : bool
}.
End Post.
Definition RedditPost := Post.RedditPost.

(** [interface RedditComment]; the listing's children are read as [any],
    and a child may carry no [body]. *)
Module Comment.
Record RedditComment := {
  id : string;
  body : option string;
  author : string;
  score : Z;
  created_utc : Z
}.
End Comment.
Definition RedditComment := Comment.RedditComment.

(** [interface CommenterResult] *)
Record CommenterResult := {
  processed : nat;
  commented : nat;
  skipped : nat;
  errors : nat;
  apiCallsUsed : nat
}.

(** *** The external services *)

(** [{ data, error }] of a storage query, or a thrown exception;
    [error] carries the error's [code]. *)
Inductive QueryOutcome :=
| QueryThrows
| QueryResult (data : option string) (error : option string).

(** The answer of the completion endpoint: anything that makes the [try]
    block throw before validation (network error, timeout, non-2xx status,
    a body without [choices[0].message.content]), or the content. *)
Inductive Completion :=
| CompletionFailed
| CompletionText (content : string).

Inductive Event :=
| EvFetchHot
| EvLookup (redditPostId : string)
| EvFetchComments (postId : string)
| EvCompletion (postId : string)
| EvDryRunPrint (postId commentText : string)
| EvSubmit (postId commentText : string) (answer : OAuth.SubmitOutcome)
| EvInsert (redditPostId : string)
| EvDelay (seconds : nat).

Definition Trace := list Event.

(** Why the comments of a post cannot be fetched:
    [redditOAuth.makeAuthenticatedRequest] first asks the OAuth manager
    for an access token and throws, before anything is sent, when the
    manager obtains none; otherwise the request is sent and fails itself
    (network, timeout, non-2xx status, a body that is not the listing). *)
Inductive FetchFailure :=
| NoAccessToken
| RequestFailed.

(** The world a run talks to.  [None] for a listing stands for every way
    the fetch can throw (authentication, network, timeout, non-2xx); for
    the comments of a post, [reddit_comments_failure] tells which. *)
Record World := {
  clock : Trace -> Z;                    (* [Date.now()], in milliseconds *)
  reddit_hot : Trace -> option (list RedditPost);
  reddit_comments : Trace -> string -> option (list RedditComment);
  reddit_comments_failure : Trace -> string -> FetchFailure;
  reddit_submit : Trace -> string -> string -> OAuth.SubmitOutcome;
  storage_lookup : Trace -> string -> QueryOutcome;
  storage_insert : Trace -> string -> QueryOutcome;
  completion : Trace -> RedditPost -> list RedditComment -> Completion
}.

Section Run.
Variable W : World.
Variable config : CommenterConfig.

(** The commenter's [isImageUrl] also accepts gallery links. *)
Definition isImageUrl (link : string) : bool :=
  let hasImageExtension :=
    JS.some (fun ext => JS.includes (JS.toLowerCase link) ext)
            [".jpg"; ".jpeg"; ".png"; ".gif"; ".webp"] in
  let hasImageDomain :=
    JS.some (fun domain => JS.includes link domain)
            ["i.redd.it"; "i.imgur.com"; "preview.redd.it"] in
  hasImageExtension || hasImageDomain
  || JS.includes link "reddit.com/gallery/".

(** **** Database functions *)

Definition checkAlreadyCommented (redditPostId : string) : M Event bool :=
  try_catch
    (answer <- request (fun t => storage_lookup W t redditPostId)
                       (fun _ => EvLookup redditPostId) ;;
     match answer with
     | QueryThrows => throw "query failed"
     | QueryResult data error =>
         match error with
         | Some code =>
             if negb (String.eqb code "PGRST116") then ret false
             else ret (match data with Some _ => true | None => false end)
         | None => ret (match data with Some _ => true | None => false end)
         end
     end)
    (fun _ => ret false).

Definition recordComment (redditPostId : string) : M Event bool :=
  try_catch
    (answer <- request (fun t => storage_insert W t redditPostId)
                       (fun _ => EvInsert redditPostId) ;;
     match answer with
     | QueryThrows => throw "insert failed"
     | QueryResult _ (Some _) => ret false
     | QueryResult _ None => ret true
     end)
    (fun _ => ret false).

(** **** Reddit API functions *)

Definition fetchHotPosts : M Event (list RedditPost) :=
  try_catch
    (answer <- request (reddit_hot W) (fun _ => EvFetchHot) ;;
     match answer with
     | None => throw "HTTP error"
     | Some posts => ret posts
     end)
    (fun error => throw error).

(** [comment.body && comment.body !== '[deleted]'
     && comment.body.length > 10] *)
Definition usable (comment : RedditComment) : bool :=
  match Comment.body comment with
  | Some text =>
      JS.truthy text && negb (String.eqb text "[deleted]")
      && (10 <? String.length text)
  | None => false
  end.

(** [redditOAuth.makeAuthenticatedRequest] for the comments of a post: the
    request is sent, and recorded, only once the manager has handed out an
    access token.  The message thrown otherwise is one of the manager's;
    no caller reads it. *)
Definition requestComments (postId : string)
  : M Event (option (list RedditComment)) :=
  fun t =>
    match reddit_comments W t postId, reddit_comments_failure W t postId with
    | None, NoAccessToken => (Throw "Failed to obtain access token", t)
    | answer, _ => (Ok answer, t ++ [EvFetchComments postId])
    end.

Definition fetchPostComments (postId : string)
  : M Event (list RedditComment) :=
  try_catch
    (answer <- requestComments postId ;;
     match answer with
     | None => throw "HTTP error"
     | Some children => ret (filter usable children)
     end)
    (fun error => throw error).

Definition postComment (postId commentText : string) : M Event bool :=
  if dryRunMode (qualityControl config) then
    emit (EvDryRunPrint postId commentText) ;;
    ret true
  else
    try_catch
      (success <- OAuth.postComment (reddit_submit W) EvSubmit
                                    postId commentText ;;
       ret success)
      (fun _ => ret false).

(** **** LLM functions *)

(** The validation of the trimmed completion text (the block commented
    [// Validate comment] up to the final [return comment]). *)
Definition validated (comment : string) : option string :=
  let qc := qualityControl config in
  if String.length comment <? minCommentLength qc then None
  else if maxCommentLength qc <? String.length comment
  then Some (JS.substring0 (maxCommentLength qc) comment)
  else
    let hasBlacklisted :=
      JS.some (fun keyword =>
                 JS.includes (JS.toLowerCase comment) (JS.toLowerCase keyword))
              (blacklistedKeywords qc) in
    if hasBlacklisted then None else Some comment.

Definition generateComment (post : RedditPost)
  (comments : list RedditComment) : M Event (option string) :=
  try_catch
    (answer <- request (fun t => completion W t post comments)
                       (fun _ => EvCompletion (Post.id post)) ;;
     match answer with
     | CompletionFailed => throw "OpenAI API error"
     | CompletionText content => ret (validated (JS.trim content))
     end)
    (fun _ => ret None).

(** **** Main processing functions *)

(** The [for (const post of imagePosts)] loop that fills [notCommented]. *)
Fixpoint keep_not_commented (imagePosts : list RedditPost)
  : M Event (list RedditPost) :=
  match imagePosts with
  | [] => ret []
  | post :: more =>
      alreadyCommented <- checkAlreadyCommented (Post.id post) ;;
      kept <- keep_not_commented more ;;
      ret (if negb alreadyCommented then post :: kept else kept)
  end.

Definition filterCandidatePosts (posts : list RedditPost)
  : M Event (list RedditPost) :=
  let withEnoughComments :=
    filter (fun post =>
              minCommentCount (postSelection config) <=? Post.num_comments post)
           posts in
  fun t =>
    let now := (clock W t / 1000)%Z in
    let maxAge := (maxPostAgeHours (postSelection config) * 3600)%Z in
    let recentPosts :=
      filter (fun post => (now - Post.created_utc post <=? maxAge)%Z)
             withEnoughComments in
    let imagePosts :=
      filter (fun post =>
                negb (Post.is_video post) && isImageUrl (Post.url post))
             recentPosts in
    (notCommented <- keep_not_commented imagePosts ;;
     ret (JS.slice0 (maxCommentsPerRun (commenting config)) notCommented)) t.

(** The end of [processPost], once the comment is posted and recorded. *)
Definition pace : M Event bool :=
  (if 0 <? delayBetweenComments (commenting config)
   then emit (EvDelay (delayBetweenComments (commenting config)))
   else ret tt) ;;
  ret true.

Definition processPost (post : RedditPost) : M Event bool :=
  try_catch
    (comments <- fetchPostComments (Post.id post) ;;
     if List.length comments <? 3 then ret false
     else
       commentText <- generateComment post comments ;;
       match commentText with
       | None => ret false
       | Some text =>
           if negb (JS.truthy text) then ret false
           else
             posted <- postComment (Post.id post) text ;;
             if negb posted then ret false
             else if negb (dryRunMode (qualityControl config)) then
               recorded <- recordComment (Post.id post) ;;
               if negb recorded then ret false else pace
             else pace
       end)
    (fun _ => ret false).

(** **** Main function *)

Definition count_processed (r : CommenterResult) : CommenterResult :=
  {| processed := S (processed r); commented := commented r;
     skipped := skipped r; errors := errors r;
     apiCallsUsed := apiCallsUsed r |}.

Definition count_api_calls (n : nat) (r : CommenterResult) : CommenterResult :=
  {| processed := processed r; commented := commented r;
     skipped := skipped r; errors := errors r;
     apiCallsUsed := apiCallsUsed r + n |}.

Definition count_commented (r : CommenterResult) : CommenterResult :=
  {| processed := processed r; commented := S (commented r);
     skipped := skipped r; errors := errors r;
     apiCallsUsed := apiCallsUsed r |}.

Definition count_skipped (r : CommenterResult) : CommenterResult :=
  {| processed := processed r; commented := commented r;
     skipped := S (skipped r); errors := errors r;
     apiCallsUsed := apiCallsUsed r |}.

Definition count_error (r : CommenterResult) : CommenterResult :=
  {| processed := processed r; commented := commented r;
     skipped := skipped r; errors := S (errors r);
     apiCallsUsed := apiCallsUsed r |}.

(** The [for (const post of candidates)] loop; [result] is the mutable
    counter object. *)
Fixpoint process_each (candidates : list RedditPost)
  (result : CommenterResult) : M Event CommenterResult :=
  match candidates with
  | [] => ret result
  | post :: more =>
      let result := count_processed result in
      result <-
        try_catch
          (success <- processPost post ;;
           let result := count_api_calls 2 result in
           if success then
             let result := count_commented result in
             if negb (dryRunMode (qualityControl config))
             then ret (count_api_calls 1 result)
             else ret result
           else ret (count_skipped result))
          (fun _ => ret (count_error result)) ;;
      process_each more result
  end.

Definition fresh_result : CommenterResult :=
  {| processed := 0; commented := 0; skipped := 0; errors := 0;
     apiCallsUsed := 0 |}.

Definition runIntelligentCommenter : M Event CommenterResult :=
  let result := fresh_result in
  try_catch
    (hotPosts <- fetchHotPosts ;;
     let result := count_api_calls 1 result in
     candidates <- filterCandidatePosts hotPosts ;;
     if List.length candidates =? 0 then ret result
     else process_each candidates result)
    (fun error => throw error).
End Run.

End Commenter.

(* ------------------------------------------------------------------ *)
(** ** Example payloads *)

Module Examples.
Import Resolver.

Definition media (src : string) : MediaItem :=
  {| s := Some {| u := Some src |} |}.

(** A media entry whose processing failed: it has no source ([s]). *)
Definition failed_media : MediaItem := {| s := None |}.

(** A gallery whose ordered item list starts with ["m2"]. *)
Definition gallery_post : RawPost :=
  {| url := Some "https://www.reddit.com/gallery/1abcde";
     is_video := false;
     is_gallery := true;
     media_metadata :=
       Some [("m1", media "https://preview.redd.it/one?width=640&amp;s=aa");
             ("m2", media "https://preview.redd.it/two?width=640&amp;s=bb")];
     gallery_data :=
       Some {| items := Some [ {| media_id := "m2" |}; {| media_id := "m1" |} ] |} |}.

(** The same gallery, but the entry of the first listed item has no
    source URL. *)
Definition gallery_first_failed : RawPost :=
  {| url := Some "https://www.reddit.com/gallery/1abcde";
     is_video := false;
     is_gallery := true;
     media_metadata :=
       Some [("m1", media "https://preview.redd.it/one?width=640&amp;s=aa");
             ("m2", failed_media)];
     gallery_data :=
       Some {| items := Some [ {| media_id := "m2" |}; {| media_id := "m1" |} ] |} |}.

Definition video_post : RawPost :=
  {| url := Some "https://v.redd.it/xyz";
     is_video := true;
     is_gallery := false;
     media_metadata := None;
     gallery_data := None |}.

(** A network on which every probe finds an image. *)
Definition net_up : Net := fun _ _ => HeadResponse true (Some "image/jpeg").

(** A network on which every probe times out. *)
Definition net_down : Net := fun _ _ => HeadFailed.

End Examples.

(* ------------------------------------------------------------------ *)
(** ** Notions the properties are stated with *)

Module Spec.

(** A probe's answer that [checkImageAvailability] accepts: a 2xx status
    with an [image/...] content type. *)
Definition finds_image (answer : Resolver.HeadOutcome) : bool :=
  match answer with
  | Resolver.HeadResponse true (Some ct) => JS.startsWith ct "image/"
  | _ => false
  end.


Import Commenter.

(** The comment endpoint's answer that [RedditOAuthManager.postComment]
    takes for a success: a 2xx status, no API error listed, and either the
    created things or the [success] flag. *)
Definition confirmed (answer : OAuth.SubmitOutcome) : bool :=
  match answer with
  | OAuth.SubmitOk result =>
      negb (OAuth.has_api_errors result)
      && (OAuth.has_things result || OAuth.success result)
  | _ => false
  end.

(** The storage's answer to the lookup of a CommentRecord that
    [checkAlreadyCommented] takes for "already commented": a row came back
    and no error other than [PGRST116] with it. *)
Definition reports_record (answer : QueryOutcome) : bool :=
  match answer with
  | QueryResult (Some _) None => true
  | QueryResult (Some _) (Some code) => String.eqb code "PGRST116"
  | _ => false
  end.

Definition is_insert (e : Event) : bool :=
  match e with EvInsert _ => true | _ => false end.

Definition is_submit (e : Event) : bool :=
  match e with EvSubmit _ _ _ => true | _ => false end.

Definition is_completion (e : Event) : bool :=
  match e with EvCompletion _ => true | _ => false end.

(** A trace in which every insert of a CommentRecord comes directly after
    a confirmed submission for the same post. *)
Inductive Recorded : Trace -> Prop :=
| Recorded_nil : Recorded []
| Recorded_other e t :
    is_insert e = false -> Recorded t -> Recorded (e :: t)
| Recorded_pair postId commentText answer t :
    confirmed answer = true -> Recorded t ->
    Recorded (EvSubmit postId commentText answer :: EvInsert postId :: t).

(** An event that is neither a real submission nor a storage insert. *)
Definition quiet (e : Event) : Prop :=
  is_submit e = false /\ is_insert e = false.

(** *** The media type of a link

    The specification speaks of links that match "known image file
    extensions or known image-hosting domains" or "a gallery URL pattern",
    and names none of them: the extensions, the domains and the pattern
    are the constants of the sources. *)
Definition image_extensions : list string :=
  [".jpg"; ".jpeg"; ".png"; ".gif"; ".webp"].

Definition image_hosts : list string :=
  ["i.redd.it"; "i.imgur.com"; "preview.redd.it"].

Definition gallery_path : string := "reddit.com/gallery/".

(** [needle] occurs in [text]: the text spells it from some position on. *)
Definition Occurs (needle text : string) : Prop :=
  exists before after,
    text = String.append before (String.append needle after).

(** A text that mentions an image or a gallery: a known image file
    extension occurs in it, in any letter case, or a known image-hosting
    domain, or the gallery path.  Where in the text is not asked. *)
Definition MentionsMedia (text : string) : Prop :=
  (exists ext, In ext image_extensions /\ Occurs ext (JS.toLowerCase text))
  \/ (exists host, In host image_hosts /\ Occurs host text)
  \/ Occurs gallery_path text.

(** The part of a link that locates the resource: the link up to its
    query string ([?]) or fragment ([#]), which are handed to the resource
    and are no part of its host or of its file name. *)
Fixpoint locator (link : string) : string :=
  match link with
  | EmptyString => EmptyString
  | String c rest =>
      if Ascii.eqb c "?"%char || Ascii.eqb c "#"%char then EmptyString
      else String c (locator rest)
  end.

(** An image or gallery URL, in the specification's words: a link that
    matches a known image file extension, a known image-hosting domain or
    the gallery pattern.  The reading is the most generous one the words
    allow: the match may stand anywhere in the locator.  It only leaves out
    what no reading takes in, a match that the query string or the
    fragment alone provides. *)
Definition ImageOrGalleryUrl (link : string) : Prop :=
  MentionsMedia (locator link).

(** The candidate filter as the specification words it: the four
    predicates in their order, then the truncation.  [is_media] tells
    which links pass for the media type, [has_record] tells which posts
    have a CommentRecord. *)
Definition selectCandidates (config : CommenterConfig) (now : Z)
  (is_media : string -> bool) (has_record : string -> bool)
  (posts : list RedditPost) : list RedditPost :=
  let by_count :=
    filter (fun p => minCommentCount (postSelection config) <=? Post.num_comments p)
           posts in
  let by_age :=
    filter (fun p => (now - Post.created_utc p
                      <=? maxPostAgeHours (postSelection config) * 3600)%Z)
           by_count in
  let by_media :=
    filter (fun p => negb (Post.is_video p) && is_media (Post.url p))
           by_age in
  let by_record := filter (fun p => negb (has_record (Post.id p))) by_media in
  firstn (maxCommentsPerRun (commenting config)) by_record.

(** The posts that reach the fourth predicate. *)
Definition looked_up (config : CommenterConfig) (now : Z)
  (is_media : string -> bool) (posts : list RedditPost) : list RedditPost :=
  filter (fun p => negb (Post.is_video p) && is_media (Post.url p))
    (filter (fun p => (now - Post.created_utc p
                       <=? maxPostAgeHours (postSelection config) * 3600)%Z)
       (filter (fun p => minCommentCount (postSelection config)
                         <=? Post.num_comments p)
          posts)).

End Spec.

(* ------------------------------------------------------------------ *)
(** ** A run of the commenter on a small world *)

Module Scenario.
Import Commenter.

Definition config0 (dry : bool) : CommenterConfig :=
  {| commenting :=
       {| maxCommentsPerRun := 3; delayBetweenComments := 30;
          maxCommentsPerDay := 20; cooldownAfterRateLimit := 600 |};
     postSelection :=
       {| minCommentCount := 5; maxPostAgeHours := 24;
          candidateBatchSize := 25; topCommentsToFetch := 5;
          excludeAutoreply := true |};
     qualityControl :=
       {| dryRunMode := dry; maxCommentLength := 40; minCommentLength := 10;
          blacklistedKeywords := ["spam"; "Bot"];
          requirePortuguese := true |};
     api := {| requestTimeout := 3000; maxRetries := 3; batchDelay := 1000 |} |}.

Definition image_post (name : string) (comments : nat) (created : Z)
  : RedditPost :=
  {| Post.id := name; Post.title := "Me julguem"; Post.selftext := "";
     Post.author := "someone";
     Post.url := String.append "https://i.redd.it/" (String.append name ".jpg");
     Post.created_utc := created; Post.num_comments := comments;
     Post.score := 12; Post.is_video := false |}.

Definition now_ms : Z := 1700000000000.

Definition p1 := image_post "p1" 10 1699992800.
Definition p2 := image_post "p2" 10 1699992800.
Definition p3 := image_post "p3" 2 1699992800.       (* too few comments *)
Definition p4 := image_post "p4" 10 1699000000.      (* too old *)

(** A post with a given link; it passes the comment-count and the age
    predicates. *)
Definition link_post (name link : string) (video : bool) : RedditPost :=
  {| Post.id := name; Post.title := "Me julguem"; Post.selftext := "";
     Post.author := "someone"; Post.url := link;
     Post.created_utc := 1699992800; Post.num_comments := 10;
     Post.score := 12; Post.is_video := video |}.

(** A text post, a video on an image host, and a gallery. *)
Definition p5 :=
  link_post "p5" "https://www.reddit.com/r/MeJulgue/comments/p5/me_julguem/" false.
Definition p6 := link_post "p6" "https://i.redd.it/p6.jpg" true.
Definition p7 := link_post "p7" "https://www.reddit.com/gallery/p7" false.

(** A page that is neither an image nor a gallery, with the name of an
    image host in its query string. *)
Definition query_post :=
  link_post "q" "https://evil.example/?x=i.redd.it" false.

Definition remark (name text : string) : RedditComment :=
  {| Comment.id := name; Comment.body := Some text; Comment.author := "u";
     Comment.score := 3; Comment.created_utc := 1699993000 |}.

Definition three_remarks : list RedditComment :=
  [remark "c1" "Gostei muito da foto"; remark "c2" "[deleted]";
   remark "c3" "O corte de cabelo ficou otimo";
   remark "c4" "Nota dez, sem duvida"; remark "c5" "legal"].

Definition submit_ok : OAuth.SubmitOutcome :=
  OAuth.SubmitOk
    {| OAuth.json :=
         Some {| OAuth.json_errors := Some [];
                 OAuth.json_data := Some {| OAuth.things := Some ["t1_new"] |} |};
       OAuth.success := false |}.

Definition not_found : QueryOutcome := QueryResult None (Some "PGRST116").
Definition row : QueryOutcome := QueryResult (Some "1") None.

Definition reply_fine : string := "  Que foto bonita, parabens!  ".
Definition reply_long_blacklisted : string :=
  "Nao e SPAM, mas visite o meu perfil para ver muito mais fotos".

Definition few_remarks : list RedditComment :=
  [remark "c1" "Gostei muito da foto"; remark "c2" "[deleted]";
   remark "c5" "legal"; remark "c3" "O corte de cabelo ficou otimo"].

(** Reddit lists the comments [threads] tells for a post; nothing is
    recorded in storage except for ["p2"] when [p2_recorded] is set; the
    completion endpoint answers with [reply]; submissions and inserts
    succeed. *)
Definition world_of (threads : string -> option (list RedditComment))
  (p2_recorded : bool) (reply : string) : World :=
  {| clock := fun _ => now_ms;
     reddit_hot := fun _ => Some [p1; p3; p2; p4];
     reddit_comments := fun _ postId => threads postId;
     reddit_comments_failure := fun _ _ => RequestFailed;
     reddit_submit := fun _ _ _ => submit_ok;
     storage_lookup :=
       fun _ postId =>
         if p2_recorded && String.eqb postId "p2" then row else not_found;
     storage_insert := fun _ _ => QueryResult None None;
     completion := fun _ _ _ => CompletionText reply |}.

(** Reddit fails to list the comments of [p1] and lists five comments,
    three of them usable, for any other post. *)
Definition world (p2_recorded : bool) (reply : string) : World :=
  world_of (fun postId =>
              if String.eqb postId "p1" then None else Some three_remarks)
           p2_recorded reply.

(** A world in which the listing of hot posts cannot be fetched. *)
Definition world_offline : World :=
  {| clock := fun _ => now_ms;
     reddit_hot := fun _ => None;
     reddit_comments := fun _ _ => None;
     reddit_comments_failure := fun _ _ => RequestFailed;
     reddit_submit := fun _ _ _ => OAuth.SubmitThrows;
     storage_lookup := fun _ _ => QueryThrows;
     storage_insert := fun _ _ => QueryThrows;
     completion := fun _ _ _ => CompletionFailed |}.


(** Every post has a thread with two usable comments only. *)
Definition world_few : World :=
  world_of (fun _ => Some few_remarks) false reply_fine.

End Scenario.

(* ------------------------------------------------------------------ *)
(** ** Proof steps shared by the trace lemmas *)

Ltac solve_recorded :=
  repeat first
    [ apply Spec.Recorded_nil
    | apply Spec.Recorded_pair; [assumption|]
    | apply Spec.Recorded_other; [reflexivity|] ].

Ltac close_trace :=
  eexists _, _; split;
  [ rewrite <- ?app_assoc; cbn [app]; reflexivity
  | split;
    [ solve [solve_recorded]
    | intros Hdry; first [ congruence | solve [repeat constructor] ] ] ].

(* ------------------------------------------------------------------ *)
(** ** Observations on the resolver's probes *)

Module Obs.
Import Resolver.

(** The link a probe was sent to, and its timeout. *)
Definition probe_of (e : NetEvent) : string * nat :=
  match e with EvHead target ms _ => (target, ms) end.

(** Whether the probe's answer was a 2xx status with an image type. *)
Definition probe_hit (e : NetEvent) : bool :=
  match e with EvHead _ _ answer => Spec.finds_image answer end.

(** The three links [extractImageFromImgurAlbum] guesses for an album. *)
Definition possibleUrls (albumId : string) : list string :=
  let base := String.append "https://i.imgur.com/" albumId in
  [String.append base ".jpg"; String.append base ".png";
   String.append base ".gif"].

Fixpoint all_alnum (text : string) : bool :=
  match text with
  | EmptyString => true
  | String c rest => JS.is_alnum c && all_alnum rest
  end.

End Obs.

(* ------------------------------------------------------------------ *)
(** ** Observations on the commenter's requests *)

Module Seen.
Import Commenter.

(** How many events of a kind a trace holds. *)
Definition count (kind : Event -> bool) (t : Trace) : nat :=
  List.length (filter kind t).

Definition is_fetch_comments (e : Event) : bool :=
  match e with EvFetchComments _ => true | _ => false end.

Definition is_print (e : Event) : bool :=
  match e with EvDryRunPrint _ _ => true | _ => false end.

(** A request made for the sake of commenting on the post [postId]: the
    fetch of its comments, the completion for it, the comment itself
    (printed or submitted) and its record. *)
Definition touches (postId : string) (e : Event) : bool :=
  match e with
  | EvFetchComments p | EvCompletion p | EvDryRunPrint p _
  | EvSubmit p _ _ | EvInsert p => String.eqb p postId
  | _ => false
  end.

(** The pause after a comment. *)
Definition pacing (config : CommenterConfig) : Trace :=
  if 0 <? delayBetweenComments (commenting config)
  then [EvDelay (delayBetweenComments (commenting config))] else [].

(** What [processPost] can answer for a post and the requests it then has
    issued, in order. *)
Inductive PostShape (config : CommenterConfig) (postId : string)
  : bool -> Trace -> Prop :=
| NoRequest :
    PostShape config postId false []
| NoComments :
    PostShape config postId false [EvFetchComments postId]
| NoText :
    PostShape config postId false [EvFetchComments postId; EvCompletion postId]
| Printed text :
    dryRunMode (qualityControl config) = true ->
    PostShape config postId true
      ([EvFetchComments postId; EvCompletion postId; EvDryRunPrint postId text]
         ++ pacing config)
| Refused text answer :
    dryRunMode (qualityControl config) = false ->
    Spec.confirmed answer = false ->
    PostShape config postId false
      [EvFetchComments postId; EvCompletion postId; EvSubmit postId text answer]
| Unrecorded text answer :
    dryRunMode (qualityControl config) = false ->
    Spec.confirmed answer = true ->
    PostShape config postId false
      [EvFetchComments postId; EvCompletion postId; EvSubmit postId text answer;
       EvInsert postId]
| Commented text answer :
    dryRunMode (qualityControl config) = false ->
    Spec.confirmed answer = true ->
    PostShape config postId true
      ([EvFetchComments postId; EvCompletion postId; EvSubmit postId text answer;
        EvInsert postId] ++ pacing config).

(** A world in which the comments request always goes out: where the
    comments of a post cannot be fetched, it is the request that failed,
    not the OAuth manager that had no access token to send it with. *)
Definition signed_in (W : World) : Prop :=
  forall (t : Trace) (postId : string),
    reddit_comments W t postId = None ->
    reddit_comments_failure W t postId = RequestFailed.

(** Whether a storage write was answered without error. *)
Definition stored (answer : QueryOutcome) : bool :=
  match answer with
  | QueryResult _ None => true
  | _ => false
  end.

(** Whether a keyword of the blacklist occurs in a text, in any letter
    case. *)
Definition blacklisted (config : CommenterConfig) (text : string) : bool :=
  JS.some (fun keyword =>
             JS.includes (JS.toLowerCase text) (JS.toLowerCase keyword))
          (blacklistedKeywords (qualityControl config)).

End Seen.

(* ------------------------------------------------------------------ *)
(** ** Numbers in template strings *)

Module JSNum.

(** [`${n}`] for a non-negative integer. *)
Definition show_nat (n : nat) : string :=
  NilEmpty.string_of_uint (Nat.to_uint n).

End JSNum.

(* ------------------------------------------------------------------ *)
(** ** Sequential effects over a state with module-level variables *)

Module St.

Section Monad.
Context {S : Type}.

(** A computation over the state of a script: its mutable variables and
    the trace of its requests. *)
Definition M (A : Type) : Type := S -> Res A * S.

Definition ret {A} (a : A) : M A := fun s => (Ok a, s).

Definition throw {A} (msg : string) : M A := fun s => (Throw msg, s).

Definition bind {A B} (m : M A) (k : A -> M B) : M B :=
  fun s =>
    match m s with
    | (Ok a, s') => k a s'
    | (Throw msg, s') => (Throw msg, s')
    end.

(** [try { body } catch (error) { handler }]: what the body did to the
    state before it threw stays done. *)
Definition try_catch {A} (body : M A) (handler : string -> M A) : M A :=
  fun s =>
    match body s with
    | (Ok a, s') => (Ok a, s')
    | (Throw msg, s') => handler msg s'
    end.

Definition get : M S := fun s => (Ok s, s).

Definition put (s' : S) : M unit := fun _ => (Ok tt, s').
End Monad.

Arguments M : clear implicits.

Declare Scope st_scope.
Delimit Scope st_scope with st.
Notation "x <- m ;; k" := (bind m (fun x => k))
  (at level 61, m at next level, right associativity) : st_scope.
Notation "m ;; k" := (bind m (fun _ => k))
  (at level 61, right associativity) : st_scope.

End St.

(* ------------------------------------------------------------------ *)
(** ** The OAuth manager with its token cache *)

Module Session.

(** [interface TokenInfo] *)
Record TokenInfo := {
  access_token : string;
  expires_at : Z;                        (* Unix timestamp, seconds *)
  token_type : string;
  scope : string
}.

(** The body of the token endpoint's answer, as [refreshAccessToken]
    reads it. *)
Record TokenData := {
  td_access_token : string;
  td_expires_in : Z;
  td_token_type : string;
  td_scope : string
}.

Inductive TokenOutcome :=
| TokenThrows                            (* network failure, body not JSON *)
| TokenNotOk (status : nat)
| TokenOk (tokenData : TokenData).

(** The answer of [/api/v1/me]. *)
Inductive MeOutcome :=
| MeThrows
| MeNotOk (status : nat)
| MeOk (name id : string).

Inductive Event :=
| EvRefresh (answer : TokenOutcome)
| EvComment (bearer postId commentText : string) (answer : OAuth.SubmitOutcome)
| EvMe (bearer : string) (answer : MeOutcome).

Definition Trace := list Event.

Record World := {
  now_ms : Trace -> Z;                   (* [Date.now()] *)
  token_endpoint : Trace -> TokenOutcome;
  comment_endpoint : Trace -> string -> string -> string -> OAuth.SubmitOutcome;
  me_endpoint : Trace -> string -> MeOutcome
}.

(** The manager object and the requests issued so far. *)
Record State := {
  currentToken : option TokenInfo;
  trace : Trace
}.

Local Open Scope st_scope.
Import St.

Section Manager.
Variable W : World.
(** [REDDIT_CONFIG.refreshToken]: absent when the variable is not set. *)
Variable refreshToken : option string.

(** One awaited request: the answer is read at the current trace and the
    request recorded with it; the manager's variables are not touched. *)
Definition request {A} (oracle : Trace -> A) (record : A -> Event)
  : M State A :=
  fun s =>
    let a := oracle (trace s) in
    (Ok a, {| currentToken := currentToken s; trace := trace s ++ [record a] |}).

(** [this.currentToken.expires_at > Date.now() / 1000 + 60], on integers:
    [expires_at] is a whole number of seconds and [Date.now()] a whole
    number of milliseconds. *)
Definition still_valid (token : TokenInfo) (now : Z) : bool :=
  (now + 60000 <? expires_at token * 1000)%Z.

Definition refreshAccessToken : M State unit :=
  if negb (JS.truthy_opt refreshToken)
  then throw "REDDIT_BOT_REFRESH_TOKEN environment variable is required. Run setup-bot-oauth.ts first."
  else
    response <- request (token_endpoint W) EvRefresh ;;
    match response with
    | TokenThrows => throw "fetch failed"
    | TokenNotOk status =>
        throw (String.append "Token refresh failed: " (JSNum.show_nat status))
    | TokenOk tokenData =>
        s <- get ;;
        let expiresAt := (now_ms W (trace s) / 1000 + td_expires_in tokenData)%Z in
        put {| currentToken :=
                 Some {| access_token := td_access_token tokenData;
                         expires_at := expiresAt;
                         token_type := td_token_type tokenData;
                         scope := td_scope tokenData |};
               trace := trace s |}
    end.

Definition getAccessToken : M State string :=
  s <- get ;;
  let refreshed :=
    refreshAccessToken ;;
    s' <- get ;;
    match currentToken s' with
    | None => throw "Failed to obtain access token"
    | Some token => ret (access_token token)
    end in
  match currentToken s with
  | Some token =>
      if still_valid token (now_ms W (trace s))
      then ret (access_token token)
      else refreshed
  | None => refreshed
  end.

(** [makeAuthenticatedRequest], for an endpoint whose answer is read from
    [oracle] given the bearer token. *)
Definition makeAuthenticatedRequest {A}
  (oracle : Trace -> string -> A) (record : string -> A -> Event)
  : M State A :=
  accessToken <- getAccessToken ;;
  request (fun t => oracle t accessToken) (record accessToken).

Definition postComment (postId commentText : string) : M State bool :=
  try_catch
    (response <- makeAuthenticatedRequest
                   (fun t bearer => comment_endpoint W t bearer postId commentText)
                   (fun bearer => EvComment bearer postId commentText) ;;
     match response with
     | OAuth.SubmitThrows => throw "request failed"
     | OAuth.SubmitNotOk _ => ret false
     | OAuth.SubmitOk result =>
         if OAuth.has_api_errors result then ret false
         else if OAuth.has_things result then ret true
         else if OAuth.success result then ret true
         else ret false
     end)
    (fun _ => ret false).

Definition verifyAuthentication : M State (option (string * string)) :=
  try_catch
    (response <- makeAuthenticatedRequest (me_endpoint W) EvMe ;;
     match response with
     | MeThrows => throw "request failed"
     | MeNotOk _ => ret None
     | MeOk name id => ret (Some (name, id))
     end)
    (fun _ => ret None).
End Manager.

End Session.

(* ------------------------------------------------------------------ *)
(** ** Observations on the token cache *)

Module Cache.
Import Session.

(** The manager has no token, or one that expires within 60 seconds. *)
Definition stale (W : World) (s : State) : Prop :=
  match currentToken s with
  | Some token => still_valid token (now_ms W (trace s)) = false
  | None => True
  end.

(** The token the manager caches from an answer of the token endpoint,
    received when the clock shows [now] milliseconds. *)
Definition cached_from (tokenData : TokenData) (now : Z) : TokenInfo :=
  {| access_token := td_access_token tokenData;
     expires_at := (now / 1000 + td_expires_in tokenData)%Z;
     token_type := td_token_type tokenData;
     scope := td_scope tokenData |}.

Definition is_refresh (e : Event) : bool :=
  match e with EvRefresh _ => true | _ => false end.

Definition is_comment (e : Event) : bool :=
  match e with EvComment _ _ _ _ => true | _ => false end.

(** A manager whose token endpoint grants a token for an hour, at a clock
    that stands still. *)
Definition granted : TokenData :=
  {| td_access_token := "tok-1"; td_expires_in := 3600;
     td_token_type := "bearer"; td_scope := "submit read identity" |}.

Definition world_granting : World :=
  {| now_ms := fun _ => 1700000000000%Z;
     token_endpoint := fun _ => TokenOk granted;
     comment_endpoint := fun _ _ _ _ => OAuth.SubmitNotOk 403;
     me_endpoint := fun _ _ => MeNotOk 403 |}.

Definition fresh_manager : State := {| currentToken := None; trace := [] |}.

End Cache.

(* ------------------------------------------------------------------ *)
(** ** [new Date(ms).toISOString()] *)

Module JSDate.
Local Open Scope Z_scope.

Definition digit (d : Z) : ascii := ascii_of_nat (48 + Z.to_nat d).

(** The last [width] decimal digits of a non-negative number. *)
Fixpoint pad (width : nat) (n : Z) : string :=
  match width with
  | O => EmptyString
  | S w => String.append (pad w (n / 10)) (String (digit (n mod 10)) EmptyString)
  end.

(** The proleptic Gregorian date of a day number counted from
    1970-01-01: year, month (1 to 12) and day of the month. *)
Definition civil (days : Z) : Z * Z * Z :=
  let z := days + 719468 in
  let era := z / 146097 in
  let doe := z - era * 146097 in
  let yoe := (doe - doe / 1460 + doe / 36524 - doe / 146096) / 365 in
  let doy := doe - (365 * yoe + yoe / 4 - yoe / 100) in
  let mp := (5 * doy + 2) / 153 in
  let d := doy - (153 * mp + 2) / 5 + 1 in
  let m := if mp <? 10 then mp + 3 else mp - 9 in
  let y := yoe + era * 400 + (if m <=? 2 then 1 else 0) in
  (y, m, d).

Definition show_year (y : Z) : string :=
  if (0 <=? y) && (y <=? 9999) then pad 4 y
  else String.append (if y <? 0 then "-" else "+") (pad 6 (Z.abs y)).

(** The time value is in milliseconds since the epoch.  Outside the range
    of a [Date] (100 million days either side) the date is invalid and
    [toISOString] throws a [RangeError]: the result is [None]. *)
Definition toISOString (tv : Z) : option string :=
  if Z.abs tv <=? 8640000000000000 then
    let days := tv / 86400000 in
    let rest := tv mod 86400000 in
    let '(y, m, d) := civil days in
    Some (String.append (show_year y)
         (String.append "-" (String.append (pad 2 m)
         (String.append "-" (String.append (pad 2 d)
         (String.append "T" (String.append (pad 2 (rest / 3600000))
         (String.append ":" (String.append (pad 2 (rest / 60000 mod 60))
         (String.append ":" (String.append (pad 2 (rest / 1000 mod 60))
         (String.append "." (String.append (pad 3 (rest mod 1000)) "Z")))))))))))))
  else None.

End JSDate.

(* ------------------------------------------------------------------ *)
(** ** The crawl loops ([crawler.ts], [comprehensive-crawler.ts]) *)

Module Crawl.
Import St.
Local Open Scope st_scope.

(** A post of a listing ([child.data], read as [any]): the part the
    resolver reads, and the properties the loops copy into the row. *)
Module Listed.
Record Post := {
  payload : Resolver.RawPost;
  id : string;
  title : string;
  author : string;
  created_utc : Z;
  score : Z
}.
End Listed.

(** [Omit<Post, 'id' | 'created_at_app'>], the row to insert. *)
Module Row.
Record Post := {
  reddit_id : string;
  image_url : string;
  title : string;
  username : string;
  created_at : string;
  reddit_score : Z;
  elo : nat;
  wins : nat;
  losses : nat
}.
End Row.

Inductive TokenAnswer :=
| TokenThrows (msg : string)
| TokenNotOk (status : nat)
| TokenOk (access_token : option string).

Inductive ListingAnswer :=
| ListingThrows (msg : string)           (* network failure, malformed body *)
| ListingNotOk (status : nat)
| ListingOk (posts : list Listed.Post) (after : option string).

Inductive Event :=
| EvToken (answer : TokenAnswer)
| EvListing (link bearer : string) (answer : ListingAnswer)
| EvProbe (probe : Resolver.NetEvent)
| EvExists (redditId : string)
| EvInsertPost (post : Row.Post) (answer : Commenter.QueryOutcome)
| EvPause (ms : nat).

Definition Trace := list Event.

Record World := {
  token_endpoint : Trace -> TokenAnswer;
  listing_endpoint : Trace -> string -> string -> ListingAnswer;
  net : Resolver.Net;
  posts_lookup : Trace -> string -> Commenter.QueryOutcome;
  posts_insert : Trace -> Row.Post -> Commenter.QueryOutcome
}.

(** The module-level [accessToken] and the requests issued so far. *)
Record State := {
  accessToken : option string;
  trace : Trace
}.

(** The probes of a trace, which are what an image host has seen. *)
Fixpoint probes (t : Trace) : list Resolver.NetEvent :=
  match t with
  | [] => []
  | EvProbe probe :: rest => probe :: probes rest
  | _ :: rest => probes rest
  end.

Section Loops.
Variable W : World.

Definition request {A} (oracle : Trace -> A) (record : A -> Event)
  : M State A :=
  fun s =>
    let a := oracle (trace s) in
    (Ok a, {| accessToken := accessToken s; trace := trace s ++ [record a] |}).

Definition pause (ms : nat) : M State unit :=
  fun s => (Ok tt, {| accessToken := accessToken s;
                      trace := trace s ++ [EvPause ms] |}).

(** A computation of the resolver run inside a crawl: it sees the probes
    made so far, and the probes it adds are added to the crawl's trace. *)
Definition probing {A} (m : Eff.M Resolver.NetEvent A) : M State A :=
  fun s =>
    let seen := probes (trace s) in
    let (r, seen') := m seen in
    (r, {| accessToken := accessToken s;
           trace := trace s ++ map EvProbe (skipn (List.length seen) seen') |}).

(** [getAccessToken] of the crawlers: the token is fetched once and kept. *)
Definition getAccessToken : M State string :=
  s <- get ;;
  if JS.truthy_opt (accessToken s)
  then ret (match accessToken s with Some token => token | None => "" end)
  else
    try_catch
      (response <- request (token_endpoint W) EvToken ;;
       match response with
       | TokenThrows msg => throw msg
       | TokenNotOk status =>
           throw (String.append "HTTP error! status: " (JSNum.show_nat status))
       | TokenOk received =>
           s' <- get ;;
           put {| accessToken := received; trace := trace s' |} ;;
           match received with
           | Some token =>
               if JS.truthy token then ret token
               else throw "No access token received from Reddit API"
           | None => throw "No access token received from Reddit API"
           end
       end)
      (fun error => throw error).

(** The listing link both crawlers build. *)
Definition listing_link (subreddit sort : string) (timeFilter after : option string)
  (limit : nat) : string :=
  let base :=
    String.append "https://oauth.reddit.com/r/"
      (String.append subreddit
         (String.append "/"
            (String.append sort
               (String.append "?limit=" (JSNum.show_nat limit))))) in
  let with_time :=
    match timeFilter with
    | Some window => if JS.truthy window
                     then String.append base (String.append "&t=" window)
                     else base
    | None => base
    end in
  match after with
  | Some cursor => if JS.truthy cursor
                   then String.append with_time (String.append "&after=" cursor)
                   else with_time
  | None => with_time
  end.

(** [fetchRedditPostsBatch] *)
Definition fetchRedditPostsBatch (subreddit sort : string)
  (timeFilter after : option string) (limit : nat)
  : M State (list Listed.Post * option string) :=
  try_catch
    (token <- getAccessToken ;;
     let link := listing_link subreddit sort timeFilter after limit in
     response <- request (fun t => listing_endpoint W t link token)
                         (EvListing link token) ;;
     match response with
     | ListingThrows msg => throw msg
     | ListingNotOk status =>
         throw (String.append "HTTP error! status: " (JSNum.show_nat status))
     | ListingOk posts nextAfter => ret (posts, nextAfter)
     end)
    (fun error => throw error).

(** [fetchRedditPosts] of [crawler.ts]: the hot listing, no cursor. *)
Definition fetchRedditPosts (subreddit : string) (limit : nat)
  : M State (list Listed.Post) :=
  try_catch
    (token <- getAccessToken ;;
     let link := listing_link subreddit "hot" None None limit in
     response <- request (fun t => listing_endpoint W t link token)
                         (EvListing link token) ;;
     match response with
     | ListingThrows msg => throw msg
     | ListingNotOk status =>
         throw (String.append "HTTP error! status: " (JSNum.show_nat status))
     | ListingOk posts _ => ret posts
     end)
    (fun error => throw error).

(** **** Database helper functions *)

Definition insertPost (post : Row.Post) : M State (option string) :=
  try_catch
    (answer <- request (fun t => posts_insert W t post) (EvInsertPost post) ;;
     match answer with
     | Commenter.QueryThrows => throw "insert failed"
     | Commenter.QueryResult _ (Some _) => ret None
     | Commenter.QueryResult data None => ret data
     end)
    (fun _ => ret None).

Definition checkPostExists (redditId : string) : M State bool :=
  try_catch
    (answer <- request (fun t => posts_lookup W t redditId)
                       (fun _ => EvExists redditId) ;;
     match answer with
     | Commenter.QueryThrows => throw "query failed"
     | Commenter.QueryResult data error =>
         match error with
         | Some code =>
             if negb (String.eqb code "PGRST116") then ret false
             else ret (match data with Some _ => true | None => false end)
         | None => ret (match data with Some _ => true | None => false end)
         end
     end)
    (fun _ => ret false).

(** **** One post *)

Inductive Outcome := Inserted | Skipped | Failed.

(** The row built from a post and its resolved image link;
    [toISOString] throws for a creation time outside the range of dates. *)
Definition new_post (post : Listed.Post) (link : string) : M State Row.Post :=
  match JSDate.toISOString (Listed.created_utc post * 1000) with
  | None => throw "Invalid time value"
  | Some created =>
      ret {| Row.reddit_id := Listed.id post;
             Row.image_url := link;
             Row.title := Listed.title post;
             Row.username := Listed.author post;
             Row.created_at := created;
             Row.reddit_score := Listed.score post;
             Row.elo := 1500;
             Row.wins := 0;
             Row.losses := 0 |}
  end.

(** The body of the loop over the posts, the same in both crawlers up to
    the variant of [validateImage] and the console output: its [try]
    block and its [catch], with the counter it increments as result. *)
Definition handle_post
  (validateImage : Resolver.Net -> Resolver.RawPost
                   -> Eff.M Resolver.NetEvent Types.ImageValidation)
  (post : Listed.Post) : M State Outcome :=
  try_catch
    (imageValidation <- probing (validateImage (net W) (Listed.payload post)) ;;
     if negb (Types.isValid imageValidation) then ret Skipped
     else
       exists_ <- checkPostExists (Listed.id post) ;;
       if exists_ then ret Skipped
       else
         newPost <- new_post post (Types.url imageValidation) ;;
         inserted <- insertPost newPost ;;
         match inserted with
         | Some _ => ret Inserted
         | None => ret Failed
         end)
    (fun _ => ret Failed).

Definition count_outcome (o : Outcome) (r : Types.CrawlerResult)
  : Types.CrawlerResult :=
  match o with
  | Inserted =>
      {| Types.processed := Types.processed r;
         Types.inserted := S (Types.inserted r);
         Types.skipped := Types.skipped r; Types.errors := Types.errors r |}
  | Skipped =>
      {| Types.processed := Types.processed r;
         Types.inserted := Types.inserted r;
         Types.skipped := S (Types.skipped r); Types.errors := Types.errors r |}
  | Failed =>
      {| Types.processed := Types.processed r;
         Types.inserted := Types.inserted r;
         Types.skipped := Types.skipped r; Types.errors := S (Types.errors r) |}
  end.

Definition count_processed (n : nat) (r : Types.CrawlerResult)
  : Types.CrawlerResult :=
  {| Types.processed := Types.processed r + n;
     Types.inserted := Types.inserted r;
     Types.skipped := Types.skipped r; Types.errors := Types.errors r |}.

Definition zero_result : Types.CrawlerResult :=
  {| Types.processed := 0; Types.inserted := 0; Types.skipped := 0;
     Types.errors := 0 |}.

(** **** [crawler.ts] *)

(** The [for (const post of posts)] loop of [crawlReddit]. *)
Fixpoint crawl_each (posts : list Listed.Post) (result : Types.CrawlerResult)
  : M State Types.CrawlerResult :=
  match posts with
  | [] => ret result
  | post :: more =>
      let result := count_processed 1 result in
      outcome <- handle_post Crawler.validateImage post ;;
      crawl_each more (count_outcome outcome result)
  end.

Definition crawlReddit : M State Types.CrawlerResult :=
  try_catch
    (posts <- fetchRedditPosts "MeJulgue" 50 ;;
     crawl_each posts zero_result)
    (fun error => throw error).

(** **** [comprehensive-crawler.ts] *)

(** [processPosts]; the result's [processed] is not used. *)
Fixpoint processPosts (posts : list Listed.Post) (result : Types.CrawlerResult)
  : M State Types.CrawlerResult :=
  match posts with
  | [] => ret result
  | post :: more =>
      outcome <- handle_post ComprehensiveCrawler.validateImage post ;;
      processPosts more (count_outcome outcome result)
  end.

(** [CRAWL_STRATEGIES] *)
Record Strategy := {
  sort : string;
  time : option string;
  batches : nat;
  priority : nat;
  description : string
}.

Definition CRAWL_STRATEGIES : list Strategy :=
  [ {| sort := "new"; time := None; batches := 5; priority := 1;
       description := "Newest posts (fresh content pipeline) - up to 500" |};
    {| sort := "hot"; time := None; batches := 2; priority := 2;
       description := "Currently trending posts - up to 200" |};
    {| sort := "top"; time := Some "week"; batches := 1; priority := 3;
       description := "Top posts this week - up to 100" |};
    {| sort := "top"; time := Some "month"; batches := 1; priority := 4;
       description := "Top posts this month - up to 100" |};
    {| sort := "top"; time := Some "year"; batches := 1; priority := 5;
       description := "Top posts this year - up to 100" |} ].

(** How an iteration of the batch loop ends: [break], or on to the next
    batch with the cursor [after]. *)
Inductive Step :=
| Break (tally : Types.CrawlerResult)
| Next (after : option string) (tally : Types.CrawlerResult).

Definition add_batch (batch : Types.CrawlerResult) (fetched : nat)
  (tally : Types.CrawlerResult) : Types.CrawlerResult :=
  {| Types.processed := Types.processed tally + fetched;
     Types.inserted := Types.inserted tally + Types.inserted batch;
     Types.skipped := Types.skipped tally + Types.skipped batch;
     Types.errors := Types.errors tally + Types.errors batch |}.

Definition add_error (tally : Types.CrawlerResult) : Types.CrawlerResult :=
  {| Types.processed := Types.processed tally;
     Types.inserted := Types.inserted tally;
     Types.skipped := Types.skipped tally;
     Types.errors := S (Types.errors tally) |}.

(** The authentication test of the batch loop's [catch]. *)
Definition is_auth_failure (errorMessage : string) : bool :=
  JS.includes errorMessage "401"
  || JS.includes errorMessage "HTTP error! status: 401".

(** The [for (let batch = 1; batch <= strategy.batches; batch++)] loop,
    with [remaining] iterations to go.  [tally] holds the strategy's
    [strategyInserted], [strategySkipped] and [strategyErrors], and
    [totalResult.processed] as its [processed]. *)
Fixpoint crawl_batches (strategy : Strategy) (remaining : nat)
  (after : option string) (tally : Types.CrawlerResult)
  : M State Types.CrawlerResult :=
  match remaining with
  | O => ret tally
  | S fewer =>
      step <-
        try_catch
          (fetched <- fetchRedditPostsBatch "MeJulgue" (sort strategy)
                        (time strategy) after 100 ;;
           let posts := fst fetched in
           let nextAfter := snd fetched in
           if List.length posts =? 0 then ret (Break tally)
           else
             batchResult <- processPosts posts zero_result ;;
             let tally := add_batch batchResult (List.length posts) tally in
             if negb (JS.truthy_opt nextAfter) then ret (Break tally)
             else
               pause 200 ;;
               ret (Next nextAfter tally))
          (fun errorMessage =>
             if is_auth_failure errorMessage then throw errorMessage
             else ret (Next after (add_error tally))) ;;
      match step with
      | Break tally' => ret tally'
      | Next after' tally' => crawl_batches strategy fewer after' tally'
      end
  end.

(** The [for (const strategy of CRAWL_STRATEGIES)] loop. *)
Fixpoint crawl_strategies (strategies : list Strategy)
  (totalResult : Types.CrawlerResult) : M State Types.CrawlerResult :=
  match strategies with
  | [] => ret totalResult
  | strategy :: more =>
      tally <- crawl_batches strategy (batches strategy) None
                 {| Types.processed := Types.processed totalResult;
                    Types.inserted := 0; Types.skipped := 0;
                    Types.errors := 0 |} ;;
      crawl_strategies more
        {| Types.processed := Types.processed tally;
           Types.inserted := Types.inserted totalResult + Types.inserted tally;
           Types.skipped := Types.skipped totalResult + Types.skipped tally;
           Types.errors := Types.errors totalResult + Types.errors tally |}
  end.

Definition comprehensiveCrawl : M State Types.CrawlerResult :=
  totalResult <- crawl_strategies CRAWL_STRATEGIES zero_result ;;
  if (Types.processed totalResult =? 0) && (0 <? Types.errors totalResult)
  then throw (String.append "Crawler failed: 0 posts processed with "
                (String.append (JSNum.show_nat (Types.errors totalResult))
                               " errors"))
  else ret totalResult.

End Loops.

End Crawl.

(* ------------------------------------------------------------------ *)
(** ** Observations on a crawl *)

Module Stored.
Import Crawl.

Definition is_listing (e : Event) : bool :=
  match e with EvListing _ _ _ => true | _ => false end.

Definition is_token (e : Event) : bool :=
  match e with EvToken _ => true | _ => false end.

Definition is_insert (e : Event) : bool :=
  match e with EvInsertPost _ _ => true | _ => false end.

Definition count (kind : Event -> bool) (t : Trace) : nat :=
  List.length (filter kind t).

(** The identifiers of the posts whose insert the storage accepted, in
    the order of the inserts. *)
Fixpoint stored_ids (t : Trace) : list string :=
  match t with
  | [] => []
  | EvInsertPost post answer :: rest =>
      if Seen.stored answer then Row.reddit_id post :: stored_ids rest
      else stored_ids rest
  | _ :: rest => stored_ids rest
  end.

(** A storage that remembers: once it has accepted the insert of a post,
    it reports a row for that post's identifier. *)
Definition remembers (W : World) : Prop :=
  forall (t : Trace) (redditId : string),
    In redditId (stored_ids t) ->
    Spec.reports_record (posts_lookup W t redditId) = true.

(** Every insert of a trace directly follows the existence check of the
    same post, and is the insert of a new row: rating 1500, no wins, no
    losses, and a non-empty image link. *)
Inductive Checked : Trace -> Prop :=
| Checked_nil : Checked []
| Checked_other e t :
    is_insert e = false -> Checked t -> Checked (e :: t)
| Checked_pair post answer t :
    Row.elo post = 1500 -> Row.wins post = 0 -> Row.losses post = 0 ->
    JS.truthy (Row.image_url post) = true ->
    Checked t ->
    Checked (EvExists (Row.reddit_id post) :: EvInsertPost post answer :: t).

(** The state after further requests that leave the token alone. *)
Definition extend (s : State) (ext : Trace) : State :=
  {| accessToken := accessToken s; trace := trace s ++ ext |}.

(** An event that is neither an insert, nor a listing, nor a token
    request. *)
Definition plain (e : Event) : bool :=
  match e with
  | EvProbe _ | EvExists _ | EvPause _ => true
  | _ => false
  end.

(** A request that is neither a token request nor a listing request
    with another bearer than [token]. *)
Definition uses (token : string) (e : Event) : bool :=
  match e with
  | EvToken _ => false
  | EvListing _ bearer _ => String.eqb bearer token
  | _ => true
  end.

(** What every part of a crawl keeps, from the state [s] to the state
    [s'] over the requests [ext]: the trace only grows; inserts are
    checked first; a storage that remembers is never made to hold a post
    twice; and a token once held is kept and used, no other being asked
    for. *)
Definition Grows (W : World) (s s' : State) (ext : Trace) : Prop :=
  trace s' = trace s ++ ext
  /\ Checked ext
  /\ (remembers W -> NoDup (stored_ids (trace s)) ->
      NoDup (stored_ids (trace s')))
  /\ (forall token,
         accessToken s = Some token -> JS.truthy token = true ->
         accessToken s' = Some token
         /\ Forall (fun e => uses token e = true) ext).

(** A token request that yields no usable token: [getAccessToken]
    throws on it. *)
Definition token_refused (answer : TokenAnswer) : bool :=
  match answer with
  | TokenOk (Some token) => negb (JS.truthy token)
  | _ => true
  end.

(** A request on which the fetch of a listing fails: the token request
    when it yields no token (the listing is then not asked for), or the
    listing request when it is not answered with a listing. *)
Definition fetch_failed (e : Event) : bool :=
  match e with
  | EvToken answer => token_refused answer
  | EvListing _ _ (ListingOk _ _) => false
  | EvListing _ _ _ => true
  | _ => false
  end.

(** The posts of the listings a trace holds. *)
Fixpoint listed (t : Trace) : nat :=
  match t with
  | [] => 0
  | EvListing _ _ (ListingOk posts _) :: rest => List.length posts + listed rest
  | _ :: rest => listed rest
  end.

(** Every insert of [ext] comes right after the existence check of the
    same post and inserts a new row. *)
Definition inserts_checked (ext : Trace) : Prop :=
  forall before row answer after,
    ext = before ++ EvInsertPost row answer :: after ->
    (exists earlier, before = earlier ++ [EvExists (Row.reddit_id row)])
    /\ Row.elo row = 1500 /\ Row.wins row = 0 /\ Row.losses row = 0
    /\ JS.truthy (Row.image_url row) = true.

(** The sum of the batch counts of a list of strategies. *)
Definition total_batches (strategies : list Strategy) : nat :=
  fold_right (fun strategy n => batches strategy + n) 0 strategies.

End Stored.


(* ------------------------------------------------------------------ *)
(** ** A crawl over a small world *)

Module CrawlScenario.
Import Crawl.

Definition listed_post (name : string) (link : option string) (created : Z)
  : Listed.Post :=
  {| Listed.payload :=
       {| Resolver.url := link; Resolver.is_video := false;
          Resolver.is_gallery := false; Resolver.media_metadata := None;
          Resolver.gallery_data := None |};
     Listed.id := name; Listed.title := "Me julguem";
     Listed.author := "someone"; Listed.created_utc := created;
     Listed.score := 5 |}.

(** A page on which the post ["a1"] shows up twice, ["b2"] has no link and
    ["c3"] has a creation time no date can hold. *)
Definition page : list Listed.Post :=
  [ listed_post "a1" (Some "https://i.redd.it/a1.jpg") 1700000000;
    listed_post "a1" (Some "https://i.redd.it/a1.jpg") 1700000000;
    listed_post "b2" None 1700000100;
    listed_post "c3" (Some "https://i.redd.it/c3.png") 9000000000000000 ].

Definition row : Commenter.QueryOutcome := Commenter.QueryResult (Some "row") None.
Definition no_row : Commenter.QueryOutcome :=
  Commenter.QueryResult None (Some "PGRST116").

(** Every listing shows [page] and has no next page; every probe finds an
    image; the storage accepts every insert and reports a row for exactly
    the posts it has accepted. *)
Definition world : World :=
  {| token_endpoint := fun _ => TokenOk (Some "tok");
     listing_endpoint := fun _ _ _ => ListingOk page None;
     net := fun _ _ => Resolver.HeadResponse true (Some "image/png");
     posts_lookup :=
       fun t redditId =>
         if existsb (String.eqb redditId) (Stored.stored_ids t) then row
         else no_row;
     posts_insert := fun _ _ => row |}.

(** The same world, but Reddit answers every listing request with 401. *)
Definition world_unauthorized : World :=
  {| token_endpoint := fun _ => TokenOk (Some "tok");
     listing_endpoint := fun _ _ _ => ListingNotOk 401;
     net := net world;
     posts_lookup := posts_lookup world;
     posts_insert := posts_insert world |}.

(** The same world, but Reddit answers the requests for the hot listing
    with 500. *)
Definition world_flaky : World :=
  {| token_endpoint := fun _ => TokenOk (Some "tok");
     listing_endpoint :=
       fun _ link _ =>
         if JS.includes link "/hot?" then ListingNotOk 500
         else ListingOk page None;
     net := net world;
     posts_lookup := posts_lookup world;
     posts_insert := posts_insert world |}.

(** The same world, but the token endpoint answers with 503. *)
Definition world_no_token : World :=
  {| token_endpoint := fun _ => TokenNotOk 503;
     listing_endpoint := listing_endpoint world;
     net := net world;
     posts_lookup := posts_lookup world;
     posts_insert := posts_insert world |}.

Definition start : State := {| accessToken := None; trace := [] |}.
Definition start_with_token : State := {| accessToken := Some "tok"; trace := [] |}.

End CrawlScenario.

(* ------------------------------------------------------------------ *)
(** ** A commenter whose storage refuses inserts *)

Module ScenarioDown.
Import Commenter.

Definition world_insert_down : World :=
  {| clock := clock (Scenario.world false Scenario.reply_fine);
     reddit_hot := reddit_hot (Scenario.world false Scenario.reply_fine);
     reddit_comments := fun _ _ => Some Scenario.three_remarks;
     reddit_comments_failure := fun _ _ => RequestFailed;
     reddit_submit := fun _ _ _ => Scenario.submit_ok;
     storage_lookup := fun _ _ => Scenario.not_found;
     storage_insert := fun _ _ => QueryResult None (Some "23505");
     completion := fun _ _ _ => CompletionText Scenario.reply_fine |}.

(** The OAuth manager obtains no access token: no comments can be
    fetched, and no comments request is sent. *)
Definition world_signed_out : World :=
  {| clock := clock (Scenario.world false Scenario.reply_fine);
     reddit_hot := reddit_hot (Scenario.world false Scenario.reply_fine);
     reddit_comments := fun _ _ => None;
     reddit_comments_failure := fun _ _ => NoAccessToken;
     reddit_submit := fun _ _ _ => OAuth.SubmitThrows;
     storage_lookup := fun _ _ => Scenario.not_found;
     storage_insert := fun _ _ => QueryResult None None;
     completion := fun _ _ _ => CompletionText Scenario.reply_fine |}.

End ScenarioDown.

(* ================================================================== *)
(** * Properties *)

(** ** Strings *)

Section StringFacts.

Lemma substring0_length (n : nat) (text : string) :
  n <= String.length text -> String.length (JS.substring0 n text) = n.
Proof.
  revert text; induction n as [|n IH]; intros [|c rest] H; simpl in *;
    try reflexivity; try lia.
  rewrite IH by lia; reflexivity.
Qed.

Lemma substring0_is_prefix (n : nat) (text : string) :
  exists rest, text = String.append (JS.substring0 n text) rest.
Proof.
  revert text; induction n as [|n IH]; intros text.
  - exists text. destruct text; reflexivity.
  - destruct text as [|c rest]; [exists EmptyString; reflexivity|].
    destruct (IH rest) as [tl Htl]. exists tl. simpl. now rewrite <- Htl.
Qed.

Lemma trimEnd_length (text : string) :
  String.length (JS.trimEnd text) <= String.length text.
Proof.
  induction text as [|c rest IH]; simpl; [lia|].
  destruct (JS.trimEnd rest) eqn:E; [destruct (JS.is_space c)|]; simpl in *; lia.
Qed.

Lemma trimStart_length (text : string) :
  String.length (JS.trimStart text) <= String.length text.
Proof.
  induction text as [|c rest IH]; simpl; [lia|].
  destruct (JS.is_space c); simpl; lia.
Qed.

Lemma trim_length (text : string) :
  String.length (JS.trim text) <= String.length text.
Proof.
  unfold JS.trim.
  pose proof (trimEnd_length (JS.trimStart text)).
  pose proof (trimStart_length text). lia.
Qed.

Lemma replace_amp_truthy (src : string) :
  JS.truthy src = true -> JS.truthy (JS.replace_amp src) = true.
Proof.
  destruct src as [|c rest]; [discriminate|]. intros _.
  unfold JS.replace_amp. cbn [JS.replace_amp_from].
  destruct (String.prefix "&amp;" (String c rest)); reflexivity.
Qed.

(** A text without any ampersand is left alone by the decoder. *)
Lemma replace_amp_no_amp (text : string) :
  JS.includes text "&" = false -> JS.replace_amp text = text.
Proof.
  unfold JS.replace_amp.
  induction text as [|c rest IH]; [reflexivity|].
  cbn [JS.includes JS.replace_amp_from]. intros H.
  apply Bool.orb_false_iff in H as [Hc Hrest].
  assert (Hp : String.prefix "&amp;" (String c rest) = false).
  { cbn [String.prefix] in *. destruct (ascii_dec "&" c); [|reflexivity].
    destruct rest; discriminate. }
  rewrite Hp, IH by assumption. reflexivity.
Qed.

Lemma replace_amp_skips (before tail : string) :
  JS.includes before "&" = false ->
  JS.replace_amp (String.append before tail)
  = String.append before (JS.replace_amp tail).
Proof.
  unfold JS.replace_amp.
  induction before as [|c more IH]; intros H; [reflexivity|].
  cbn [JS.includes] in H. apply Bool.orb_false_iff in H as [Hc Hmore].
  cbn [String.append JS.replace_amp_from].
  assert (Hp : String.prefix "&amp;" (String c (String.append more tail)) = false).
  { cbn [String.prefix] in *. destruct (ascii_dec "&" c); [|reflexivity].
    destruct more; discriminate. }
  rewrite Hp, IH by assumption. reflexivity.
Qed.

(** Decoding reaches the first escaped ampersand and goes on after it. *)
Lemma replace_amp_first (before rest : string) :
  JS.includes before "&" = false ->
  JS.replace_amp (String.append before (String.append "&amp;" rest))
  = String.append before (String "&" (JS.replace_amp rest)).
Proof.
  intros H. rewrite replace_amp_skips by assumption.
  f_equal. unfold JS.replace_amp. cbn. destruct rest; reflexivity.
Qed.

Lemma prefix_append (p r : string) : String.prefix p (String.append p r) = true.
Proof.
  induction p as [|a p IH]; cbn; [now destruct r|].
  destruct (ascii_dec a a); [exact IH|contradiction].
Qed.

Lemma includes_mid (pre sub post : string) :
  JS.includes (String.append pre (String.append sub post)) sub = true.
Proof.
  induction pre as [|c pre IH].
  - cbn [String.append]. destruct (String.append sub post) eqn:E;
      cbn [JS.includes]; rewrite <- E, prefix_append; reflexivity.
  - cbn [String.append JS.includes]. rewrite IH. apply Bool.orb_true_r.
Qed.

Lemma prefix_split (p text : string) :
  String.prefix p text = true -> exists rest, text = String.append p rest.
Proof.
  revert text; induction p as [|a p IH]; intros text H.
  - exists text. reflexivity.
  - destruct text as [|b text]; [discriminate H|].
    cbn [String.prefix] in H.
    destruct (ascii_dec a b) as [->|]; [|discriminate H].
    destruct (IH text H) as [rest ->]. exists rest. reflexivity.
Qed.

(** [includes] finds exactly the texts that occur. *)
Lemma includes_iff (text sub : string) :
  JS.includes text sub = true <-> Spec.Occurs sub text.
Proof.
  split.
  - induction text as [|c text IH]; cbn [JS.includes]; intros H;
      apply Bool.orb_true_iff in H as [H|H]; try discriminate H.
    + destruct (prefix_split _ _ H) as [rest ->].
      exists EmptyString, rest. reflexivity.
    + destruct (prefix_split _ _ H) as [rest ->].
      exists EmptyString, rest. reflexivity.
    + destruct (IH H) as (before & after & ->).
      exists (String c before), after. reflexivity.
  - intros (before & after & ->). apply includes_mid.
Qed.

Lemma some_iff {A} (p : A -> bool) (l : list A) :
  JS.some p l = true <-> exists a, In a l /\ p a = true.
Proof. apply existsb_exists. Qed.

(** The commenter's [isImageUrl] accepts exactly the links that mention
    an image or a gallery. *)
Lemma isImageUrl_iff (link : string) :
  Commenter.isImageUrl link = true <-> Spec.MentionsMedia link.
Proof.
  unfold Commenter.isImageUrl, Spec.MentionsMedia.
  cbv zeta. rewrite !Bool.orb_true_iff, !some_iff, includes_iff.
  fold Spec.image_extensions Spec.image_hosts.
  split.
  - intros [[(ext & Hin & H)|(host & Hin & H)]|H].
    + left. exists ext. split; [exact Hin|now apply includes_iff].
    + right; left. exists host. split; [exact Hin|now apply includes_iff].
    + right; right. exact H.
  - intros [(ext & Hin & H)|[(host & Hin & H)|H]].
    + left; left. exists ext. split; [exact Hin|now apply includes_iff].
    + left; right. exists host. split; [exact Hin|now apply includes_iff].
    + right. exact H.
Qed.

Lemma locator_prefix (link : string) :
  exists rest, link = String.append (Spec.locator link) rest.
Proof.
  induction link as [|c link [rest IH]]; [exists EmptyString; reflexivity|].
  cbn [Spec.locator].
  destruct (Ascii.eqb c "?" || Ascii.eqb c "#").
  - exists (String c link). reflexivity.
  - exists rest. cbn [String.append]. now rewrite <- IH.
Qed.

Lemma toLowerCase_append (a b : string) :
  JS.toLowerCase (String.append a b)
  = String.append (JS.toLowerCase a) (JS.toLowerCase b).
Proof. induction a as [|c a IH]; cbn; congruence. Qed.

Lemma string_append_assoc (a b c : string) :
  String.append (String.append a b) c = String.append a (String.append b c).
Proof. induction a as [|x a IH]; cbn; congruence. Qed.

Lemma Occurs_append (needle text rest : string) :
  Spec.Occurs needle text -> Spec.Occurs needle (String.append text rest).
Proof.
  intros (before & after & ->). exists before, (String.append after rest).
  now rewrite !string_append_assoc.
Qed.

(** A link whose locator mentions an image or a gallery mentions it: the
    test of the sources takes in every image or gallery URL, and more. *)
Lemma ImageOrGalleryUrl_mentions (link : string) :
  Spec.ImageOrGalleryUrl link -> Spec.MentionsMedia link.
Proof.
  unfold Spec.ImageOrGalleryUrl, Spec.MentionsMedia.
  destruct (locator_prefix link) as [rest Hlink].
  intros [(ext & Hin & H)|[(host & Hin & H)|H]].
  - left. exists ext. split; [exact Hin|].
    rewrite Hlink, toLowerCase_append. now apply Occurs_append.
  - right; left. exists host. split; [exact Hin|].
    rewrite Hlink. now apply Occurs_append.
  - right; right. rewrite Hlink. now apply Occurs_append.
Qed.

(** Two tests that decide the same property are the same test. *)
Lemma decides_same {A} (P : A -> Prop) (f g : A -> bool) :
  (forall a, f a = true <-> P a) -> (forall a, g a = true <-> P a) ->
  forall a, f a = g a.
Proof.
  intros Hf Hg a. destruct (f a) eqn:Ef, (g a) eqn:Eg; try reflexivity.
  - apply Hf, Hg in Ef. congruence.
  - apply Hg, Hf in Eg. congruence.
Qed.

End StringFacts.

(** ** Sequencing *)

Section EffFacts.
Context {E A B C : Type}.

Lemma bind_ret_l (a : A) (k : A -> M E B) (t : list E) :
  bind (ret a) k t = k a t.
Proof. reflexivity. Qed.

Lemma bind_ret_r (m : M E A) (t : list E) :
  bind m ret t = m t.
Proof.
  unfold bind, ret. destruct (m t) as [[a|msg] t']; reflexivity.
Qed.

Lemma bind_assoc (m : M E A) (k : A -> M E B) (h : B -> M E C) (t : list E) :
  bind (bind m k) h t = bind m (fun a => bind (k a) h) t.
Proof.
  unfold bind. destruct (m t) as [[a|msg] t']; reflexivity.
Qed.

(** A thrown exception skips the rest of the block and reaches the
    handler with the trace as it was when thrown. *)
Lemma try_catch_throw (msg : string) (k : A -> M E B)
  (handler : string -> M E B) (t : list E) :
  try_catch (bind (throw msg) k) handler t = handler msg t.
Proof. reflexivity. Qed.

End EffFacts.

(** ** The image resolver *)

Section ResolverFacts.
Import Resolver.

Lemma checkImageAvailability_run (net : Net) (link : string) (t : list NetEvent) :
  Crawler.checkImageAvailability net link t
  = (Ok (Spec.finds_image (net t link)), t ++ [EvHead link 5000 (net t link)]).
Proof.
  unfold Crawler.checkImageAvailability, fetch_head, try_catch, bind, request.
  destruct (net t link) as [|[|] [ct|]]; reflexivity.
Qed.

Lemma check_resolved_run (net : Net) (post_url link : string) (t : list NetEvent) :
  JS.truthy link = true ->
  exists r,
    Crawler.check_resolved net post_url (Some link) t
    = (Ok r, t ++ [EvHead link 5000 (net t link)])
    /\ Types.url r = link
    /\ Types.isValid r = Spec.finds_image (net t link).
Proof.
  intros Hl. unfold Crawler.check_resolved, bind. rewrite Hl.
  rewrite checkImageAvailability_run.
  destruct (Spec.finds_image (net t link)); eexists; repeat split.
Qed.

(** C7.  A post without a URL (absent or empty), or flagged as video, is
    answered invalid with the reason ["No URL found"] or ["Post is a
    video"] by both variants of [validateImage], and the trace of network
    requests is left as it was: nothing is probed. *)
Theorem validateImage_rejects_before_probing
  (net : Net) (post : RawPost) (t : list NetEvent) :
  JS.truthy_opt (url post) = false \/ is_video post = true ->
  exists link why,
    (why = "No URL found" \/ why = "Post is a video")
    /\ Crawler.validateImage net post t = (Ok (invalid link why), t)
    /\ ComprehensiveCrawler.validateImage net post t = (Ok (invalid link why), t).
Proof.
  intros H.
  unfold Crawler.validateImage, ComprehensiveCrawler.validateImage.
  destruct (url post) as [link|] eqn:Hu; cbn [JS.truthy_opt] in H.
  - destruct (JS.truthy link) eqn:Ht; cbn [negb].
    + destruct H as [H|H]; [discriminate|]. rewrite H.
      exists link, "Post is a video". repeat split. now right.
    + exists "", "No URL found". repeat split. now left.
  - exists "", "No URL found". repeat split. now left.
Qed.

Lemma validateImage_rejects_before_probing_witness :
  exists link why,
    (why = "No URL found" \/ why = "Post is a video")
    /\ Crawler.validateImage Examples.net_up Examples.video_post []
       = (Ok (invalid link why), [])
    /\ ComprehensiveCrawler.validateImage Examples.net_up Examples.video_post []
       = (Ok (invalid link why), []).
Proof.
  apply (validateImage_rejects_before_probing Examples.net_up Examples.video_post []).
  right. reflexivity.
Defined.

Lemma extractFirstImageFromGallery_ordered
  (post : RawPost) (mm : list (string * MediaItem))
  (first : GalleryItem) (rest : list GalleryItem) (src : string) :
  is_gallery post = true ->
  media_metadata post = Some mm ->
  gallery_data post = Some {| items := Some (first :: rest) |} ->
  lookup_media (media_id first) mm = Some {| s := Some {| u := Some src |} |} ->
  JS.truthy src = true ->
  extractFirstImageFromGallery post = Some (JS.replace_amp src).
Proof.
  intros Hg Hm Hd Hl Hs. unfold extractFirstImageFromGallery.
  rewrite Hg, Hm, Hd, Hl. cbn [media_url]. rewrite Hs. reflexivity.
Qed.

(** C8.  For a gallery post ([is_gallery] set, [media_metadata] present)
    whose [gallery_data.items] is a non-empty list and whose first item's
    media entry carries a source URL [src], [extractFirstImageFromGallery]
    returns [src] with every [&amp;] replaced by [&], whatever the order
    of the entries of [media_metadata].  When the post's link is
    classified as a gallery, [validateImage] of the comprehensive crawler
    answers valid with that URL and probes nothing; [validateImage] of
    [crawler.ts] answers with that URL too, after one availability probe
    of it whose outcome decides the validity flag. *)
Theorem gallery_returns_first_listed_item
  (post : RawPost) (mm : list (string * MediaItem))
  (first : GalleryItem) (rest : list GalleryItem) (src : string) :
  is_gallery post = true ->
  media_metadata post = Some mm ->
  gallery_data post = Some {| items := Some (first :: rest) |} ->
  lookup_media (media_id first) mm = Some {| s := Some {| u := Some src |} |} ->
  JS.truthy src = true ->
  extractFirstImageFromGallery post = Some (JS.replace_amp src)
  /\ forall (link : string) (net : Net) (t : list NetEvent),
       url post = Some link -> JS.truthy link = true ->
       is_video post = false ->
       isImageUrl link = false -> isGalleryUrl link = true ->
       ComprehensiveCrawler.validateImage net post t
       = (Ok (valid (JS.replace_amp src)), t)
       /\ exists r,
            Crawler.validateImage net post t
            = (Ok r, t ++ [EvHead (JS.replace_amp src) 5000
                                  (net t (JS.replace_amp src))])
            /\ Types.url r = JS.replace_amp src
            /\ Types.isValid r
               = Spec.finds_image (net t (JS.replace_amp src)).
Proof.
  intros Hg Hm Hd Hl Hs.
  pose proof (extractFirstImageFromGallery_ordered post mm first rest src
                Hg Hm Hd Hl Hs) as Hx.
  pose proof (replace_amp_truthy src Hs) as Hr.
  split; [exact Hx|].
  intros link net t Hu Ht Hv Hi Hgal. split.
  - unfold ComprehensiveCrawler.validateImage.
    rewrite Hu, Ht, Hv, Hi, Hgal, Hx, Hr. reflexivity.
  - unfold Crawler.validateImage.
    rewrite Hu, Ht, Hv, Hi, Hgal, Hx. cbn [negb JS.truthy_opt]. rewrite Hr.
    cbn [negb]. apply check_resolved_run. exact Hr.
Qed.

Lemma gallery_returns_first_listed_item_witness :
  extractFirstImageFromGallery Examples.gallery_post
  = Some "https://preview.redd.it/two?width=640&s=bb"
  /\ ComprehensiveCrawler.validateImage Examples.net_down Examples.gallery_post []
     = (Ok (valid "https://preview.redd.it/two?width=640&s=bb"), []).
Proof.
  destruct (gallery_returns_first_listed_item Examples.gallery_post
              [("m1", Examples.media "https://preview.redd.it/one?width=640&amp;s=aa");
               ("m2", Examples.media "https://preview.redd.it/two?width=640&amp;s=bb")]
              {| media_id := "m2" |} [ {| media_id := "m1" |} ]
              "https://preview.redd.it/two?width=640&amp;s=bb"
              eq_refl eq_refl eq_refl eq_refl eq_refl) as [Hfirst Hresolve].
  split; [exact Hfirst|].
  apply (Hresolve "https://www.reddit.com/gallery/1abcde" Examples.net_down []);
    reflexivity.
Defined.

(** C10.  There is a gallery post with a non-empty ordered item list whose
    first listed item has a media entry without a source URL, and which the
    resolver nevertheless accepts: [extractFirstImageFromGallery] falls
    through to the enumeration of [media_metadata]'s keys and returns the
    URL of another media item than the first listed one; the comprehensive
    crawler's [validateImage] answers valid with it, and so does
    [crawler.ts]'s once the availability probe finds the image. *)
Theorem gallery_fallback_returns_other_item :
  exists (post : RawPost) (mm : list (string * MediaItem))
         (first : GalleryItem) (rest : list GalleryItem)
         (other_id other_src : string),
    is_gallery post = true
    /\ media_metadata post = Some mm
    /\ gallery_data post = Some {| items := Some (first :: rest) |}
    /\ lookup_media (media_id first) mm = Some {| s := None |}
    /\ other_id <> media_id first
    /\ lookup_media other_id mm = Some {| s := Some {| u := Some other_src |} |}
    /\ extractFirstImageFromGallery post = Some (JS.replace_amp other_src)
    /\ (forall net t,
          ComprehensiveCrawler.validateImage net post t
          = (Ok (valid (JS.replace_amp other_src)), t))
    /\ (forall t,
          fst (Crawler.validateImage Examples.net_up post t)
          = Ok (valid (JS.replace_amp other_src))).
Proof.
  exists Examples.gallery_first_failed,
    [("m1", Examples.media "https://preview.redd.it/one?width=640&amp;s=aa");
     ("m2", Examples.failed_media)],
    {| media_id := "m2" |}, [ {| media_id := "m1" |} ],
    "m1", "https://preview.redd.it/one?width=640&amp;s=aa".
  repeat split; try reflexivity.
  intros H. discriminate H.
Qed.

End ResolverFacts.

(** ** The commenter *)

Section CommenterFacts.
Import Commenter.
Variable W : World.
Variable config : CommenterConfig.

(** *** What each awaited call does to the trace *)

Lemma checkAlreadyCommented_run (redditPostId : string) (t : Trace) :
  checkAlreadyCommented W redditPostId t
  = (Ok (Spec.reports_record (storage_lookup W t redditPostId)),
     t ++ [EvLookup redditPostId]).
Proof.
  unfold checkAlreadyCommented, try_catch, bind, request.
  destruct (storage_lookup W t redditPostId) as [|[row|] [code|]];
    cbn; try reflexivity; destruct (String.eqb code "PGRST116"); reflexivity.
Qed.

Lemma recordComment_run (redditPostId : string) (t : Trace) :
  exists recorded,
    recordComment W redditPostId t = (Ok recorded, t ++ [EvInsert redditPostId]).
Proof.
  unfold recordComment, try_catch, bind, request.
  destruct (storage_insert W t redditPostId) as [|data [code|]];
    cbn; eexists; reflexivity.
Qed.

Lemma fetchPostComments_run (postId : string) (t : Trace) :
  fetchPostComments W postId t
  = (match reddit_comments W t postId with
     | Some children => Ok (filter usable children)
     | None =>
         match reddit_comments_failure W t postId with
         | NoAccessToken => Throw "Failed to obtain access token"
         | RequestFailed => Throw "HTTP error"
         end
     end,
     t ++ match reddit_comments W t postId, reddit_comments_failure W t postId with
          | None, NoAccessToken => []
          | _, _ => [EvFetchComments postId]
          end).
Proof.
  unfold fetchPostComments, requestComments, try_catch, bind.
  destruct (reddit_comments W t postId);
    [|destruct (reddit_comments_failure W t postId)];
    cbn [throw ret]; rewrite ?app_nil_r; reflexivity.
Qed.

Lemma generateComment_run (post : RedditPost) (comments : list RedditComment)
  (t : Trace) :
  generateComment W config post comments t
  = (Ok match completion W t post comments with
        | CompletionText content => validated config (JS.trim content)
        | CompletionFailed => None
        end, t ++ [EvCompletion (Post.id post)]).
Proof.
  unfold generateComment, try_catch, bind, request.
  destruct (completion W t post comments); reflexivity.
Qed.

Lemma postComment_run (postId commentText : string) (t : Trace) :
  postComment W config postId commentText t
  = if dryRunMode (qualityControl config)
    then (Ok true, t ++ [EvDryRunPrint postId commentText])
    else (Ok (Spec.confirmed (reddit_submit W t postId commentText)),
          t ++ [EvSubmit postId commentText (reddit_submit W t postId commentText)]).
Proof.
  unfold postComment. destruct (dryRunMode (qualityControl config)).
  - reflexivity.
  - unfold OAuth.postComment, try_catch, bind, request, Spec.confirmed.
    destruct (reddit_submit W t postId commentText) as [|status|result];
      cbn; try reflexivity.
    destruct (OAuth.has_api_errors result), (OAuth.has_things result),
      (OAuth.success result); reflexivity.
Qed.

Lemma pace_run (t : Trace) :
  pace config t
  = (Ok true,
     t ++ if 0 <? delayBetweenComments (commenting config)
          then [EvDelay (delayBetweenComments (commenting config))] else []).
Proof.
  unfold pace, bind. destruct (0 <? delayBetweenComments (commenting config));
    cbn; [reflexivity|]. now rewrite app_nil_r.
Qed.

(** *** The comment generator *)

(** Within the length bounds, the blacklist decides. *)
Lemma validated_within_bounds (comment : string) :
  minCommentLength (qualityControl config) <= String.length comment ->
  String.length comment <= maxCommentLength (qualityControl config) ->
  validated config comment
  = if JS.some (fun keyword =>
                  JS.includes (JS.toLowerCase comment) (JS.toLowerCase keyword))
               (blacklistedKeywords (qualityControl config))
    then None else Some comment.
Proof.
  intros Hmin Hmax. unfold validated.
  apply Nat.ltb_ge in Hmin. apply Nat.ltb_ge in Hmax.
  rewrite Hmin, Hmax. reflexivity.
Qed.

(** Above the maximum, it is not consulted. *)
Lemma validated_too_long (comment : string) :
  minCommentLength (qualityControl config) <= String.length comment ->
  maxCommentLength (qualityControl config) < String.length comment ->
  validated config comment
  = Some (JS.substring0 (maxCommentLength (qualityControl config)) comment).
Proof.
  intros Hmin Hmax. unfold validated.
  apply Nat.ltb_ge in Hmin. apply Nat.ltb_lt in Hmax.
  rewrite Hmin, Hmax. reflexivity.
Qed.

Lemma validated_too_short (comment : string) :
  String.length comment < minCommentLength (qualityControl config) ->
  validated config comment = None.
Proof.
  intros H. unfold validated. apply Nat.ltb_lt in H. now rewrite H.
Qed.

(** C2.  Let [comment] be the completion text after [trim()].  When
    [comment] is shorter than [minCommentLength] (as it is whenever the
    untrimmed text is), [generateComment] returns null.  When it is longer
    than [maxCommentLength] (and not already rejected as too short, which
    cannot happen when the minimum is at most the maximum),
    [generateComment] returns the prefix of [comment] of exactly
    [maxCommentLength] characters: the comment is not dropped. *)
Theorem generateComment_length_checks
  (post : RedditPost) (comments : list RedditComment) (t : Trace)
  (content : string) :
  completion W t post comments = CompletionText content ->
  (String.length (JS.trim content) < minCommentLength (qualityControl config) ->
   generateComment W config post comments t
   = (Ok None, t ++ [EvCompletion (Post.id post)]))
  /\ (String.length content < minCommentLength (qualityControl config) ->
      generateComment W config post comments t
      = (Ok None, t ++ [EvCompletion (Post.id post)]))
  /\ (minCommentLength (qualityControl config) <= String.length (JS.trim content) ->
      maxCommentLength (qualityControl config) < String.length (JS.trim content) ->
      exists kept rest,
        generateComment W config post comments t
        = (Ok (Some kept), t ++ [EvCompletion (Post.id post)])
        /\ String.length kept = maxCommentLength (qualityControl config)
        /\ JS.trim content = String.append kept rest).
Proof.
  intros Hc. rewrite generateComment_run, Hc. repeat split.
  - intros Hshort. now rewrite validated_too_short.
  - intros Hshort. rewrite validated_too_short; [reflexivity|].
    pose proof (trim_length content). lia.
  - intros Hmin Hmax. rewrite validated_too_long by assumption.
    destruct (substring0_is_prefix (maxCommentLength (qualityControl config))
                (JS.trim content)) as [rest Hrest].
    exists (JS.substring0 (maxCommentLength (qualityControl config)) (JS.trim content)),
      rest.
    repeat split; [|exact Hrest].
    apply substring0_length. lia.
Qed.

(** *** One candidate *)

Lemma usable_iff (comment : RedditComment) :
  usable comment = true <->
  exists text,
    Comment.body comment = Some text
    /\ text <> "" /\ text <> "[deleted]" /\ 10 < String.length text.
Proof.
  unfold usable. destruct (Comment.body comment) as [text|].
  - rewrite !Bool.andb_true_iff, Bool.negb_true_iff, String.eqb_neq, Nat.ltb_lt.
    split.
    + intros [[Ht Hd] Hl]. exists text. repeat split; try assumption.
      intros ->. discriminate Ht.
    + intros (text' & [= <-] & Hne & Hd & Hl). repeat split; try assumption.
      destruct text; [contradiction|reflexivity].
  - split; [discriminate|]. intros (text & H & _). discriminate H.
Qed.

(** C3.  A fetched comment is usable exactly when it has a non-empty body
    other than ["[deleted]"] and longer than 10 characters.  When the
    fetch of a candidate's comments yields fewer than 3 usable comments,
    [processPost] returns false (the candidate is skipped) and the only
    request it has issued is the fetch of the comments: the completion
    endpoint is not called. *)
Theorem processPost_skips_before_generation :
  (forall comment,
      usable comment = true <->
      exists text,
        Comment.body comment = Some text
        /\ text <> "" /\ text <> "[deleted]" /\ 10 < String.length text)
  /\ forall (post : RedditPost) (t : Trace) (children : list RedditComment),
       reddit_comments W t (Post.id post) = Some children ->
       List.length (filter usable children) < 3 ->
       processPost W config post t
       = (Ok false, t ++ [EvFetchComments (Post.id post)]).
Proof.
  split; [exact usable_iff|].
  intros post t children Hc Hfew.
  unfold processPost, try_catch, bind.
  rewrite fetchPostComments_run, Hc.
  apply Nat.ltb_lt in Hfew. rewrite Hfew. reflexivity.
Qed.

Lemma Recorded_quiet (ext : Trace) :
  Forall (fun e => Spec.is_insert e = false) ext -> Spec.Recorded ext.
Proof.
  induction 1; constructor; assumption.
Qed.

Lemma Recorded_app (a b : Trace) :
  Spec.Recorded a -> Spec.Recorded b -> Spec.Recorded (a ++ b).
Proof.
  induction 1; intros Hb; cbn [app].
  - assumption.
  - apply Spec.Recorded_other; auto.
  - apply Spec.Recorded_pair; auto.
Qed.

Lemma processPost_trace (post : RedditPost) (t : Trace) :
  exists b ext,
    processPost W config post t = (Ok b, t ++ ext)
    /\ Spec.Recorded ext
    /\ (dryRunMode (qualityControl config) = true -> Forall Spec.quiet ext).
Proof.
  unfold processPost, try_catch, bind.
  rewrite fetchPostComments_run.
  destruct (reddit_comments W t (Post.id post)) as [children|];
    [|destruct (reddit_comments_failure W t (Post.id post)); close_trace].
  destruct (List.length (filter usable children) <? 3); [close_trace|].
  rewrite generateComment_run.
  match goal with
  | |- context [match ?g with Some _ => _ | None => ret false end] =>
      destruct g as [text|]
  end; [|close_trace].
  destruct (JS.truthy text); cbn [negb]; [|close_trace].
  rewrite postComment_run.
  destruct (dryRunMode (qualityControl config)) eqn:Hmode; cbn [negb].
  - rewrite pace_run.
    destruct (0 <? delayBetweenComments (commenting config)); close_trace.
  - match goal with
    | |- context [EvSubmit ?p ?c ?a] =>
        generalize a; intros answer; destruct (Spec.confirmed answer) eqn:Hconf
    end; cbn [negb]; [|close_trace].
    match goal with
    | |- context [recordComment W ?p ?t'] =>
        destruct (recordComment_run p t') as [recorded Hrec]; rewrite Hrec
    end.
    destruct recorded; cbn [negb]; [|close_trace].
    rewrite pace_run.
    destruct (0 <? delayBetweenComments (commenting config)); close_trace.
Qed.

(** [processPost] handles every exception itself. *)
Lemma processPost_never_throws (post : RedditPost) (t : Trace) :
  exists b, fst (processPost W config post t) = Ok b.
Proof.
  destruct (processPost_trace post t) as (b & ext & H & _).
  exists b. now rewrite H.
Qed.

(** *** The loop over the candidates *)

Lemma process_each_trace (candidates : list RedditPost) :
  forall (result : CommenterResult) (t : Trace),
  exists result' ext,
    process_each W config candidates result t = (Ok result', t ++ ext)
    /\ Spec.Recorded ext
    /\ (dryRunMode (qualityControl config) = true -> Forall Spec.quiet ext)
    /\ errors result' = errors result
    /\ processed result' = processed result + List.length candidates
    /\ commented result' + skipped result'
       = commented result + skipped result + List.length candidates.
Proof.
  induction candidates as [|post more IH]; intros result t.
  - exists result, []. cbn. rewrite app_nil_r.
    repeat split; try constructor; lia.
  - cbn [process_each]. unfold try_catch, bind.
    destruct (processPost_trace post t) as (b & ext & Hp & Hrec & Hq).
    rewrite Hp.
    destruct b; [destruct (dryRunMode (qualityControl config))|];
      cbn [negb ret];
      match goal with
      | |- context [process_each W config more ?r (t ++ ext)] =>
          destruct (IH r (t ++ ext))
            as (result' & ext' & Hrun & Hrec' & Hq' & He & Hn & Hc)
      end;
      exists result', (ext ++ ext');
      rewrite Hrun, app_assoc;
      (split; [reflexivity|]);
      (split; [now apply Recorded_app|]);
      (split; [intros Hd; apply Forall_app; auto|]);
      cbn in He, Hn, Hc; cbn [List.length]; lia.
Qed.

Lemma fetchHotPosts_run (t : Trace) :
  fetchHotPosts W t
  = (match reddit_hot W t with
     | Some posts => Ok posts
     | None => Throw "HTTP error"
     end, t ++ [EvFetchHot]).
Proof.
  unfold fetchHotPosts, try_catch, bind, request.
  destruct (reddit_hot W t); reflexivity.
Qed.

(** *** The candidate filter *)

Lemma keep_not_commented_trace (imagePosts : list RedditPost) :
  forall t : Trace,
  exists kept,
    keep_not_commented W imagePosts t
    = (Ok kept, t ++ map (fun p => EvLookup (Post.id p)) imagePosts)
    /\ incl kept imagePosts.
Proof.
  induction imagePosts as [|post more IH]; intros t.
  - exists []. cbn. rewrite app_nil_r. split; [reflexivity|apply incl_refl].
  - cbn [keep_not_commented map]. unfold bind.
    rewrite checkAlreadyCommented_run.
    destruct (IH (t ++ [EvLookup (Post.id post)])) as (kept & Hk & Hincl).
    rewrite Hk, <- app_assoc. cbn [app ret].
    eexists; split; [reflexivity|].
    destruct (Spec.reports_record _); cbn [negb].
    + now apply incl_tl.
    + apply incl_cons; [now left|now apply incl_tl].
Qed.

(** When the storage answers the lookups of a pass consistently,
    [has_record] telling for which posts it reports a row, the loop keeps
    the posts without one. *)
Lemma keep_not_commented_stable (has_record : string -> bool)
  (imagePosts : list RedditPost) :
  (forall t redditPostId,
      Spec.reports_record (storage_lookup W t redditPostId)
      = has_record redditPostId) ->
  forall t : Trace,
    keep_not_commented W imagePosts t
    = (Ok (filter (fun p => negb (has_record (Post.id p))) imagePosts),
       t ++ map (fun p => EvLookup (Post.id p)) imagePosts).
Proof.
  intros Hstable.
  induction imagePosts as [|post more IH]; intros t.
  - cbn. now rewrite app_nil_r.
  - cbn [keep_not_commented map filter]. unfold bind.
    rewrite checkAlreadyCommented_run, IH, Hstable, <- app_assoc.
    cbn [app ret]. destruct (has_record (Post.id post)); reflexivity.
Qed.

Lemma In_firstn_In {A} (n : nat) (l : list A) (a : A) :
  In a (firstn n l) -> In a l.
Proof.
  revert l; induction n as [|n IH]; intros [|b l] H; cbn in *; try contradiction.
  destruct H as [H|H]; [now left|right; now apply IH].
Qed.

(** A post for which the storage reports a row at every lookup is not
    kept, however the storage answers for the other posts. *)
Lemma keep_not_commented_excludes (p : RedditPost) :
  (forall t', Spec.reports_record (storage_lookup W t' (Post.id p)) = true) ->
  forall (imagePosts : list RedditPost) (t : Trace) (kept : list RedditPost),
    fst (keep_not_commented W imagePosts t) = Ok kept -> ~ In p kept.
Proof.
  intros Hrow. induction imagePosts as [|post more IH]; intros t kept.
  - cbn. intros [= <-] [].
  - cbn [keep_not_commented]. unfold bind.
    rewrite checkAlreadyCommented_run.
    destruct (keep_not_commented_trace more (t ++ [EvLookup (Post.id post)]))
      as (kept' & Hk & _).
    pose proof (IH (t ++ [EvLookup (Post.id post)]) kept') as Hrest.
    rewrite Hk in Hrest |- *. cbn [fst ret] in Hrest |- *.
    specialize (Hrest eq_refl).
    destruct (Spec.reports_record (storage_lookup W t (Post.id post))) eqn:Hpost;
      cbn [negb]; intros [= <-]; [exact Hrest|].
    intros [-> | Hin]; [|now apply Hrest].
    rewrite Hrow in Hpost. discriminate Hpost.
Qed.

(** C4, as amended.  Let [mentions_media] be any test that tells the
    links in which a known image file extension (in any letter case), a
    known image-hosting domain or the gallery path occurs, anywhere in the
    text of the link, and let [has_record] tell for which posts the
    storage reports a CommentRecord during the pass.
    [filterCandidatePosts] returns what the four predicates applied in
    their order (minimum comment count; age, at the time the filter reads
    the clock, within [maxPostAgeHours]; not a video and such a link; no
    CommentRecord) leave of the fetched posts, cut to the first
    [maxCommentsPerRun]; and it looks up exactly the posts that passed the
    first three predicates, in their order.  A post for which the storage
    reports a CommentRecord is in no result, whatever its other attributes
    (and whatever the storage answers for the other posts). *)
Theorem filterCandidatePosts_refines_selectCandidates
  (posts : list RedditPost) (t : Trace) :
  (forall mentions_media has_record : string -> bool,
      (forall link, mentions_media link = true <-> Spec.MentionsMedia link) ->
      (forall t' redditPostId,
          Spec.reports_record (storage_lookup W t' redditPostId)
          = has_record redditPostId) ->
      filterCandidatePosts W config posts t
      = (Ok (Spec.selectCandidates config (clock W t / 1000)
               mentions_media has_record posts),
         t ++ map (fun p => EvLookup (Post.id p))
                  (Spec.looked_up config (clock W t / 1000)
                     mentions_media posts)))
  /\ (forall (p : RedditPost) (kept : list RedditPost),
        (forall t', Spec.reports_record (storage_lookup W t' (Post.id p)) = true) ->
        fst (filterCandidatePosts W config posts t) = Ok kept ->
        ~ In p kept).
Proof.
  split.
  - intros mentions_media has_record Hmedia Hstable.
    unfold filterCandidatePosts, bind. cbv zeta.
    rewrite (keep_not_commented_stable has_record) by exact Hstable.
    unfold Spec.selectCandidates, Spec.looked_up, JS.slice0. cbv zeta.
    assert (Hsame : forall p : RedditPost,
               negb (Post.is_video p) && isImageUrl (Post.url p)
               = negb (Post.is_video p) && mentions_media (Post.url p)).
    { intros p. f_equal.
      apply (decides_same Spec.MentionsMedia); [exact isImageUrl_iff|exact Hmedia]. }
    rewrite (filter_ext _ _ Hsame). reflexivity.
  - intros p kept Hrow. unfold filterCandidatePosts, bind. cbv zeta.
    match goal with
    | |- context [keep_not_commented W ?l t] =>
        pose proof (keep_not_commented_excludes p Hrow l t) as Hex;
        destruct (keep_not_commented_trace l t) as (kept' & Hk & _)
    end.
    rewrite Hk in Hex |- *. cbn [fst ret] in Hex |- *.
    intros [= <-] Hin. apply In_firstn_In in Hin.
    exact (Hex kept' eq_refl Hin).
Qed.

Lemma lookups_quiet (l : list RedditPost) :
  Forall Spec.quiet (map (fun p => EvLookup (Post.id p)) l)
  /\ Forall (fun e => Spec.is_insert e = false)
            (map (fun p => EvLookup (Post.id p)) l).
Proof.
  induction l as [|p l [IH1 IH2]]; split; cbn; constructor;
    try assumption; repeat split.
Qed.

Lemma filterCandidatePosts_trace (posts : list RedditPost) (t : Trace) :
  exists kept,
    filterCandidatePosts W config posts t
    = (Ok kept,
       t ++ map (fun p => EvLookup (Post.id p))
                (Spec.looked_up config (clock W t / 1000) isImageUrl posts))
    /\ incl kept posts.
Proof.
  unfold filterCandidatePosts, bind. cbv zeta.
  match goal with
  | |- context [keep_not_commented W ?l t] =>
      destruct (keep_not_commented_trace l t) as (kept & Hk & Hincl);
      rewrite Hk
  end.
  eexists; split; [reflexivity|].
  intros p Hp. apply In_firstn_In in Hp. apply Hincl in Hp.
  repeat (apply filter_In in Hp; destruct Hp as [Hp _]). exact Hp.
Qed.

(** *** A whole run *)

Lemma run_trace (t : Trace) :
  exists r ext,
    runIntelligentCommenter W config t = (r, t ++ ext)
    /\ Spec.Recorded ext
    /\ (dryRunMode (qualityControl config) = true -> Forall Spec.quiet ext)
    /\ (forall result, r = Ok result -> errors result = 0).
Proof.
  unfold runIntelligentCommenter, try_catch, bind.
  rewrite fetchHotPosts_run.
  destruct (reddit_hot W t) as [hotPosts|].
  2:{ eexists _, _; split; [reflexivity|].
      repeat split; try discriminate; repeat constructor. }
  destruct (filterCandidatePosts_trace hotPosts (t ++ [EvFetchHot]))
    as (candidates & Hf & _).
  rewrite Hf.
  destruct (lookups_quiet
              (Spec.looked_up config (clock W (t ++ [EvFetchHot]) / 1000)
                 isImageUrl hotPosts))
    as [Hq Hi].
  set (lookups := map _ _) in *.
  destruct (List.length candidates =? 0).
  - exists (Ok (count_api_calls 1 fresh_result)), (EvFetchHot :: lookups).
    cbn [ret]. rewrite <- app_assoc. repeat split.
    + apply Spec.Recorded_other; [reflexivity|now apply Recorded_quiet].
    + intros _. constructor; [repeat split|exact Hq].
    + intros result [= <-]. reflexivity.
  - destruct (process_each_trace candidates (count_api_calls 1 fresh_result)
                ((t ++ [EvFetchHot]) ++ lookups))
      as (result' & ext & Hrun & Hrec & Hquiet & He & _).
    rewrite Hrun.
    exists (Ok result'), ((EvFetchHot :: lookups) ++ ext).
    rewrite <- !app_assoc. repeat split.
    + cbn [app]. apply Spec.Recorded_other; [reflexivity|].
      apply Recorded_app; [now apply Recorded_quiet|exact Hrec].
    + intros Hd. cbn [app]. constructor; [repeat split|].
      apply Forall_app; auto.
    + intros result [= <-]. exact He.
Qed.

Lemma Recorded_sound (ext : Trace) :
  Spec.Recorded ext ->
  forall before redditPostId after,
    ext = before ++ EvInsert redditPostId :: after ->
    exists earlier commentText answer,
      before = earlier ++ [EvSubmit redditPostId commentText answer]
      /\ Spec.confirmed answer = true.
Proof.
  induction 1 as [|e t He Ht IH|postId commentText answer t Hc Ht IH];
    intros before redditPostId after Heq.
  - destruct before; discriminate Heq.
  - destruct before as [|e' before]; cbn in Heq.
    + injection Heq as -> _. discriminate He.
    + injection Heq as <- Heq.
      destruct (IH _ _ _ Heq) as (earlier & text & a & -> & Ha).
      exists (e :: earlier), text, a. split; [reflexivity|exact Ha].
  - destruct before as [|e1 [|e2 before]]; cbn in Heq.
    + discriminate Heq.
    + injection Heq as <- <- _.
      exists [], commentText, answer. split; [reflexivity|exact Hc].
    + injection Heq as <- <- Heq.
      destruct (IH _ _ _ Heq) as (earlier & text & a & -> & Ha).
      exists (EvSubmit postId commentText answer :: EvInsert postId :: earlier),
        text, a.
      split; [reflexivity|exact Ha].
Qed.

(** C5.  In every run, from any trace [t] and in any world: whenever the
    run asks the storage to insert a CommentRecord for a post, the request
    issued just before it is the submission of a comment to that post, and
    Reddit's answer to it is one [RedditOAuthManager.postComment] takes for
    a success.  No insert happens before its submission or without one. *)
Theorem record_only_after_confirmed_submission (t : Trace) :
  exists ext,
    snd (runIntelligentCommenter W config t) = t ++ ext
    /\ forall before redditPostId after,
         ext = before ++ EvInsert redditPostId :: after ->
         exists earlier commentText answer,
           before = earlier ++ [EvSubmit redditPostId commentText answer]
           /\ Spec.confirmed answer = true.
Proof.
  destruct (run_trace t) as (r & ext & Hrun & Hrec & _).
  exists ext. rewrite Hrun. split; [reflexivity|].
  now apply Recorded_sound.
Qed.


(** *** Failures *)

(** A run never counts an error: whatever goes wrong with a candidate is
    caught inside [processPost], which answers false, and the candidate is
    counted as skipped. *)
Lemma run_counts_no_error (t : Trace) (result : CommenterResult) :
  fst (runIntelligentCommenter W config t) = Ok result -> errors result = 0.
Proof.
  destruct (run_trace t) as (r & ext & Hrun & _ & _ & He).
  rewrite Hrun. cbn [fst]. apply He.
Qed.

(** The loop goes through every candidate, whatever happens to each. *)
Lemma process_each_visits_all (candidates : list RedditPost)
  (result : CommenterResult) (t : Trace) :
  exists result',
    fst (process_each W config candidates result t) = Ok result'
    /\ processed result' = processed result + List.length candidates
    /\ errors result' = errors result.
Proof.
  destruct (process_each_trace candidates result t)
    as (result' & ext & Hrun & _ & _ & He & Hn & _).
  exists result'. rewrite Hrun. auto.
Qed.

(** A candidate whose comments cannot be fetched is answered false; the
    comments request is in the trace unless the OAuth manager had no
    access token to send it with. *)
Lemma processPost_fetch_failure (post : RedditPost) (t : Trace) :
  reddit_comments W t (Post.id post) = None ->
  processPost W config post t
  = (Ok false,
     t ++ match reddit_comments_failure W t (Post.id post) with
          | NoAccessToken => []
          | RequestFailed => [EvFetchComments (Post.id post)]
          end).
Proof.
  intros H. unfold processPost, try_catch, bind.
  rewrite fetchPostComments_run, H.
  destruct (reddit_comments_failure W t (Post.id post)); reflexivity.
Qed.

(** When the hot posts cannot be fetched, the run throws. *)
Lemma run_aborts_without_hot_posts (t : Trace) :
  reddit_hot W t = None ->
  runIntelligentCommenter W config t = (Throw "HTTP error", t ++ [EvFetchHot]).
Proof.
  intros H. unfold runIntelligentCommenter, try_catch, bind.
  now rewrite fetchHotPosts_run, H.
Qed.

End CommenterFacts.

(** ** The properties on the small world *)

Section ScenarioFacts.
Import Commenter.

Lemma generateComment_length_checks_witness :
  exists kept rest,
    generateComment (Scenario.world false Scenario.reply_long_blacklisted)
      (Scenario.config0 false) Scenario.p2 Scenario.three_remarks []
    = (Ok (Some kept), [EvCompletion "p2"])
    /\ String.length kept = 40
    /\ JS.trim Scenario.reply_long_blacklisted = String.append kept rest.
Proof.
  apply (proj2 (proj2 (generateComment_length_checks
                  (Scenario.world false Scenario.reply_long_blacklisted)
                  (Scenario.config0 false) Scenario.p2 Scenario.three_remarks []
                  Scenario.reply_long_blacklisted eq_refl))).
  - apply Nat.leb_le. reflexivity.
  - apply Nat.ltb_lt. reflexivity.
Defined.

Lemma processPost_skips_before_generation_witness :
  processPost Scenario.world_few (Scenario.config0 false) Scenario.p2 []
  = (Ok false, [EvFetchComments "p2"]).
Proof.
  apply (proj2 (processPost_skips_before_generation
                  Scenario.world_few (Scenario.config0 false))
               Scenario.p2 [] Scenario.few_remarks).
  - reflexivity.
  - apply Nat.ltb_lt. reflexivity.
Defined.

Lemma filterCandidatePosts_refines_selectCandidates_witness :
  filterCandidatePosts (Scenario.world true Scenario.reply_fine)
    (Scenario.config0 false)
    [Scenario.p1; Scenario.p3; Scenario.p5; Scenario.p2; Scenario.p6;
     Scenario.p4; Scenario.p7] []
  = (Ok [Scenario.p1; Scenario.p7],
     [EvLookup "p1"; EvLookup "p2"; EvLookup "p7"]).
Proof.
  assert (Hstable :
            forall (t' : Trace) (redditPostId : string),
              Spec.reports_record
                (storage_lookup (Scenario.world true Scenario.reply_fine)
                   t' redditPostId)
              = String.eqb redditPostId "p2").
  { intros t' redditPostId. cbn.
    destruct (String.eqb redditPostId "p2"); reflexivity. }
  exact (proj1 (filterCandidatePosts_refines_selectCandidates
                  (Scenario.world true Scenario.reply_fine)
                  (Scenario.config0 false)
                  [Scenario.p1; Scenario.p3; Scenario.p5; Scenario.p2;
                   Scenario.p6; Scenario.p4; Scenario.p7] [])
               isImageUrl
               (fun redditPostId => String.eqb redditPostId "p2")
               isImageUrl_iff Hstable).
Defined.

(** C4, as stated, fails.  The link of this post is no image or gallery
    URL: neither its host nor its path has anything of an image or of a
    gallery, and only its query string spells the name of an image host.
    The filter keeps the post all the same, where the predicates of the
    specification, with any test of image or gallery URLs for the media
    type, leave nothing. *)
Lemma filterCandidatePosts_keeps_query_match :
  ~ Spec.ImageOrGalleryUrl (Post.url Scenario.query_post)
  /\ filterCandidatePosts (Scenario.world false Scenario.reply_fine)
       (Scenario.config0 false) [Scenario.query_post] []
     = (Ok [Scenario.query_post], [EvLookup "q"])
  /\ (forall image_or_gallery : string -> bool,
        (forall link,
            image_or_gallery link = true <-> Spec.ImageOrGalleryUrl link) ->
        Spec.selectCandidates (Scenario.config0 false)
          (clock (Scenario.world false Scenario.reply_fine) [] / 1000)
          image_or_gallery (fun _ => false) [Scenario.query_post]
        = []).
Proof.
  assert (Hnot : ~ Spec.ImageOrGalleryUrl (Post.url Scenario.query_post)).
  { unfold Spec.ImageOrGalleryUrl. intros H. apply isImageUrl_iff in H.
    discriminate H. }
  split; [exact Hnot|]. split; [reflexivity|].
  intros image_or_gallery Hdec.
  destruct (image_or_gallery (Post.url Scenario.query_post)) eqn:Hq.
  - apply Hdec in Hq. destruct (Hnot Hq).
  - unfold Spec.selectCandidates. cbn in Hq |- *. rewrite Hq. reflexivity.
Qed.


(** C1 (the code departs from it).  A completion longer than
    [maxCommentLength] that contains a blacklisted keyword is not answered
    with null: [generateComment] returns its first [maxCommentLength]
    characters without consulting the blacklist, and here the returned
    text still contains the keyword. *)
Theorem long_blacklisted_comment_is_returned :
  let config := Scenario.config0 false in
  let comment := JS.trim Scenario.reply_long_blacklisted in
  maxCommentLength (qualityControl config) < String.length comment
  /\ JS.some (fun keyword =>
                JS.includes (JS.toLowerCase comment) (JS.toLowerCase keyword))
             (blacklistedKeywords (qualityControl config)) = true
  /\ generateComment (Scenario.world false Scenario.reply_long_blacklisted)
       config Scenario.p2 Scenario.three_remarks []
     = (Ok (Some "Nao e SPAM, mas visite o meu perfil para"),
        [EvCompletion "p2"])
  /\ JS.includes (JS.toLowerCase "Nao e SPAM, mas visite o meu perfil para")
                 (JS.toLowerCase "spam") = true.
Proof.
  cbv zeta. repeat split. apply Nat.ltb_lt. reflexivity.
Qed.

(** C9 (the code departs from it).  In this run the comments of the first
    candidate, [p1], cannot be fetched and the second candidate, [p2], goes
    through.  The run goes on to [p2] after the failure, but the failure is
    counted in [skipped]: [errors] stays 0. *)
Theorem failed_candidate_is_counted_as_skipped :
  let W := Scenario.world false Scenario.reply_fine in
  reddit_comments W [EvFetchHot; EvLookup "p1"; EvLookup "p2"] "p1" = None
  /\ fst (runIntelligentCommenter W (Scenario.config0 false) [])
     = Ok {| processed := 2; commented := 1; skipped := 1; errors := 0;
             apiCallsUsed := 6 |}
  /\ snd (runIntelligentCommenter W (Scenario.config0 false) [])
     = [EvFetchHot; EvLookup "p1"; EvLookup "p2";
        EvFetchComments "p1";
        EvFetchComments "p2"; EvCompletion "p2";
        EvSubmit "p2" "Que foto bonita, parabens!" Scenario.submit_ok;
        EvInsert "p2"; EvDelay 30].
Proof.
  cbv zeta. repeat split.
Qed.

(** Where the OAuth manager has no access token, the candidates are
    processed and skipped without any comments request. *)
Example run_signed_out :
  processPost ScenarioDown.world_signed_out (Scenario.config0 false) Scenario.p2 []
  = (Ok false, [])
  /\ runIntelligentCommenter ScenarioDown.world_signed_out (Scenario.config0 false) []
     = (Ok {| processed := 2; commented := 0; skipped := 2; errors := 0;
              apiCallsUsed := 5 |},
        [EvFetchHot; EvLookup "p1"; EvLookup "p2"]).
Proof. split; reflexivity. Qed.

(** A run that cannot fetch the hot posts throws and does nothing else. *)
Example run_offline :
  runIntelligentCommenter Scenario.world_offline (Scenario.config0 false) []
  = (Throw "HTTP error", [EvFetchHot]).
Proof. reflexivity. Qed.

Example includes_ex : JS.includes "a.JPG?x=1" ".jpg" = false
  /\ JS.includes (JS.toLowerCase "a.JPG?x=1") ".jpg" = true.
Proof. split; reflexivity. Qed.

Example trim_ex :
  JS.trim (String.append "  ok then " (String (ascii_of_nat 10) "")) = "ok then".
Proof. reflexivity. Qed.

Example replace_amp_ex :
  JS.replace_amp "https://p.redd.it/a.jpg?w=1&amp;h=2&amp;amp;s=3"
  = "https://p.redd.it/a.jpg?w=1&h=2&amp;s=3".
Proof. reflexivity. Qed.

Example isImageUrl_ex :
  Resolver.isImageUrl "https://i.redd.it/abc" = true
  /\ Resolver.isImageUrl "https://example.org/pic.PNG" = true
  /\ Resolver.isImageUrl "https://www.reddit.com/gallery/1abcde" = false
  /\ Commenter.isImageUrl "https://www.reddit.com/gallery/1abcde" = true.
Proof. repeat split. Qed.

(** Within the length bounds a blacklisted keyword is caught, in any
    letter case. *)
Example validated_ex :
  validated (Scenario.config0 false) "Isso aqui e um BOT, cuidado" = None
  /\ validated (Scenario.config0 false) "Gostei bastante da foto"
     = Some "Gostei bastante da foto"
  /\ validated (Scenario.config0 false) "curto" = None.
Proof. repeat split. Qed.

Example albumMatch_ex :
  Resolver.albumMatch "https://imgur.com/gallery/aB3x9?tags" = Some "aB3x9"
  /\ Resolver.albumMatch "https://imgur.com/a/" = None.
Proof. split; reflexivity. Qed.

End ScenarioFacts.

(* ================================================================== *)
(** * Further properties of the sources *)

(** ** Imgur albums *)

Section AlbumFacts.
Import Resolver.

Lemma strip_prefix_sound (p text r : string) :
  JS.strip_prefix p text = Some r -> text = String.append p r.
Proof.
  revert text; induction p as [|a p IH]; intros text H; cbn in *.
  - now injection H as ->.
  - destruct text as [|b text]; [discriminate|].
    destruct (Ascii.eqb_spec a b) as [->|]; [|discriminate].
    cbn. f_equal. now apply IH.
Qed.

Lemma take_alnum_prefix (text : string) :
  Obs.all_alnum (JS.take_alnum text) = true
  /\ exists rest, text = String.append (JS.take_alnum text) rest
                  /\ JS.take_alnum rest = EmptyString.
Proof.
  induction text as [|c text [IHa (rest & IHr & IHs)]]; cbn.
  - split; [reflexivity|]. exists EmptyString. split; reflexivity.
  - destruct (JS.is_alnum c) eqn:Hc; cbn.
    + rewrite Hc, IHa. split; [reflexivity|].
      exists rest. split; [now rewrite <- IHr|exact IHs].
    + split; [reflexivity|]. exists (String c text).
      split; [reflexivity|]. cbn. now rewrite Hc.
Qed.

Lemma album_id_here_sound (text id : string) :
  album_id_here text = Some id ->
  JS.truthy id = true /\ Obs.all_alnum id = true
  /\ exists kind rest,
       (kind = "a" \/ kind = "gallery")
       /\ JS.take_alnum rest = EmptyString
       /\ text = String.append "imgur.com/"
                   (String.append kind (String.append "/" (String.append id rest))).
Proof.
  unfold album_id_here.
  destruct (JS.strip_prefix "imgur.com/" text) as [r|] eqn:Hr; [|discriminate].
  apply strip_prefix_sound in Hr. subst text.
  assert (Hbranch : forall kind,
             match JS.strip_prefix kind r with
             | Some r1 =>
                 match JS.strip_prefix "/" r1 with
                 | Some r2 =>
                     if JS.truthy (JS.take_alnum r2)
                     then Some (JS.take_alnum r2) else None
                 | None => None
                 end
             | None => None
             end = Some id ->
             JS.truthy id = true /\ Obs.all_alnum id = true
             /\ exists rest,
                  JS.take_alnum rest = EmptyString
                  /\ r = String.append kind
                           (String.append "/" (String.append id rest))).
  { intros kind H.
    destruct (JS.strip_prefix kind r) as [r1|] eqn:H1; [|discriminate].
    destruct (JS.strip_prefix "/" r1) as [r2|] eqn:H2; [|discriminate].
    destruct (JS.truthy (JS.take_alnum r2)) eqn:Ht; [|discriminate].
    injection H as <-.
    apply strip_prefix_sound in H1, H2. subst r r1.
    destruct (take_alnum_prefix r2) as [Ha (rest & Hrest & Hstop)].
    repeat split; try assumption.
    exists rest. split; [exact Hstop|]. now rewrite <- Hrest. }
  intros H.
  match type of H with
  | match ?first with _ => _ end = _ => destruct first as [id'|] eqn:Hfirst
  end.
  - injection H as ->.
    destruct (Hbranch "a" Hfirst) as (Ht & Ha & rest & Hstop & ->).
    repeat split; try assumption. exists "a", rest. auto.
  - destruct (Hbranch "gallery" H) as (Ht & Ha & rest & Hstop & ->).
    repeat split; try assumption. exists "gallery", rest. auto.
Qed.

(** The album identifier [extractImageFromImgurAlbum] takes from a link
    really stands in the link: it is a non-empty run of letters and
    digits, it directly follows [imgur.com/a/] or [imgur.com/gallery/],
    it is not followed by a further letter or digit, and the link is one
    that [isImgurAlbumUrl] accepts. *)
Theorem albumMatch_sound (link id : string) :
  albumMatch link = Some id ->
  JS.truthy id = true /\ Obs.all_alnum id = true
  /\ (exists pre kind rest,
         (kind = "a" \/ kind = "gallery")
         /\ JS.take_alnum rest = EmptyString
         /\ link = String.append pre
                     (String.append "imgur.com/"
                        (String.append kind
                           (String.append "/" (String.append id rest)))))
  /\ isImgurAlbumUrl link = true.
Proof.
  intros H.
  assert (Hshape :
            JS.truthy id = true /\ Obs.all_alnum id = true
            /\ exists pre kind rest,
                 (kind = "a" \/ kind = "gallery")
                 /\ JS.take_alnum rest = EmptyString
                 /\ link = String.append pre
                             (String.append "imgur.com/"
                                (String.append kind
                                   (String.append "/" (String.append id rest))))).
  { induction link as [|c link IH].
    - cbn in H. discriminate H.
    - cbn [albumMatch] in H.
      destruct (album_id_here (String c link)) as [id'|] eqn:Hhere.
      + injection H as ->.
        destruct (album_id_here_sound _ _ Hhere)
          as (Ht & Ha & kind & rest & Hk & Hstop & Heq).
        repeat split; try assumption.
        exists EmptyString, kind, rest. auto.
      + destruct (IH H) as (Ht & Ha & pre & kind & rest & Hk & Hstop & Heq).
        repeat split; try assumption.
        exists (String c pre), kind, rest.
        split; [exact Hk|]. split; [exact Hstop|].
        rewrite Heq at 1. reflexivity. }
  destruct Hshape as (Ht & Ha & pre & kind & rest & Hk & Hstop & Heq).
  repeat split; try assumption.
  - exists pre, kind, rest. auto.
  - unfold isImgurAlbumUrl. subst link.
    destruct Hk as [-> | ->].
    + change (String.append "imgur.com/"
                (String.append "a" (String.append "/" (String.append id rest))))
        with (String.append "imgur.com/a/" (String.append id rest)).
      now rewrite includes_mid.
    + change (String.append "imgur.com/"
                (String.append "gallery"
                   (String.append "/" (String.append id rest))))
        with (String.append "imgur.com/gallery/" (String.append id rest)).
      rewrite includes_mid. apply Bool.orb_true_r.
Qed.

End AlbumFacts.

(** ** Probing *)

Section ProbeFacts.
Import Resolver.
Variable net : Net.

Lemma probe_once (testUrl : string) (t : list NetEvent) :
  try_catch
    (response <- fetch_head net testUrl 2000 ;;
     ret (fst response && is_image_type (snd response)))
    (fun _ => ret false) t
  = (Ok (Spec.finds_image (net t testUrl)),
     t ++ [EvHead testUrl 2000 (net t testUrl)]).
Proof.
  unfold fetch_head, try_catch, bind, request.
  destruct (net t testUrl) as [|[|] [ct|]]; reflexivity.
Qed.

Lemma probe_each_spec (urls : list string) :
  forall t : list NetEvent,
  exists r ext,
    probe_each net urls t = (Ok r, t ++ ext)
    /\ map Obs.probe_of ext
       = map (fun link => (link, 2000)) (firstn (List.length ext) urls)
    /\ match r with
       | Some hit =>
           In hit urls
           /\ exists before e,
                ext = before ++ [e]
                /\ Obs.probe_of e = (hit, 2000)
                /\ Obs.probe_hit e = true
                /\ Forall (fun e' => Obs.probe_hit e' = false) before
       | None =>
           List.length ext = List.length urls
           /\ Forall (fun e' => Obs.probe_hit e' = false) ext
       end.
Proof.
  induction urls as [|testUrl more IH]; intros t.
  - exists None, []. cbn. rewrite app_nil_r. repeat split. constructor.
  - cbn [probe_each]. unfold bind at 1. rewrite probe_once.
    destruct (Spec.finds_image (net t testUrl)) eqn:Hhit.
    + exists (Some testUrl), [EvHead testUrl 2000 (net t testUrl)].
      repeat split; [now left|].
      exists [], (EvHead testUrl 2000 (net t testUrl)).
      repeat split; [exact Hhit|constructor].
    + destruct (IH (t ++ [EvHead testUrl 2000 (net t testUrl)]))
        as (r & ext & Hrun & Hmap & Hr).
      exists r, (EvHead testUrl 2000 (net t testUrl) :: ext).
      rewrite Hrun, <- app_assoc. split; [reflexivity|].
      split; [cbn; now rewrite Hmap|].
      destruct r as [hit|].
      * destruct Hr as (Hin & before & e & -> & He & Hh & Hb).
        split; [now right|].
        exists (EvHead testUrl 2000 (net t testUrl) :: before), e.
        repeat split; try assumption. constructor; assumption.
      * destruct Hr as [Hlen Hall]. split; [cbn; now rewrite Hlen|].
        constructor; assumption.
Qed.

Lemma extractImageFromImgurAlbum_probes (link : string) (t : list NetEvent) :
  exists r ext,
    extractImageFromImgurAlbum net link t = (Ok r, t ++ ext)
    /\ match albumMatch link with
       | None => r = None /\ ext = []
       | Some albumId =>
           map Obs.probe_of ext
           = map (fun guess => (guess, 2000))
                 (firstn (List.length ext) (Obs.possibleUrls albumId))
           /\ match r with
              | Some hit =>
                  In hit (Obs.possibleUrls albumId)
                  /\ exists before e,
                       ext = before ++ [e]
                       /\ Obs.probe_of e = (hit, 2000)
                       /\ Obs.probe_hit e = true
                       /\ Forall (fun e' => Obs.probe_hit e' = false) before
              | None =>
                  List.length ext = 3
                  /\ Forall (fun e' => Obs.probe_hit e' = false) ext
              end
       end.
Proof.
  unfold extractImageFromImgurAlbum, try_catch.
  destruct (albumMatch link) as [albumId|].
  - destruct (probe_each_spec (Obs.possibleUrls albumId) t)
      as (r & ext & Hrun & Hmap & Hr).
    unfold Obs.possibleUrls in Hrun at 1. cbv zeta in Hrun. rewrite Hrun.
    exists r, ext. repeat split; assumption.
  - exists None, []. cbn. rewrite app_nil_r. repeat split.
Qed.

(** [extractImageFromImgurAlbum] never throws.  A link without an album
    identifier is answered null without any probe.  Otherwise the guessed
    links are probed in the order [.jpg], [.png], [.gif] with a 2 second
    timeout each; a probe that fails or times out only rejects its own
    link, and the first link whose probe finds an image is returned, the
    later ones not being probed; null is returned after three misses. *)
Theorem imgur_album_first_hit_wins (link : string) (t : list NetEvent) :
  exists r ext,
    extractImageFromImgurAlbum net link t = (Ok r, t ++ ext)
    /\ match albumMatch link with
       | None => r = None /\ ext = []
       | Some albumId =>
           map Obs.probe_of ext
           = map (fun guess => (guess, 2000))
                 (firstn (List.length ext) (Obs.possibleUrls albumId))
           /\ match r with
              | Some hit =>
                  In hit (Obs.possibleUrls albumId)
                  /\ exists before e,
                       ext = before ++ [e]
                       /\ Obs.probe_of e = (hit, 2000)
                       /\ Obs.probe_hit e = true
                       /\ Forall (fun e' => Obs.probe_hit e' = false) before
              | None =>
                  List.length ext = 3
                  /\ Forall (fun e' => Obs.probe_hit e' = false) ext
              end
       end.
Proof. apply extractImageFromImgurAlbum_probes. Qed.

End ProbeFacts.

(** ** The two variants of the resolver *)

Section VariantFacts.
Import Resolver.
Variable net : Net.

Lemma possibleUrls_truthy (albumId hit : string) :
  In hit (Obs.possibleUrls albumId) -> JS.truthy hit = true.
Proof.
  intros [<-|[<-|[<-|[]]]]; reflexivity.
Qed.

Lemma lookup_media_In (key : string) (mm : list (string * MediaItem))
  (entry : MediaItem) :
  lookup_media key mm = Some entry -> In (key, entry) mm.
Proof.
  induction mm as [|[k v] mm IH]; cbn; [discriminate|].
  destruct (String.eqb_spec k key) as [->|].
  - intros [= ->]. now left.
  - intros H. right. now apply IH.
Qed.

Lemma media_url_source (entry : option MediaItem) (link : string) :
  media_url entry = Some link ->
  JS.truthy link = true
  /\ exists src,
       entry = Some {| s := Some {| u := Some src |} |}
       /\ link = JS.replace_amp src.
Proof.
  destruct entry as [[[[[src|]]|]]|]; cbn; try discriminate.
  destruct (JS.truthy src) eqn:Hs; [|discriminate].
  intros [= <-]. split; [now apply replace_amp_truthy|].
  exists src. split; reflexivity.
Qed.

(** Whatever [extractFirstImageFromGallery] returns is the decoded source
    of an entry of the post's [media_metadata], and is not empty; a post
    not flagged as gallery, or without [media_metadata], or with an empty
    one, yields null. *)
Theorem gallery_url_comes_from_media_metadata (post : RawPost) :
  (forall link,
      extractFirstImageFromGallery post = Some link ->
      JS.truthy link = true
      /\ is_gallery post = true
      /\ exists mm key src,
           media_metadata post = Some mm
           /\ In (key, {| s := Some {| u := Some src |} |}) mm
           /\ link = JS.replace_amp src)
  /\ (is_gallery post = false \/ media_metadata post = None
      \/ media_metadata post = Some [] ->
      extractFirstImageFromGallery post = None).
Proof.
  unfold extractFirstImageFromGallery. split.
  - intros link.
    destruct (is_gallery post); [|discriminate].
    destruct (media_metadata post) as [mm|]; [|discriminate].
    assert (Hfrom : forall key,
               media_url (lookup_media key mm) = Some link ->
               JS.truthy link = true /\ true = true
               /\ exists mm' key' src,
                    Some mm = Some mm'
                    /\ In (key', {| s := Some {| u := Some src |} |}) mm'
                    /\ link = JS.replace_amp src).
    { intros key H. apply media_url_source in H as (Ht & src & Hl & ->).
      repeat split; try assumption.
      exists mm, key, src. repeat split. now apply lookup_media_In. }
    match goal with
    | |- match ?ordered with _ => _ end = _ -> _ =>
        destruct ordered as [imageUrl|] eqn:Hord
    end.
    + intros [= ->].
      destruct (gallery_data post) as [[[[|firstItem more]|]]|];
        try discriminate Hord.
      exact (Hfrom _ Hord).
    + destruct (map fst mm) as [|firstMediaId more]; [discriminate|].
      apply Hfrom.
  - intros [H|[H|H]]; rewrite H; try reflexivity.
    + destruct (is_gallery post); reflexivity.
    + destruct (is_gallery post); [|reflexivity].
      destruct (gallery_data post) as [[[[|firstItem more]|]]|]; reflexivity.
Qed.

Lemma comprehensive_validateImage_cases (post : RawPost) (t : list NetEvent) :
  exists r ext,
    ComprehensiveCrawler.validateImage net post t = (Ok r, t ++ ext)
    /\ List.length ext <= 3
    /\ Forall (fun e => snd (Obs.probe_of e) = 2000) ext
    /\ (if Types.isValid r
        then Types.reason r = None /\ JS.truthy (Types.url r) = true
        else exists why, Types.reason r = Some why).
Proof.
  assert (Hquiet : forall r,
             (if Types.isValid r
              then Types.reason r = None /\ JS.truthy (Types.url r) = true
              else exists why, Types.reason r = Some why) ->
             exists r' ext,
               (Ok r, t) = (Ok r', t ++ ext)
               /\ List.length ext <= 3
               /\ Forall (fun e => snd (Obs.probe_of e) = 2000) ext
               /\ (if Types.isValid r'
                   then Types.reason r' = None /\ JS.truthy (Types.url r') = true
                   else exists why, Types.reason r' = Some why)).
  { intros r Hr. exists r, []. rewrite app_nil_r. repeat split.
    - cbn. lia.
    - constructor.
    - exact Hr. }
  unfold ComprehensiveCrawler.validateImage.
  destruct (url post) as [post_url|];
    [|apply Hquiet; cbn; eauto].
  destruct (JS.truthy post_url) eqn:Hu; cbn [negb];
    [|apply Hquiet; cbn; eauto].
  destruct (is_video post); [apply Hquiet; cbn; eauto|].
  destruct (isImageUrl post_url); [apply Hquiet; cbn; auto|].
  destruct (isGalleryUrl post_url).
  { destruct (extractFirstImageFromGallery post) as [firstImage|];
      [destruct (JS.truthy firstImage) eqn:Hf|];
      apply Hquiet; cbn; eauto. }
  destruct (isImgurAlbumUrl post_url); [|apply Hquiet; cbn; eauto].
  unfold bind.
  destruct (extractImageFromImgurAlbum_probes net post_url t)
    as (r & ext & Hrun & Hspec).
  rewrite Hrun.
  assert (Hlen : List.length ext <= 3
                 /\ Forall (fun e => snd (Obs.probe_of e) = 2000) ext
                 /\ forall hit, r = Some hit -> JS.truthy hit = true).
  { destruct (albumMatch post_url) as [albumId|].
    - destruct Hspec as [Hmap Hr].
      assert (Hl : List.length ext <= 3).
      { apply (f_equal (@List.length _)) in Hmap.
        rewrite !length_map, length_firstn in Hmap. cbn in Hmap. lia. }
      split; [exact Hl|]. split.
      + apply Forall_forall. intros e He.
        apply (in_map Obs.probe_of) in He. rewrite Hmap in He.
        apply in_map_iff in He as (guess & <- & _). reflexivity.
      + intros hit ->. destruct Hr as [Hin _].
        now apply (possibleUrls_truthy albumId).
    - destruct Hspec as [-> ->]. repeat split.
      + cbn. lia.
      + constructor.
      + discriminate. }
  destruct Hlen as (Hl & Hto & Hhit).
  destruct r as [hit|].
  - rewrite (Hhit hit eq_refl).
    exists (valid hit), ext. repeat split; try assumption.
    now apply Hhit.
  - eexists _, ext. repeat split; try assumption. cbn. eauto.
Qed.

(** [validateImage] of the comprehensive crawler never throws, issues at
    most three probes, all with the 2 second timeout, and answers either
    valid, with a non-empty link and no reason, or invalid with a reason. *)
Theorem comprehensive_validateImage_outcome (post : RawPost) (t : list NetEvent) :
  exists r ext,
    ComprehensiveCrawler.validateImage net post t = (Ok r, t ++ ext)
    /\ List.length ext <= 3
    /\ Forall (fun e => snd (Obs.probe_of e) = 2000) ext
    /\ (if Types.isValid r
        then Types.reason r = None /\ JS.truthy (Types.url r) = true
        else exists why, Types.reason r = Some why).
Proof. apply comprehensive_validateImage_cases. Qed.

Lemma crawler_validateImage_cases
  (post : RawPost) (t : list NetEvent) :
  exists r ext,
    ComprehensiveCrawler.validateImage net post t = (Ok r, t ++ ext)
    /\ if Types.isValid r
       then
         let answer := net (t ++ ext) (Types.url r) in
         exists r',
           Crawler.validateImage net post t
           = (Ok r', (t ++ ext) ++ [EvHead (Types.url r) 5000 answer])
           /\ Types.url r' = Types.url r
           /\ Types.isValid r' = Spec.finds_image answer
       else Crawler.validateImage net post t = (Ok r, t ++ ext).
Proof.
  assert (Hsame : forall r,
             Types.isValid r = false ->
             Crawler.validateImage net post t = (Ok r, t) ->
             ComprehensiveCrawler.validateImage net post t = (Ok r, t) ->
             exists r0 ext,
               ComprehensiveCrawler.validateImage net post t = (Ok r0, t ++ ext)
               /\ if Types.isValid r0
                  then
                    let answer := net (t ++ ext) (Types.url r0) in
                    exists r',
                      Crawler.validateImage net post t
                      = (Ok r', (t ++ ext) ++ [EvHead (Types.url r0) 5000 answer])
                      /\ Types.url r' = Types.url r0
                      /\ Types.isValid r' = Spec.finds_image answer
                  else Crawler.validateImage net post t = (Ok r0, t ++ ext)).
  { intros r Hr Hc Hv. exists r, []. rewrite app_nil_r, Hr. auto. }
  unfold ComprehensiveCrawler.validateImage, Crawler.validateImage in *.
  destruct (url post) as [post_url|]; [|now apply (Hsame (invalid "" "No URL found"))].
  destruct (JS.truthy post_url) eqn:Hu; cbn [negb] in *;
    [|now apply (Hsame (invalid "" "No URL found"))].
  destruct (is_video post);
    [now apply (Hsame (invalid post_url "Post is a video"))|].
  destruct (isImageUrl post_url).
  { exists (valid post_url), []. rewrite app_nil_r. split; [reflexivity|].
    cbn [Types.isValid valid Types.url]. cbv zeta.
    apply check_resolved_run. exact Hu. }
  destruct (isGalleryUrl post_url).
  { destruct (extractFirstImageFromGallery post) as [firstImage|];
      cbn [JS.truthy_opt negb] in *;
      [destruct (JS.truthy firstImage) eqn:Hf; cbn [negb] in *|].
    - exists (valid firstImage), []. rewrite app_nil_r. split; [reflexivity|].
      cbn [Types.isValid valid Types.url]. cbv zeta.
      apply check_resolved_run. exact Hf.
    - now apply (Hsame (invalid post_url "Could not extract image from gallery")).
    - now apply (Hsame (invalid post_url "Could not extract image from gallery")). }
  destruct (isImgurAlbumUrl post_url);
    [|now apply (Hsame (invalid post_url "URL is not an image or gallery"))].
  clear Hsame. unfold bind.
  destruct (extractImageFromImgurAlbum_probes net post_url t) as (r & ext & Hrun & Hspec).
  rewrite Hrun.
  destruct r as [hit|]; cbn [JS.truthy_opt negb].
  - assert (Hh : JS.truthy hit = true).
    { destruct (albumMatch post_url) as [albumId|].
      - destruct Hspec as [_ [Hin _]]. now apply (possibleUrls_truthy albumId).
      - destruct Hspec as [[=] _]. }
    rewrite Hh. cbn [negb].
    exists (valid hit), ext. split; [reflexivity|].
    cbn [Types.isValid valid Types.url]. cbv zeta.
    apply check_resolved_run. exact Hh.
  - exists (invalid post_url "Could not extract image from Imgur album"), ext.
    split; reflexivity.
Qed.

(** [validateImage] of [crawler.ts] is the comprehensive crawler's with
    one more step.  Where the comprehensive crawler answers invalid,
    [crawler.ts] gives the same answer after the same probes.  Where it
    answers valid with a link, [crawler.ts] issues one further probe, of
    that link and with a 5 second timeout, and answers with that link,
    valid exactly when the probe finds an image. *)
Theorem crawler_validateImage_adds_availability_probe
  (post : RawPost) (t : list NetEvent) :
  exists r ext,
    ComprehensiveCrawler.validateImage net post t = (Ok r, t ++ ext)
    /\ if Types.isValid r
       then
         let answer := net (t ++ ext) (Types.url r) in
         exists r',
           Crawler.validateImage net post t
           = (Ok r', (t ++ ext) ++ [EvHead (Types.url r) 5000 answer])
           /\ Types.url r' = Types.url r
           /\ Types.isValid r' = Spec.finds_image answer
       else Crawler.validateImage net post t = (Ok r, t ++ ext).
Proof. apply crawler_validateImage_cases. Qed.

End VariantFacts.

Section ResolverWitnesses.
Import Resolver.

Lemma albumMatch_sound_witness :
  JS.truthy "aB3x9" = true /\ Obs.all_alnum "aB3x9" = true
  /\ (exists pre kind rest,
         (kind = "a" \/ kind = "gallery")
         /\ JS.take_alnum rest = EmptyString
         /\ "https://imgur.com/gallery/aB3x9?tags"
            = String.append pre
                (String.append "imgur.com/"
                   (String.append kind
                      (String.append "/" (String.append "aB3x9" rest)))))
  /\ isImgurAlbumUrl "https://imgur.com/gallery/aB3x9?tags" = true.
Proof.
  apply (albumMatch_sound "https://imgur.com/gallery/aB3x9?tags" "aB3x9").
  reflexivity.
Defined.

End ResolverWitnesses.

(** ** The commenter, further *)

Section CommenterMore.
Import Commenter.
Variable W : World.
Variable config : CommenterConfig.

(** [generateComment] never throws and issues exactly one request.  A text
    it returns is a prefix of the trimmed completion no longer than
    [maxCommentLength]; the completion was not shorter than
    [minCommentLength], and neither is the returned text when the minimum
    is at most the maximum; and a returned text shorter than the maximum
    was not cut and holds no blacklisted keyword. *)
Theorem generateComment_returns_bounded_text
  (post : RedditPost) (comments : list RedditComment) (t : Trace) :
  exists r,
    generateComment W config post comments t
    = (Ok r, t ++ [EvCompletion (Post.id post)])
    /\ forall kept,
         r = Some kept ->
         String.length kept <= maxCommentLength (qualityControl config)
         /\ (exists content rest,
                completion W t post comments = CompletionText content
                /\ JS.trim content = String.append kept rest
                /\ minCommentLength (qualityControl config)
                   <= String.length (JS.trim content))
         /\ (minCommentLength (qualityControl config)
             <= maxCommentLength (qualityControl config) ->
             minCommentLength (qualityControl config) <= String.length kept)
         /\ (String.length kept < maxCommentLength (qualityControl config) ->
             Seen.blacklisted config kept = false).
Proof.
  rewrite generateComment_run. eexists. split; [reflexivity|].
  intros kept.
  destruct (completion W t post comments) as [|content]; [discriminate|].
  unfold validated.
  destruct (String.length (JS.trim content)
            <? minCommentLength (qualityControl config)) eqn:Hmin;
    [discriminate|].
  apply Nat.ltb_ge in Hmin.
  destruct (maxCommentLength (qualityControl config)
            <? String.length (JS.trim content)) eqn:Hmax.
  - apply Nat.ltb_lt in Hmax. intros [= <-].
    rewrite substring0_length by lia.
    destruct (substring0_is_prefix (maxCommentLength (qualityControl config))
                (JS.trim content)) as [rest Hrest].
    repeat split; try lia.
    exists content, rest. auto.
  - apply Nat.ltb_ge in Hmax.
    match goal with
    | |- (if ?b then _ else _) = _ -> _ => destruct b eqn:Hbl
    end; [discriminate|].
    intros [= <-]. repeat split; try lia.
    + exists content, EmptyString. repeat split; try assumption.
      clear. induction (JS.trim content) as [|c s IH]; cbn; congruence.
    + intros _. exact Hbl.
Qed.

Lemma filterCandidatePosts_kept (posts : list RedditPost) (t : Trace) :
  exists kept looked,
    filterCandidatePosts W config posts t
    = (Ok kept, t ++ map (fun p => EvLookup (Post.id p)) looked)
    /\ List.length kept <= maxCommentsPerRun (commenting config)
    /\ List.length looked <= List.length posts
    /\ forall p,
         In p kept ->
         In p posts
         /\ minCommentCount (postSelection config) <= Post.num_comments p
         /\ (clock W t / 1000 - Post.created_utc p
             <= maxPostAgeHours (postSelection config) * 3600)%Z
         /\ Post.is_video p = false
         /\ Spec.MentionsMedia (Post.url p).
Proof.
  unfold filterCandidatePosts, bind. cbv zeta.
  match goal with
  | |- context [keep_not_commented W ?l t] =>
      destruct (keep_not_commented_trace W l t) as (kept & Hk & Hincl);
      rewrite Hk; exists (JS.slice0 (maxCommentsPerRun (commenting config)) kept), l
  end.
  split; [reflexivity|]. split; [apply firstn_le_length|]. split.
  - eapply Nat.le_trans; [apply filter_length_le|].
    eapply Nat.le_trans; apply filter_length_le.
  - intros p Hp. apply In_firstn_In, Hincl in Hp.
    apply filter_In in Hp as [Hp Hmedia].
    apply filter_In in Hp as [Hp Hage].
    apply filter_In in Hp as [Hp Hcount].
    apply Bool.andb_true_iff in Hmedia as [Hv Hi].
    apply Bool.negb_true_iff in Hv.
    apply Nat.leb_le in Hcount. apply Z.leb_le in Hage.
    apply isImageUrl_iff in Hi.
    repeat split; assumption.
Qed.

(** [filterCandidatePosts] never throws, in any world.  It returns at most
    [maxCommentsPerRun] posts; each of them is one of the fetched posts,
    has at least [minCommentCount] comments, is no older than
    [maxPostAgeHours] at the time the filter reads the clock, is not a
    video, and its link mentions an image or a gallery: somewhere in the
    text of the link stands one of [.jpg], [.jpeg], [.png], [.gif],
    [.webp] (in any letter case), one of [i.redd.it], [i.imgur.com],
    [preview.redd.it], or [reddit.com/gallery/].  The filter looks up no
    more posts than were fetched. *)
Theorem filterCandidatePosts_bounds (posts : list RedditPost) (t : Trace) :
  exists kept looked,
    filterCandidatePosts W config posts t
    = (Ok kept, t ++ map (fun p => EvLookup (Post.id p)) looked)
    /\ List.length kept <= maxCommentsPerRun (commenting config)
    /\ List.length looked <= List.length posts
    /\ forall p,
         In p kept ->
         In p posts
         /\ minCommentCount (postSelection config) <= Post.num_comments p
         /\ (clock W t / 1000 - Post.created_utc p
             <= maxPostAgeHours (postSelection config) * 3600)%Z
         /\ Post.is_video p = false
         /\ Spec.MentionsMedia (Post.url p).
Proof. apply filterCandidatePosts_kept. Qed.

Lemma processPost_shape (post : RedditPost) (t : Trace) :
  exists b ext,
    processPost W config post t = (Ok b, t ++ ext)
    /\ Seen.PostShape config (Post.id post) b ext
    /\ (Seen.signed_in W -> ext <> []).
Proof.
  unfold processPost, try_catch, bind.
  rewrite fetchPostComments_run.
  destruct (reddit_comments W t (Post.id post)) as [children|] eqn:Hfetch.
  2:{ destruct (reddit_comments_failure W t (Post.id post)) eqn:Hwhy;
        eexists _, _; (split; [reflexivity|split; [constructor|]]).
      - intros Hin. rewrite (Hin _ _ Hfetch) in Hwhy. discriminate Hwhy.
      - discriminate. }
  destruct (List.length (filter usable children) <? 3).
  { eexists _, _. split; [reflexivity|split; [constructor|discriminate]]. }
  rewrite generateComment_run.
  match goal with
  | |- context [match ?g with Some _ => _ | None => ret false end] =>
      destruct g as [text|]
  end.
  2:{ eexists _, _. rewrite <- app_assoc.
      split; [reflexivity|split; [constructor|discriminate]]. }
  destruct (JS.truthy text); cbn [negb].
  2:{ eexists _, _. rewrite <- app_assoc.
      split; [reflexivity|split; [constructor|discriminate]]. }
  rewrite postComment_run.
  destruct (dryRunMode (qualityControl config)) eqn:Hmode; cbn [negb].
  - rewrite pace_run. fold (Seen.pacing config).
    eexists _, _. rewrite <- !app_assoc. split; [reflexivity|].
    split; [apply (Seen.Printed config (Post.id post) text Hmode)|discriminate].
  - match goal with
    | |- context [EvSubmit ?p ?c ?a] =>
        generalize a; intros answer; destruct (Spec.confirmed answer) eqn:Hconf
    end; cbn [negb].
    2:{ eexists _, _. rewrite <- !app_assoc. split; [reflexivity|].
        split; [now apply Seen.Refused|discriminate]. }
    match goal with
    | |- context [recordComment W ?p ?t'] =>
        destruct (recordComment_run W p t') as [recorded Hrec]; rewrite Hrec
    end.
    destruct recorded; cbn [negb].
    + rewrite pace_run. fold (Seen.pacing config).
      eexists _, _. rewrite <- !app_assoc. split; [reflexivity|].
      split; [now apply (Seen.Commented config (Post.id post) text answer)
             |discriminate].
    + eexists _, _. rewrite <- !app_assoc. split; [reflexivity|].
      split; [now apply Seen.Unrecorded|discriminate].
Qed.

Lemma count_app (kind : Event -> bool) (a b : Trace) :
  Seen.count kind (a ++ b) = Seen.count kind a + Seen.count kind b.
Proof.
  unfold Seen.count. now rewrite filter_app, length_app.
Qed.

Lemma pacing_counts :
  Seen.count Spec.is_submit (Seen.pacing config) = 0
  /\ Seen.count Spec.is_insert (Seen.pacing config) = 0
  /\ Seen.count Seen.is_print (Seen.pacing config) = 0
  /\ Seen.count Seen.is_fetch_comments (Seen.pacing config) = 0
  /\ Seen.count Spec.is_completion (Seen.pacing config) = 0.
Proof.
  unfold Seen.pacing.
  destruct (0 <? delayBetweenComments (commenting config)); repeat split.
Qed.

(** The counts of one candidate. *)
Lemma PostShape_counts (postId : string) (b : bool) (ext : Trace) :
  Seen.PostShape config postId b ext ->
  (Seen.count Seen.is_fetch_comments ext <= 1
   /\ (ext <> [] -> Seen.count Seen.is_fetch_comments ext = 1)
   /\ (b = true -> Seen.count Seen.is_fetch_comments ext = 1))
  /\ Seen.count Spec.is_completion ext <= Seen.count Seen.is_fetch_comments ext
  /\ Seen.count Spec.is_insert ext <= Seen.count Spec.is_submit ext
  /\ Seen.count Spec.is_submit ext + Seen.count Seen.is_print ext
     <= Seen.count Spec.is_completion ext
  /\ (b = true ->
      if dryRunMode (qualityControl config)
      then Seen.count Seen.is_print ext = 1
      else Seen.count Spec.is_insert ext = 1).
Proof.
  destruct pacing_counts as (Hs & Hi & Hp & Hf & Hc).
  destruct 1;
    rewrite ?count_app, ?Hs, ?Hi, ?Hp, ?Hf, ?Hc;
    repeat split; cbn; try lia; try discriminate; try congruence;
    intros _; rewrite ?H; reflexivity.
Qed.

Lemma process_each_accounting (candidates : list RedditPost) :
  forall (result : CommenterResult) (t : Trace),
  exists result' ext k,
    process_each W config candidates result t = (Ok result', t ++ ext)
    /\ (Seen.count Seen.is_fetch_comments ext <= List.length candidates
        /\ (Seen.signed_in W ->
            Seen.count Seen.is_fetch_comments ext = List.length candidates)
        /\ k <= Seen.count Seen.is_fetch_comments ext)
    /\ Seen.count Spec.is_completion ext <= Seen.count Seen.is_fetch_comments ext
    /\ Seen.count Spec.is_insert ext <= Seen.count Spec.is_submit ext
    /\ Seen.count Spec.is_submit ext + Seen.count Seen.is_print ext
       <= Seen.count Spec.is_completion ext
    /\ commented result' = commented result + k
    /\ skipped result' + k = skipped result + List.length candidates
    /\ processed result' = processed result + List.length candidates
    /\ errors result' = errors result
    /\ apiCallsUsed result'
       = apiCallsUsed result + 2 * List.length candidates
         + (if dryRunMode (qualityControl config) then 0 else k)
    /\ k <= (if dryRunMode (qualityControl config)
             then Seen.count Seen.is_print ext
             else Seen.count Spec.is_insert ext).
Proof.
  induction candidates as [|post more IH]; intros result t.
  - exists result, [], 0. cbn. rewrite app_nil_r.
    destruct (dryRunMode (qualityControl config)); repeat split; lia.
  - cbn [process_each]. unfold try_catch, bind.
    destruct (processPost_shape post t) as (b & ext & Hp & Hshape & Hsent).
    apply PostShape_counts in Hshape as ((Hf & Hfs & Hfb) & Hc & Hi & Hs & Hb).
    assert (Hfs' : Seen.signed_in W -> Seen.count Seen.is_fetch_comments ext = 1).
    { intros Hin. apply Hfs, Hsent, Hin. }
    rewrite Hp.
    destruct b; [destruct (dryRunMode (qualityControl config)) eqn:Hmode|];
      cbn [negb ret];
      match goal with
      | |- context [process_each W config more ?r (t ++ ext)] =>
          destruct (IH r (t ++ ext))
            as (result' & ext' & k & Hrun & (Hf' & Hfs2 & Hfk) & Hc' & Hi' & Hs'
                & Hcm & Hsk & Hpr & Her & Hapi & Hk)
      end;
      rewrite Hrun, <- app_assoc;
      [ exists result', (ext ++ ext'), (S k)
      | exists result', (ext ++ ext'), (S k)
      | exists result', (ext ++ ext'), k ];
      (split; [reflexivity|]);
      rewrite !count_app; cbn [List.length];
      cbn in Hcm, Hsk, Hpr, Her, Hapi;
      try specialize (Hb eq_refl); try specialize (Hfb eq_refl);
      (split;
       [ split; [lia|split; [|lia]];
         intros Hin; specialize (Hfs' Hin); specialize (Hfs2 Hin); lia |]);
      destruct (dryRunMode (qualityControl config));
      try discriminate; repeat split; lia.
Qed.

Lemma lookups_counts (kind : Event -> bool) (l : list RedditPost) :
  (forall redditPostId, kind (EvLookup redditPostId) = false) ->
  Seen.count kind (map (fun p => EvLookup (Post.id p)) l) = 0.
Proof.
  intros Hk. unfold Seen.count.
  induction l as [|p l IH]; cbn; [reflexivity|]. now rewrite Hk.
Qed.

Lemma run_shape (t : Trace) :
  exists r ext,
    runIntelligentCommenter W config t = (r, t ++ ext)
    /\ Seen.count Seen.is_fetch_comments ext <= maxCommentsPerRun (commenting config)
    /\ Seen.count Spec.is_completion ext <= maxCommentsPerRun (commenting config)
    /\ Seen.count Spec.is_insert ext <= Seen.count Spec.is_submit ext
    /\ Seen.count Spec.is_submit ext + Seen.count Seen.is_print ext
       <= maxCommentsPerRun (commenting config)
    /\ forall result,
         r = Ok result ->
         processed result <= maxCommentsPerRun (commenting config)
         /\ commented result + skipped result = processed result
         /\ errors result = 0
         /\ apiCallsUsed result
            = 1 + 2 * processed result
              + (if dryRunMode (qualityControl config) then 0
                 else commented result)
         /\ (Seen.count Seen.is_fetch_comments ext <= processed result
             /\ (Seen.signed_in W ->
                 Seen.count Seen.is_fetch_comments ext = processed result)
             /\ commented result <= Seen.count Seen.is_fetch_comments ext)
         /\ commented result
            <= (if dryRunMode (qualityControl config)
                then Seen.count Seen.is_print ext
                else Seen.count Spec.is_insert ext).
Proof.
  unfold runIntelligentCommenter, try_catch, bind.
  rewrite fetchHotPosts_run.
  destruct (reddit_hot W t) as [hotPosts|].
  2:{ exists (Throw "HTTP error"), [EvFetchHot].
      repeat split; unfold Seen.count; cbn; try lia; discriminate. }
  destruct (filterCandidatePosts_kept hotPosts (t ++ [EvFetchHot]))
    as (candidates & looked & Hf & Hcap & _).
  rewrite Hf.
  set (lookups := map (fun p => EvLookup (Post.id p)) looked).
  assert (Hl : forall kind,
             (forall redditPostId, kind (EvLookup redditPostId) = false) ->
             kind EvFetchHot = false ->
             forall ext,
               Seen.count kind ((EvFetchHot :: lookups) ++ ext)
               = Seen.count kind ext).
  { intros kind Hk Hh ext. rewrite count_app.
    change (EvFetchHot :: lookups) with ([EvFetchHot] ++ lookups).
    rewrite count_app. unfold lookups. rewrite lookups_counts by exact Hk.
    unfold Seen.count. cbn. now rewrite Hh. }
  destruct (List.length candidates =? 0) eqn:Hnone.
  - exists (Ok (count_api_calls 1 fresh_result)), ((EvFetchHot :: lookups) ++ []).
    cbn [ret]. rewrite <- !app_assoc, app_nil_r. split; [reflexivity|].
    rewrite <- (app_nil_r (EvFetchHot :: lookups)).
    rewrite !Hl by reflexivity.
    repeat split; unfold Seen.count; cbn; try lia;
      match goal with H : Ok _ = Ok _ |- _ => injection H as <- end;
      try intros _;
      cbn; destruct (dryRunMode (qualityControl config)); lia.
  - destruct (process_each_accounting candidates (count_api_calls 1 fresh_result)
                ((t ++ [EvFetchHot]) ++ lookups))
      as (result' & ext & k & Hrun & (Hfc & Hfs & Hfk) & Hc & Hi & Hs
          & Hcm & Hsk & Hpr & Her & Hapi & Hk).
    rewrite Hrun.
    exists (Ok result'), ((EvFetchHot :: lookups) ++ ext).
    rewrite <- !app_assoc. split; [reflexivity|].
    rewrite !Hl by reflexivity.
    cbn in Hcm, Hsk, Hpr, Her, Hapi.
    repeat split; try lia;
      match goal with H : Ok _ = Ok _ |- _ => injection H as <- end;
      try (intros Hin; specialize (Hfs Hin));
      destruct (dryRunMode (qualityControl config)); lia.
Qed.

(** A run never issues more comments than [maxCommentsPerRun], printed or
    submitted; it asks for no more completions and fetches no more comment
    threads than that; and it asks for no more records than it has
    submitted comments. *)
Theorem run_respects_comment_cap (t : Trace) :
  exists ext,
    snd (runIntelligentCommenter W config t) = t ++ ext
    /\ Seen.count Spec.is_submit ext + Seen.count Seen.is_print ext
       <= maxCommentsPerRun (commenting config)
    /\ Seen.count Spec.is_completion ext <= maxCommentsPerRun (commenting config)
    /\ Seen.count Seen.is_fetch_comments ext
       <= maxCommentsPerRun (commenting config)
    /\ Seen.count Spec.is_insert ext <= Seen.count Spec.is_submit ext.
Proof.
  destruct (run_shape t) as (r & ext & Hrun & Hf & Hc & Hi & Hs & _).
  exists ext. rewrite Hrun. repeat split; assumption.
Qed.

(** The counters a run returns add up: every candidate processed is
    counted either as commented or as skipped; no more than
    [maxCommentsPerRun] are processed; [apiCallsUsed] is one call for the
    hot posts, two per processed candidate (whether or not its comments
    request went out) and, outside dry-run mode, one per comment.  Against
    the trace: at most one comments request was sent per processed
    candidate, exactly one where the OAuth manager never lacks the access
    token to send it with, and at least one per counted comment; and each
    counted comment has its record request (its print, in dry-run mode) in
    the trace. *)
Theorem run_counters_add_up (t : Trace) (result : CommenterResult) :
  fst (runIntelligentCommenter W config t) = Ok result ->
  processed result <= maxCommentsPerRun (commenting config)
  /\ commented result + skipped result = processed result
  /\ apiCallsUsed result
     = 1 + 2 * processed result
       + (if dryRunMode (qualityControl config) then 0 else commented result)
  /\ exists ext,
       snd (runIntelligentCommenter W config t) = t ++ ext
       /\ Seen.count Seen.is_fetch_comments ext <= processed result
       /\ (Seen.signed_in W ->
           Seen.count Seen.is_fetch_comments ext = processed result)
       /\ commented result <= Seen.count Seen.is_fetch_comments ext
       /\ commented result
          <= (if dryRunMode (qualityControl config)
              then Seen.count Seen.is_print ext
              else Seen.count Spec.is_insert ext).
Proof.
  destruct (run_shape t) as (r & ext & Hrun & _ & _ & _ & _ & Hres).
  rewrite Hrun. cbn [fst snd]. intros ->.
  destruct (Hres result eq_refl) as (Hp & Hc & _ & Hapi & (Hf & Hfs & Hfk) & Hk).
  split; [exact Hp|]. split; [exact Hc|]. split; [exact Hapi|].
  exists ext. auto 6.
Qed.

Lemma PostShape_touches (postId other : string) (b : bool) (ext : Trace) :
  Seen.PostShape config postId b ext ->
  postId <> other ->
  Forall (fun e => Seen.touches other e = false) ext.
Proof.
  intros Hshape Hne. apply String.eqb_neq in Hne.
  assert (Hp : Forall (fun e => Seen.touches other e = false) (Seen.pacing config)).
  { unfold Seen.pacing.
    destruct (0 <? delayBetweenComments (commenting config));
      repeat constructor. }
  destruct Hshape; try apply Forall_app; try split; try exact Hp;
    repeat constructor; exact Hne.
Qed.

Lemma process_each_touches (other : string) (candidates : list RedditPost) :
  (forall p, In p candidates -> Post.id p <> other) ->
  forall (result : CommenterResult) (t : Trace),
  exists result' ext,
    process_each W config candidates result t = (Ok result', t ++ ext)
    /\ Forall (fun e => Seen.touches other e = false) ext.
Proof.
  induction candidates as [|post more IH]; intros Hids result t.
  - exists result, []. cbn. rewrite app_nil_r. split; constructor.
  - cbn [process_each]. unfold try_catch, bind.
    destruct (processPost_shape post t) as (b & ext & Hp & Hshape & _).
    apply (PostShape_touches _ other) in Hshape; [|apply Hids; now left].
    rewrite Hp.
    assert (Hmore : forall p, In p more -> Post.id p <> other).
    { intros p Hin. apply Hids. now right. }
    destruct b; [destruct (dryRunMode (qualityControl config))|];
      cbn [negb ret];
      match goal with
      | |- context [process_each W config more ?r (t ++ ext)] =>
          destruct (IH Hmore r (t ++ ext)) as (result' & ext' & Hrun & Hall)
      end;
      rewrite Hrun, <- app_assoc;
      exists result', (ext ++ ext');
      (split; [reflexivity|apply Forall_app; auto]).
Qed.

(** A post for which the storage reports a CommentRecord at every lookup
    is left alone by the run: its comments are not fetched, no completion
    is asked for it, and nothing is printed, submitted or recorded for it. *)
Theorem run_leaves_commented_post_alone (redditPostId : string) (t : Trace) :
  (forall t',
      Spec.reports_record (storage_lookup W t' redditPostId) = true) ->
  exists ext,
    snd (runIntelligentCommenter W config t) = t ++ ext
    /\ Forall (fun e => Seen.touches redditPostId e = false) ext.
Proof.
  intros Hrow.
  unfold runIntelligentCommenter, try_catch, bind.
  rewrite fetchHotPosts_run.
  destruct (reddit_hot W t) as [hotPosts|].
  2:{ exists [EvFetchHot]. split; [reflexivity|repeat constructor]. }
  unfold filterCandidatePosts, bind. cbv zeta.
  match goal with
  | |- context [keep_not_commented W ?l ?t1] =>
      destruct (keep_not_commented_trace W l t1) as (kept & Hk & _);
      assert (Hids : forall p, In p kept -> Post.id p <> redditPostId);
      [ intros p Hin Heq;
        refine (keep_not_commented_excludes W p _ l t1 kept _ Hin);
        [ intros t'; rewrite Heq; apply Hrow | now rewrite Hk ]
      | rewrite Hk ]
  end.
  cbn [ret].
  set (candidates := JS.slice0 _ kept).
  assert (Hcand : forall p, In p candidates -> Post.id p <> redditPostId).
  { intros p Hin. apply Hids. now apply In_firstn_In in Hin. }
  match goal with
  | |- context [(?a ++ [EvFetchHot]) ++ ?lk] => set (lookups := lk)
  end.
  assert (Hlook : Forall (fun e => Seen.touches redditPostId e = false)
                         (EvFetchHot :: lookups)).
  { constructor; [reflexivity|]. unfold lookups.
    apply Forall_forall. intros e He.
    apply in_map_iff in He as (p & <- & _). reflexivity. }
  destruct (List.length candidates =? 0).
  - exists (EvFetchHot :: lookups). cbn [snd]. rewrite <- app_assoc. auto.
  - destruct (process_each_touches redditPostId candidates Hcand
                (count_api_calls 1 fresh_result) ((t ++ [EvFetchHot]) ++ lookups))
      as (result' & ext & Hrun & Hall).
    rewrite Hrun. exists ((EvFetchHot :: lookups) ++ ext).
    cbn [snd]. rewrite <- !app_assoc. split; [reflexivity|].
    apply Forall_app. auto.
Qed.

(** Outside dry-run mode, when Reddit confirms the submission but the
    storage fails to record it, [processPost] answers false: the comment
    stands on Reddit without a CommentRecord, the candidate is counted as
    skipped (with its two API calls, and not as commented) by the loop
    over the candidates, and the pause after a comment is not taken. *)
Theorem processPost_unrecorded_comment
  (post : RedditPost) (t : Trace)
  (children : list RedditComment) (content text : string) :
  dryRunMode (qualityControl config) = false ->
  reddit_comments W t (Post.id post) = Some children ->
  3 <= List.length (filter usable children) ->
  completion W (t ++ [EvFetchComments (Post.id post)]) post
             (filter usable children)
  = CompletionText content ->
  validated config (JS.trim content) = Some text ->
  JS.truthy text = true ->
  let answer :=
    reddit_submit W
      (t ++ [EvFetchComments (Post.id post); EvCompletion (Post.id post)])
      (Post.id post) text in
  Spec.confirmed answer = true ->
  Seen.stored
    (storage_insert W
       (t ++ [EvFetchComments (Post.id post); EvCompletion (Post.id post);
              EvSubmit (Post.id post) text answer])
       (Post.id post)) = false ->
  processPost W config post t
  = (Ok false,
     t ++ [EvFetchComments (Post.id post); EvCompletion (Post.id post);
           EvSubmit (Post.id post) text answer; EvInsert (Post.id post)])
  /\ forall result : CommenterResult,
       process_each W config [post] result t
       = (Ok (count_skipped (count_api_calls 2 (count_processed result))),
          t ++ [EvFetchComments (Post.id post); EvCompletion (Post.id post);
                EvSubmit (Post.id post) text answer; EvInsert (Post.id post)]).
Proof.
  intros Hdry Hc Hn Hgen Hval Htext answer Hconf Hstore.
  match goal with
  | |- ?run = ?outcome /\ _ => assert (Hpost : run = outcome)
  end;
  [|split; [exact Hpost|];
    intros result; cbn [process_each]; unfold try_catch, bind;
    rewrite Hpost; reflexivity].
  unfold processPost, try_catch, bind.
  rewrite fetchPostComments_run, Hc.
  apply Nat.ltb_ge in Hn. rewrite Hn.
  rewrite generateComment_run, Hgen, Hval, Htext. cbn [negb].
  rewrite postComment_run, Hdry, <- !app_assoc. cbn [app].
  fold answer. rewrite Hconf. cbn [negb].
  unfold recordComment, try_catch, bind, request.
  rewrite <- !app_assoc. cbn [app].
  unfold Seen.stored in Hstore.
  match type of Hstore with
  | match ?ins with _ => _ end = _ =>
      destruct ins as [|data [code|]]
  end; try discriminate; reflexivity.
Qed.

End CommenterMore.

(** ** The OAuth manager's token cache *)

Section SessionFacts.
Import Session.
Variable W : World.
Variable refreshToken : option string.

Lemma refreshAccessToken_spec (s : State) :
  match refreshAccessToken W refreshToken s with
  | (Ok _, s') =>
      exists tokenData,
        JS.truthy_opt refreshToken = true
        /\ token_endpoint W (trace s) = TokenOk tokenData
        /\ trace s' = trace s ++ [EvRefresh (TokenOk tokenData)]
        /\ currentToken s'
           = Some (Cache.cached_from tokenData (now_ms W (trace s')))
  | (Throw _, s') =>
      currentToken s' = currentToken s
      /\ ((JS.truthy_opt refreshToken = false /\ trace s' = trace s)
          \/ (JS.truthy_opt refreshToken = true
              /\ (forall tokenData,
                     token_endpoint W (trace s) <> TokenOk tokenData)
              /\ trace s' = trace s ++ [EvRefresh (token_endpoint W (trace s))]))
  end.
Proof.
  unfold refreshAccessToken.
  destruct (JS.truthy_opt refreshToken) eqn:Hr; cbn [negb].
  - unfold St.bind, request, St.get, St.put, St.throw.
    destruct (token_endpoint W (trace s)) as [|status|tokenData] eqn:He;
      cbn [trace currentToken].
    + split; [reflexivity|]. right. repeat split. discriminate.
    + split; [reflexivity|]. right. repeat split. discriminate.
    + exists tokenData. repeat split.
  - cbn. split; [reflexivity|]. now left.
Qed.

Lemma getAccessToken_cases (s : State) :
  match getAccessToken W refreshToken s with
  | (Ok accessToken, s') =>
      exists token,
        currentToken s' = Some token
        /\ access_token token = accessToken
        /\ ((s' = s /\ still_valid token (now_ms W (trace s)) = true)
            \/ (Cache.stale W s
                /\ JS.truthy_opt refreshToken = true
                /\ exists tokenData,
                     token_endpoint W (trace s) = TokenOk tokenData
                     /\ trace s' = trace s ++ [EvRefresh (TokenOk tokenData)]
                     /\ token = Cache.cached_from tokenData (now_ms W (trace s'))))
  | (Throw _, s') =>
      Cache.stale W s
      /\ currentToken s' = currentToken s
      /\ ((JS.truthy_opt refreshToken = false /\ trace s' = trace s)
          \/ (JS.truthy_opt refreshToken = true
              /\ (forall tokenData,
                     token_endpoint W (trace s) <> TokenOk tokenData)
              /\ trace s' = trace s ++ [EvRefresh (token_endpoint W (trace s))]))
  end.
Proof.
  assert (Hrefresh :
            Cache.stale W s ->
            match
              St.bind (refreshAccessToken W refreshToken)
                (fun _ =>
                   St.bind St.get
                     (fun s' =>
                        match currentToken s' with
                        | None => St.throw "Failed to obtain access token"
                        | Some token => St.ret (access_token token)
                        end)) s
            with
            | (Ok accessToken, s') =>
                exists token,
                  currentToken s' = Some token
                  /\ access_token token = accessToken
                  /\ ((s' = s /\ still_valid token (now_ms W (trace s)) = true)
                      \/ (Cache.stale W s
                          /\ JS.truthy_opt refreshToken = true
                          /\ exists tokenData,
                               token_endpoint W (trace s) = TokenOk tokenData
                               /\ trace s' = trace s ++ [EvRefresh (TokenOk tokenData)]
                               /\ token = Cache.cached_from tokenData
                                            (now_ms W (trace s'))))
            | (Throw _, s') =>
                Cache.stale W s
                /\ currentToken s' = currentToken s
                /\ ((JS.truthy_opt refreshToken = false /\ trace s' = trace s)
                    \/ (JS.truthy_opt refreshToken = true
                        /\ (forall tokenData,
                               token_endpoint W (trace s) <> TokenOk tokenData)
                        /\ trace s' = trace s
                                      ++ [EvRefresh (token_endpoint W (trace s))]))
            end).
  { intros Hstale. unfold St.bind at 1.
    pose proof (refreshAccessToken_spec s) as Hspec.
    destruct (refreshAccessToken W refreshToken s) as [[[]|msg] s1].
    - destruct Hspec as (tokenData & Hr & He & Ht & Hc).
      unfold St.bind, St.get. rewrite Hc. cbn [St.ret].
      eexists. split; [exact Hc|]. split; [reflexivity|].
      right. split; [exact Hstale|]. split; [exact Hr|]. exists tokenData. auto.
    - destruct Hspec as [Hc Hcases]. auto. }
  unfold getAccessToken, St.bind at 1, St.get.
  destruct (currentToken s) as [token|] eqn:Hcur.
  - destruct (still_valid token (now_ms W (trace s))) eqn:Hv.
    + cbn [St.ret]. exists token. repeat split; auto.
    + apply Hrefresh. unfold Cache.stale. now rewrite Hcur.
  - apply Hrefresh. unfold Cache.stale. now rewrite Hcur.
Qed.

(** [getAccessToken] answers with the cached token, without any request,
    as long as the token has more than 60 seconds to live.  Otherwise it
    asks the token endpoint once: on success the new token is cached, with
    its expiry counted from the clock after the answer, and returned; when
    the refresh token is not configured (no request is made then) or the
    endpoint fails, the call throws and the cache is left as it was. *)
Theorem getAccessToken_spec (s : State) :
  match getAccessToken W refreshToken s with
  | (Ok accessToken, s') =>
      exists token,
        currentToken s' = Some token
        /\ access_token token = accessToken
        /\ ((s' = s /\ still_valid token (now_ms W (trace s)) = true)
            \/ (Cache.stale W s
                /\ JS.truthy_opt refreshToken = true
                /\ exists tokenData,
                     token_endpoint W (trace s) = TokenOk tokenData
                     /\ trace s' = trace s ++ [EvRefresh (TokenOk tokenData)]
                     /\ token = Cache.cached_from tokenData (now_ms W (trace s'))))
  | (Throw _, s') =>
      Cache.stale W s
      /\ currentToken s' = currentToken s
      /\ ((JS.truthy_opt refreshToken = false /\ trace s' = trace s)
          \/ (JS.truthy_opt refreshToken = true
              /\ (forall tokenData,
                     token_endpoint W (trace s) <> TokenOk tokenData)
              /\ trace s' = trace s ++ [EvRefresh (token_endpoint W (trace s))]))
  end.
Proof. apply getAccessToken_cases. Qed.

(** [RedditOAuthManager.postComment] never throws.  It asks for at most
    one token refresh and sends at most one comment request, the refresh
    first.  It answers true only when the comment request went out, with
    the access token the manager then holds as bearer, and Reddit's answer
    to it is a success.  When the manager holds no token with more than 60
    seconds to live and the refresh token is not configured, it answers
    false without any request. *)
Theorem session_postComment_spec (postId commentText : string) (s : State) :
  exists b s' refreshes comments,
    postComment W refreshToken postId commentText s = (Ok b, s')
    /\ trace s' = trace s ++ refreshes ++ comments
    /\ List.length refreshes <= 1 /\ List.length comments <= 1
    /\ Forall (fun e => Cache.is_refresh e = true) refreshes
    /\ Forall (fun e => Cache.is_comment e = true) comments
    /\ (b = true ->
        exists bearer answer token,
          comments = [EvComment bearer postId commentText answer]
          /\ Spec.confirmed answer = true
          /\ currentToken s' = Some token
          /\ access_token token = bearer)
    /\ (JS.truthy_opt refreshToken = false -> Cache.stale W s ->
        b = false /\ s' = s).
Proof.
  unfold postComment, St.try_catch, St.bind at 1, makeAuthenticatedRequest,
    St.bind at 1.
  pose proof (getAccessToken_cases s) as Hspec.
  destruct (getAccessToken W refreshToken s) as [[accessToken|msg] s1].
  - destruct Hspec as (token & Hcur & Hacc & Hhow).
    assert (Hpre : exists refreshes,
               trace s1 = trace s ++ refreshes
               /\ List.length refreshes <= 1
               /\ Forall (fun e => Cache.is_refresh e = true) refreshes
               /\ (JS.truthy_opt refreshToken = false -> Cache.stale W s -> False)).
    { destruct Hhow as [[-> Hv] | (Hstale & Hyes & td & He & Ht & _)].
      - exists []. rewrite app_nil_r. repeat split; [cbn; lia|constructor|].
        intros _ Hs. unfold Cache.stale in Hs. rewrite Hcur in Hs. congruence.
      - exists [EvRefresh (TokenOk td)]. repeat split;
          [exact Ht|cbn; lia|repeat constructor|].
        intros Hno _. congruence. }
    destruct Hpre as (refreshes & Ht & Hl & Hall & Hno).
    unfold request.
    set (answer := comment_endpoint W (trace s1) accessToken postId commentText).
    assert (Hshape : forall b,
               (b = true -> Spec.confirmed answer = true) ->
               exists b' s' refreshes' comments,
                 (Ok b, {| currentToken := currentToken s1;
                           trace := trace s1
                                    ++ [EvComment accessToken postId commentText
                                                  answer] |})
                 = (Ok b', s')
                 /\ trace s' = trace s ++ refreshes' ++ comments
                 /\ List.length refreshes' <= 1 /\ List.length comments <= 1
                 /\ Forall (fun e => Cache.is_refresh e = true) refreshes'
                 /\ Forall (fun e => Cache.is_comment e = true) comments
                 /\ (b' = true ->
                     exists bearer answer' token',
                       comments = [EvComment bearer postId commentText answer']
                       /\ Spec.confirmed answer' = true
                       /\ currentToken s' = Some token'
                       /\ access_token token' = bearer)
                 /\ (JS.truthy_opt refreshToken = false -> Cache.stale W s ->
                     b' = false /\ s' = s)).
    { intros b Hb.
      exists b, {| currentToken := currentToken s1;
                   trace := trace s1
                            ++ [EvComment accessToken postId commentText answer] |},
        refreshes, [EvComment accessToken postId commentText answer].
      cbn [trace currentToken]. rewrite Ht, <- app_assoc.
      repeat split; try assumption; try (cbn; lia); try (repeat constructor).
      - intros Htrue. exists accessToken, answer, token. auto.
      - exfalso; eauto.
      - exfalso; eauto. }
    destruct answer as [|status|result] eqn:Hanswer; cbn [St.ret St.throw].
    + apply Hshape. discriminate.
    + apply Hshape. discriminate.
    + destruct (OAuth.has_api_errors result) eqn:E1,
        (OAuth.has_things result) eqn:E2,
        (OAuth.success result) eqn:E3; cbn [St.ret]; apply Hshape;
        intros; try discriminate; unfold Spec.confirmed;
        rewrite E1, E2, ?E3; reflexivity.
  - destruct Hspec as (Hstale & Hcur & Hhow). cbn [St.ret].
    destruct Hhow as [[Hno Ht] | (Hyes & Hfail & Ht)].
    + exists false, s1, [], []. rewrite app_nil_r.
      repeat split; try assumption; try (cbn; lia); try constructor;
        try discriminate.
      destruct s, s1; cbn in *; congruence.
    + exists false, s1, [EvRefresh (token_endpoint W (trace s))], [].
      repeat split; try assumption; try (cbn; lia); try (repeat constructor);
        try discriminate; congruence.
Qed.

End SessionFacts.

(** ** Dates *)

Section DateFacts.

Example toISOString_ex :
  JSDate.toISOString 1700000000000 = Some "2023-11-14T22:13:20.000Z"
  /\ JSDate.toISOString 0 = Some "1970-01-01T00:00:00.000Z"
  /\ JSDate.toISOString (-1) = Some "1969-12-31T23:59:59.999Z"
  /\ JSDate.toISOString 951782400000 = Some "2000-02-29T00:00:00.000Z"
  /\ JSDate.toISOString 253402300799999 = Some "9999-12-31T23:59:59.999Z"
  /\ JSDate.toISOString 253402300800000 = Some "+010000-01-01T00:00:00.000Z"
  /\ JSDate.toISOString (-62167219200000) = Some "0000-01-01T00:00:00.000Z"
  /\ JSDate.toISOString (-62167219200001) = Some "-000001-12-31T23:59:59.999Z"
  /\ JSDate.toISOString 8640000000000000 = Some "+275760-09-13T00:00:00.000Z"
  /\ JSDate.toISOString 8640000000000001 = None.
Proof. repeat split; vm_compute; reflexivity. Qed.

End DateFacts.

(** ** The crawl loops *)

Section CrawlFacts.
Import Crawl.
Variable W : World.

Lemma Checked_app (a b : Trace) :
  Stored.Checked a -> Stored.Checked b -> Stored.Checked (a ++ b).
Proof.
  induction 1; intros Hb; cbn [app].
  - assumption.
  - apply Stored.Checked_other; auto.
  - apply Stored.Checked_pair; auto.
Qed.

Lemma Checked_plain (ext : Trace) :
  Forall (fun e => Stored.is_insert e = false) ext -> Stored.Checked ext.
Proof. induction 1; constructor; assumption. Qed.

Lemma stored_ids_app (a b : Trace) :
  Stored.stored_ids (a ++ b) = Stored.stored_ids a ++ Stored.stored_ids b.
Proof.
  induction a as [|e a IH]; [reflexivity|].
  destruct e; cbn; try exact IH.
  destruct (Seen.stored answer); cbn; now rewrite IH.
Qed.

Lemma stored_ids_plain (ext : Trace) :
  Forall (fun e => Stored.is_insert e = false) ext -> Stored.stored_ids ext = [].
Proof.
  induction 1 as [|e ext He _ IH]; [reflexivity|].
  destruct e; try discriminate He; exact IH.
Qed.

Lemma Grows_refl (s : State) : Stored.Grows W s s [].
Proof.
  repeat split; try constructor; auto. now rewrite app_nil_r.
Qed.

Lemma Grows_trans (s s1 s2 : State) (e1 e2 : Trace) :
  Stored.Grows W s s1 e1 -> Stored.Grows W s1 s2 e2 ->
  Stored.Grows W s s2 (e1 ++ e2).
Proof.
  intros (Ht1 & Hc1 & Hd1 & Hk1) (Ht2 & Hc2 & Hd2 & Hk2).
  repeat split.
  - now rewrite Ht2, Ht1, app_assoc.
  - now apply Checked_app.
  - auto.
  - now apply (Hk1 token) in H as [H _]; [apply (Hk2 token)|].
  - destruct (Hk1 token H H0) as [Ha Hf1].
    destruct (Hk2 token Ha H0) as [_ Hf2].
    apply Forall_app. auto.
Qed.

(** A step that adds requests which are no inserts and respect the held
    token, and leaves the token as it is. *)
Lemma Grows_plain (s s' : State) (ext : Trace) :
  trace s' = trace s ++ ext ->
  accessToken s' = accessToken s ->
  Forall (fun e => Stored.is_insert e = false) ext ->
  (forall token, accessToken s = Some token -> JS.truthy token = true ->
                 Forall (fun e => Stored.uses token e = true) ext) ->
  Stored.Grows W s s' ext.
Proof.
  intros Ht Ha Hp Hu. repeat split.
  - exact Ht.
  - now apply Checked_plain.
  - intros _ Hnd. now rewrite Ht, stored_ids_app, (stored_ids_plain ext Hp), app_nil_r.
  - now rewrite Ha.
  - now apply Hu.
Qed.

Lemma skipn_length_app {A} (l ext : list A) :
  skipn (List.length l) (l ++ ext) = ext.
Proof. induction l as [|a l IH]; [reflexivity|exact IH]. Qed.

Lemma checkPostExists_run (redditId : string) (s : State) :
  checkPostExists W redditId s
  = (Ok (Spec.reports_record (posts_lookup W (trace s) redditId)),
     Stored.extend s [EvExists redditId]).
Proof.
  unfold checkPostExists, St.try_catch, St.bind, request, Stored.extend.
  destruct (posts_lookup W (trace s) redditId) as [|[row|] [code|]];
    cbn; try reflexivity; destruct (String.eqb code "PGRST116"); reflexivity.
Qed.

Lemma insertPost_run (post : Row.Post) (s : State) :
  exists inserted,
    insertPost W post s
    = (Ok inserted,
       Stored.extend s [EvInsertPost post (posts_insert W (trace s) post)])
    /\ (inserted <> None ->
        Seen.stored (posts_insert W (trace s) post) = true).
Proof.
  unfold insertPost, St.try_catch, St.bind, request, Stored.extend.
  destruct (posts_insert W (trace s) post) as [|data [code|]];
    cbn; eexists; split; try reflexivity; congruence.
Qed.

Lemma probing_run {A} (m : Eff.M Resolver.NetEvent A) (s : State)
  (r : Res A) (pext : list Resolver.NetEvent) :
  m (probes (trace s)) = (r, probes (trace s) ++ pext) ->
  probing m s = (r, Stored.extend s (map EvProbe pext)).
Proof.
  intros H. unfold probing. rewrite H, skipn_length_app. reflexivity.
Qed.

Lemma plain_facts (ext : Trace) :
  Forall (fun e => Stored.plain e = true) ext ->
  Forall (fun e => Stored.is_insert e = false) ext
  /\ Stored.count Stored.is_listing ext = 0
  /\ Stored.listed ext = 0
  /\ Stored.stored_ids ext = []
  /\ forall token, Forall (fun e => Stored.uses token e = true) ext.
Proof.
  induction 1 as [|e ext He _ (IH1 & IH2 & IH3 & IH4 & IH5)].
  - repeat split; constructor.
  - destruct e; try discriminate He; repeat split;
      try (constructor; [reflexivity|]); auto.
Qed.

Lemma probes_plain (pext : list Resolver.NetEvent) :
  Forall (fun e => Stored.plain e = true) (map EvProbe pext).
Proof. induction pext; constructor; auto. Qed.

(** What the loop body does with one post.  [validateImage] is either
    variant of the resolver: all that matters here is that it never throws
    and that a link it declares valid is not empty. *)
Lemma handle_post_cases
  (validateImage : Resolver.Net -> Resolver.RawPost
                   -> Eff.M Resolver.NetEvent Types.ImageValidation)
  (post : Listed.Post) (s : State) :
  (forall t, exists r pext,
      validateImage (net W) (Listed.payload post) t = (Ok r, t ++ pext)
      /\ (Types.isValid r = true -> JS.truthy (Types.url r) = true)) ->
  exists o pext tail,
    handle_post W validateImage post s
    = (Ok o, Stored.extend s (map EvProbe pext ++ tail))
    /\ ((tail = [] /\ o = Skipped)
        \/ (tail = [EvExists (Listed.id post)] /\ o <> Inserted)
        \/ (exists row answer,
               tail = [EvExists (Listed.id post); EvInsertPost row answer]
               /\ Spec.reports_record
                    (posts_lookup W (trace s ++ map EvProbe pext) (Listed.id post))
                  = false
               /\ Row.reddit_id row = Listed.id post
               /\ Row.elo row = 1500 /\ Row.wins row = 0 /\ Row.losses row = 0
               /\ JS.truthy (Row.image_url row) = true
               /\ o <> Skipped
               /\ (o = Inserted -> Seen.stored answer = true))).
Proof.
  intros Hv.
  destruct (Hv (probes (trace s))) as (r & pext & Hrun & Hvalid).
  unfold handle_post, St.try_catch, St.bind at 1.
  rewrite (probing_run _ s (Ok r) pext Hrun).
  destruct (Types.isValid r) eqn:Hr; cbn [negb].
  2:{ exists Skipped, pext, []. rewrite app_nil_r. split; [reflexivity|]. now left. }
  unfold St.bind at 1. rewrite checkPostExists_run.
  cbn [Stored.extend trace accessToken].
  destruct (Spec.reports_record
              (posts_lookup W (trace s ++ map EvProbe pext) (Listed.id post)))
    eqn:Hex.
  { exists Skipped, pext, [EvExists (Listed.id post)].
    unfold Stored.extend. cbn [trace accessToken St.ret].
    rewrite <- app_assoc. split; [reflexivity|].
    right. left. split; [reflexivity|discriminate]. }
  unfold St.bind at 1, new_post.
  destruct (JSDate.toISOString (Listed.created_utc post * 1000)) as [created|].
  2:{ exists Failed, pext, [EvExists (Listed.id post)].
      unfold Stored.extend. cbn [trace accessToken St.ret St.throw].
      rewrite <- app_assoc. split; [reflexivity|].
      right. left. split; [reflexivity|discriminate]. }
  cbn [St.ret]. unfold St.bind.
  match goal with
  | |- context [insertPost W ?row ?s1] =>
      destruct (insertPost_run row s1) as (inserted & Hins & Hstored);
      rewrite Hins;
      exists (match inserted with Some _ => Inserted | None => Failed end),
        pext, [EvExists (Listed.id post);
               EvInsertPost row (posts_insert W (trace s1) row)]
  end.
  unfold Stored.extend in *. cbn [trace accessToken] in *.
  rewrite <- !app_assoc. rewrite <- !app_assoc in Hstored. cbn [app] in *.
  split; [destruct inserted; reflexivity|].
  right. right. eexists _, _. split; [reflexivity|].
  repeat split; auto.
  - destruct inserted; discriminate.
  - intros Hi. apply Hstored. destruct inserted; [discriminate|discriminate Hi].
Qed.

Lemma comprehensive_validateImage_sane (post : Resolver.RawPost)
  (t : list Resolver.NetEvent) :
  exists r pext,
    ComprehensiveCrawler.validateImage (net W) post t = (Ok r, t ++ pext)
    /\ (Types.isValid r = true -> JS.truthy (Types.url r) = true).
Proof.
  destruct (comprehensive_validateImage_cases (net W) post t)
    as (r & ext & Hrun & _ & _ & Hr).
  exists r, ext. split; [exact Hrun|].
  intros Hv. rewrite Hv in Hr. apply Hr.
Qed.

Lemma crawler_validateImage_sane (post : Resolver.RawPost)
  (t : list Resolver.NetEvent) :
  exists r pext,
    Crawler.validateImage (net W) post t = (Ok r, t ++ pext)
    /\ (Types.isValid r = true -> JS.truthy (Types.url r) = true).
Proof.
  destruct (comprehensive_validateImage_cases (net W) post t)
    as (r0 & ext0 & Hrun0 & _ & _ & Hr0).
  destruct (crawler_validateImage_cases (net W) post t)
    as (r & ext & Hrun & Hrel).
  rewrite Hrun0 in Hrun. injection Hrun as -> Hext.
  apply app_inv_head in Hext. subst ext0.
  destruct (Types.isValid r) eqn:Hv.
  - cbv zeta in Hrel. destruct Hrel as (r' & Hc & Hu & _).
    exists r', (ext ++ [Resolver.EvHead (Types.url r) 5000
                          (net W (t ++ ext) (Types.url r))]).
    rewrite Hc, app_assoc. split; [reflexivity|].
    intros _. rewrite Hu. apply Hr0.
  - exists r, ext. split; [exact Hrel|]. congruence.
Qed.

Lemma handle_post_grows
  (validateImage : Resolver.Net -> Resolver.RawPost
                   -> Eff.M Resolver.NetEvent Types.ImageValidation)
  (post : Listed.Post) (s : State) :
  (forall t, exists r pext,
      validateImage (net W) (Listed.payload post) t = (Ok r, t ++ pext)
      /\ (Types.isValid r = true -> JS.truthy (Types.url r) = true)) ->
  exists o s' ext,
    handle_post W validateImage post s = (Ok o, s')
    /\ Stored.Grows W s s' ext
    /\ Forall (fun e => Stored.is_listing e = false /\ Stored.is_token e = false) ext
    /\ List.length (Stored.stored_ids ext) <= 1
    /\ (o = Inserted -> List.length (Stored.stored_ids ext) = 1).
Proof.
  intros Hv.
  destruct (handle_post_cases validateImage post s Hv)
    as (o & pext & tail & Hrun & Hcases).
  exists o, (Stored.extend s (map EvProbe pext ++ tail)), (map EvProbe pext ++ tail).
  split; [exact Hrun|].
  destruct (plain_facts _ (probes_plain pext)) as (Hpi & _ & _ & Hps & Hpu).
  assert (Hquiet : Forall (fun e => Stored.is_listing e = false
                                    /\ Stored.is_token e = false)
                          (map EvProbe pext)).
  { clear. induction pext; constructor; auto. }
  destruct Hcases as [[-> ->] | [[-> Ho] | Hins]].
  - rewrite app_nil_r.
    split; [|split; [exact Hquiet|split]].
    + apply Grows_plain; auto.
    + rewrite Hps. cbn. lia.
    + discriminate.
  - split; [|split; [|split]].
    + apply Grows_plain; auto.
      * apply Forall_app. split; [exact Hpi|repeat constructor].
      * intros token _ _. apply Forall_app. split; [apply Hpu|repeat constructor].
    + apply Forall_app. split; [exact Hquiet|repeat constructor].
    + rewrite stored_ids_app, Hps. cbn. lia.
    + intros ->. contradiction.
  - destruct Hins as (row & answer & -> & Hex & Hid & He & Hw & Hl & Hu & Ho & Hst).
    assert (Hids : Stored.stored_ids
                     (map EvProbe pext
                      ++ [EvExists (Listed.id post); EvInsertPost row answer])
                   = if Seen.stored answer then [Listed.id post] else []).
    { rewrite stored_ids_app, Hps. cbn. rewrite Hid.
      destruct (Seen.stored answer); reflexivity. }
    split; [|split; [|split]].
    + unfold Stored.Grows. split; [reflexivity|]. split; [|split].
      * apply Checked_app; [now apply Checked_plain|].
        rewrite <- Hid. apply Stored.Checked_pair; auto. constructor.
      * intros Hrem Hnd. cbn [Stored.extend trace].
        rewrite stored_ids_app, Hids.
        destruct (Seen.stored answer); [|now rewrite app_nil_r].
        apply NoDup_app; [exact Hnd|repeat constructor; auto|].
        intros a Ha [<-|[]].
        assert (Hin : In (Listed.id post)
                         (Stored.stored_ids (trace s ++ map EvProbe pext))).
        { rewrite stored_ids_app, Hps, app_nil_r. exact Ha. }
        apply Hrem in Hin. rewrite Hin in Hex. discriminate Hex.
      * intros token Ht _. split; [exact Ht|].
        apply Forall_app. split; [apply Hpu|repeat constructor].
    + apply Forall_app. split; [exact Hquiet|repeat constructor].
    + rewrite Hids. destruct (Seen.stored answer); cbn; lia.
    + intros Hi. rewrite Hids, (Hst Hi). reflexivity.
Qed.

Lemma processPosts_cases (posts : list Listed.Post) :
  forall (result : Types.CrawlerResult) (s : State),
  exists result' s' ext,
    processPosts W posts result s = (Ok result', s')
    /\ Stored.Grows W s s' ext
    /\ Forall (fun e => Stored.is_listing e = false /\ Stored.is_token e = false) ext
    /\ Types.processed result' = Types.processed result
    /\ Types.inserted result' + Types.skipped result' + Types.errors result'
       = Types.inserted result + Types.skipped result + Types.errors result
         + List.length posts
    /\ Types.inserted result <= Types.inserted result'
    /\ Types.skipped result <= Types.skipped result'
    /\ Types.errors result <= Types.errors result'
    /\ Types.inserted result'
       <= Types.inserted result + List.length (Stored.stored_ids ext).
Proof.
  induction posts as [|post more IH]; intros result s.
  - exists result, s, []. cbn. split; [reflexivity|].
    split; [apply Grows_refl|]. repeat split; try constructor; lia.
  - cbn [processPosts]. unfold St.bind.
    destruct (handle_post_grows ComprehensiveCrawler.validateImage post s
                (comprehensive_validateImage_sane (Listed.payload post)))
      as (o & s1 & ext1 & Hrun & Hg & Hq & Hlen & Hins).
    rewrite Hrun.
    destruct (IH (count_outcome o result) s1)
      as (result' & s' & ext & Hloop & Hg' & Hq' & Hp & Hsum & Hi & Hs & He & Hst).
    rewrite Hloop. exists result', s', (ext1 ++ ext).
    split; [reflexivity|]. split; [now apply (Grows_trans s s1 s')|].
    split; [apply Forall_app; auto|].
    rewrite stored_ids_app, length_app.
    destruct o; cbn in Hp, Hsum, Hi, Hs, He, Hst; cbn [List.length];
      try specialize (Hins eq_refl); repeat split; lia.
Qed.

Lemma crawl_each_cases (posts : list Listed.Post) :
  forall (result : Types.CrawlerResult) (s : State),
  exists result' s' ext,
    crawl_each W posts result s = (Ok result', s')
    /\ Stored.Grows W s s' ext
    /\ Forall (fun e => Stored.is_listing e = false /\ Stored.is_token e = false) ext
    /\ Types.processed result' = Types.processed result + List.length posts
    /\ Types.inserted result' + Types.skipped result' + Types.errors result'
       = Types.inserted result + Types.skipped result + Types.errors result
         + List.length posts
    /\ Types.inserted result'
       <= Types.inserted result + List.length (Stored.stored_ids ext).
Proof.
  induction posts as [|post more IH]; intros result s.
  - exists result, s, []. cbn. split; [reflexivity|].
    split; [apply Grows_refl|]. repeat split; try constructor; lia.
  - cbn [crawl_each]. unfold St.bind.
    destruct (handle_post_grows Crawler.validateImage post s
                (crawler_validateImage_sane (Listed.payload post)))
      as (o & s1 & ext1 & Hrun & Hg & Hq & Hlen & Hins).
    rewrite Hrun.
    destruct (IH (count_outcome o (count_processed 1 result)) s1)
      as (result' & s' & ext & Hloop & Hg' & Hq' & Hp & Hsum & Hst).
    rewrite Hloop. exists result', s', (ext1 ++ ext).
    split; [reflexivity|]. split; [now apply (Grows_trans s s1 s')|].
    split; [apply Forall_app; auto|].
    rewrite stored_ids_app, length_app.
    destruct o; cbn in Hp, Hsum, Hst; cbn [List.length];
      try specialize (Hins eq_refl); repeat split; lia.
Qed.

Lemma getAccessToken_grows (s : State) :
  exists r s' ext,
    getAccessToken W s = (r, s')
    /\ Stored.Grows W s s' ext
    /\ Forall (fun e => Stored.is_insert e = false /\ Stored.is_listing e = false) ext
    /\ Stored.count Stored.is_token ext <= 1
    /\ (JS.truthy_opt (accessToken s) = true -> s' = s /\ ext = [])
    /\ (forall token, r = Ok token ->
                      accessToken s' = Some token /\ JS.truthy token = true).
Proof.
  unfold getAccessToken, St.bind at 1, St.get.
  destruct (JS.truthy_opt (accessToken s)) eqn:Hheld.
  - exists (Ok match accessToken s with Some token => token | None => "" end), s, [].
    split; [reflexivity|]. split; [apply Grows_refl|].
    split; [constructor|]. split; [cbn; lia|]. split; [auto|].
    intros token [= <-].
    destruct (accessToken s) as [token|]; [|discriminate Hheld].
    split; [reflexivity|exact Hheld].
  - assert (Hnot : forall token, accessToken s = Some token ->
                                 JS.truthy token = true -> False).
    { intros token Ha Ht. rewrite Ha in Hheld. cbn in Hheld. congruence. }
    assert (Hgrow : forall received,
               Stored.Grows W s
                 {| accessToken := received;
                    trace := trace s ++ [EvToken (token_endpoint W (trace s))] |}
                 [EvToken (token_endpoint W (trace s))]).
    { intros received. unfold Stored.Grows. cbn [trace accessToken].
      split; [reflexivity|]. split; [repeat constructor|]. split.
      - intros _ Hnd. now rewrite stored_ids_app, app_nil_r.
      - intros token Ha Ht. destruct (Hnot token Ha Ht). }
    assert (Hone : Forall (fun e => Stored.is_insert e = false
                                    /\ Stored.is_listing e = false)
                          [EvToken (token_endpoint W (trace s))]
                   /\ Stored.count Stored.is_token
                        [EvToken (token_endpoint W (trace s))] <= 1).
    { split; [repeat constructor|cbn; lia]. }
    destruct Hone as [Hq Hc].
    (* every way the token request can end *)
    assert (Hend : forall r received,
               (forall token, r = Ok token ->
                              received = Some token /\ JS.truthy token = true) ->
               exists r' s' ext,
                 (r, {| accessToken := received;
                        trace := trace s ++ [EvToken (token_endpoint W (trace s))] |})
                 = (r', s')
                 /\ Stored.Grows W s s' ext
                 /\ Forall (fun e => Stored.is_insert e = false
                                     /\ Stored.is_listing e = false) ext
                 /\ Stored.count Stored.is_token ext <= 1
                 /\ (false = true -> s' = s /\ ext = [])
                 /\ (forall token, r' = Ok token ->
                                   accessToken s' = Some token
                                   /\ JS.truthy token = true)).
    { intros r received Hr. eexists _, _, _. split; [reflexivity|].
      split; [apply Hgrow|]. split; [exact Hq|]. split; [exact Hc|].
      split; [discriminate|exact Hr]. }
    unfold St.try_catch, St.bind, request, St.get, St.put.
    cbn [trace accessToken].
    destruct (token_endpoint W (trace s)) as [msg|status|[token|]] eqn:He;
      cbn [St.throw St.ret];
      try destruct (JS.truthy token) eqn:Htok; cbn [St.throw St.ret];
      apply Hend; intros token' [= <-]; auto.
Qed.

Lemma crawl_count_app (kind : Event -> bool) (a b : Trace) :
  Stored.count kind (a ++ b) = Stored.count kind a + Stored.count kind b.
Proof. unfold Stored.count. now rewrite filter_app, length_app. Qed.

Lemma listed_app (a b : Trace) :
  Stored.listed (a ++ b) = Stored.listed a + Stored.listed b.
Proof.
  induction a as [|e a IH]; [reflexivity|].
  destruct e as [| ? ? [| |]| | | |]; cbn; lia.
Qed.

Lemma no_listing_facts (ext : Trace) :
  Forall (fun e => Stored.is_listing e = false /\ Stored.is_token e = false) ext ->
  Stored.count Stored.is_listing ext = 0
  /\ Stored.count Stored.is_token ext = 0
  /\ Stored.listed ext = 0.
Proof.
  induction 1 as [|e ext [Hl Ht] _ (IH1 & IH2 & IH3)]; [repeat split|].
  unfold Stored.count in *. cbn. rewrite Hl, Ht.
  destruct e; try discriminate Hl; auto.
Qed.

Lemma no_insert_facts (ext : Trace) :
  Forall (fun e => Stored.is_insert e = false /\ Stored.is_listing e = false) ext ->
  Stored.count Stored.is_listing ext = 0
  /\ Stored.listed ext = 0
  /\ Stored.stored_ids ext = [].
Proof.
  induction 1 as [|e ext [Hi Hl] _ (IH1 & IH2 & IH3)]; [repeat split|].
  unfold Stored.count in *. cbn. rewrite Hl.
  destruct e; try discriminate Hl; try discriminate Hi; auto.
Qed.

Lemma no_fetch_failed (ext : Trace) :
  Forall (fun e => Stored.is_listing e = false /\ Stored.is_token e = false) ext ->
  Stored.count Stored.fetch_failed ext = 0.
Proof.
  induction 1 as [|e ext [Hl Ht] _ IH]; [reflexivity|].
  unfold Stored.count in *. cbn.
  destruct e; try discriminate Hl; try discriminate Ht; exact IH.
Qed.

(** [getAccessToken] throws exactly when it has asked for a token and
    got none. *)
Lemma getAccessToken_failed (s : State) :
  exists ext,
    trace (snd (getAccessToken W s)) = trace s ++ ext
    /\ Stored.count Stored.fetch_failed ext
       = match fst (getAccessToken W s) with Ok _ => 0 | Throw _ => 1 end.
Proof.
  destruct (getAccessToken W s) as [r s'] eqn:Hrun. cbn [fst snd].
  unfold getAccessToken, St.bind at 1, St.get in Hrun.
  destruct (JS.truthy_opt (accessToken s)).
  - injection Hrun as <- <-. exists []. rewrite app_nil_r. split; reflexivity.
  - exists [EvToken (token_endpoint W (trace s))].
    unfold St.try_catch, St.bind, request, St.get, St.put in Hrun.
    cbn [trace accessToken] in Hrun.
    unfold Stored.count. cbn [filter Stored.fetch_failed].
    destruct (token_endpoint W (trace s)) as [msg|status|[token|]];
      cbn [St.throw St.ret Stored.token_refused] in Hrun |- *;
      try destruct (JS.truthy token);
      injection Hrun as <- <-; split; reflexivity.
Qed.

(** One request to a listing: the token first, then the listing itself. *)
Lemma listing_request_grows {A} (s : State) (link : string)
  (finish : ListingAnswer -> St.M State A) :
  (forall answer s1, exists r, finish answer s1 = (r, s1)) ->
  exists r s' ext,
    St.try_catch
      (St.bind (getAccessToken W)
         (fun token =>
            St.bind (request (fun t => listing_endpoint W t link token)
                             (EvListing link token))
                    finish))
      (fun error => St.throw error) s
    = (r, s')
    /\ Stored.Grows W s s' ext
    /\ Stored.stored_ids ext = []
    /\ Stored.count Stored.is_listing ext <= 1
    /\ ((exists msg, r = Throw msg /\ Stored.listed ext = 0
                     /\ Stored.count Stored.fetch_failed ext = 1)
        \/ (exists before bearer answer,
               ext = before ++ [EvListing link bearer answer]
               /\ Stored.listed before = 0
               /\ Stored.count Stored.fetch_failed before = 0
               /\ finish answer s' = (r, s'))).
Proof.
  intros Hfinish.
  unfold St.try_catch, St.bind at 1.
  destruct (getAccessToken_grows s)
    as (r0 & s1 & ext1 & Hrun & Hg & Hq & _ & _ & Htok).
  destruct (getAccessToken_failed s) as (ext0 & Htrace & Hfailed).
  rewrite Hrun in Htrace, Hfailed. cbn [fst snd] in Htrace, Hfailed.
  assert (ext0 = ext1) as ->.
  { destruct Hg as (Hg & _). rewrite Hg in Htrace.
    symmetry. now apply app_inv_head in Htrace. }
  rewrite Hrun.
  destruct (no_insert_facts ext1 Hq) as (Hc1 & Hl1 & Hs1).
  destruct r0 as [token|msg].
  2:{ exists (Throw msg), s1, ext1. cbn [St.throw].
      split; [reflexivity|]. split; [exact Hg|]. split; [exact Hs1|].
      split; [lia|]. left. eauto. }
  destruct (Htok token eq_refl) as [Ha Ht].
  unfold St.bind, request.
  set (answer := listing_endpoint W (trace s1) link token).
  set (s2 := {| accessToken := accessToken s1;
                trace := trace s1 ++ [EvListing link token answer] |}).
  destruct (Hfinish answer s2) as (r & Hr). rewrite Hr.
  assert (Hg2 : Stored.Grows W s1 s2 [EvListing link token answer]).
  { apply Grows_plain; try reflexivity; [repeat constructor|].
    intros token' Ha' _. rewrite Ha in Ha'. injection Ha' as <-.
    repeat constructor. cbn. apply String.eqb_refl. }
  exists (match r with Ok a => Ok a | Throw msg => Throw msg end), s2,
    (ext1 ++ [EvListing link token answer]).
  split; [destruct r; reflexivity|].
  split; [now apply (Grows_trans s s1 s2)|].
  split; [now rewrite stored_ids_app, Hs1|].
  split; [rewrite crawl_count_app, Hc1; cbn; lia|].
  right. exists ext1, token, answer. split; [reflexivity|]. split; [exact Hl1|].
  split; [exact Hfailed|].
  rewrite Hr. destruct r; reflexivity.
Qed.

Lemma fetchRedditPostsBatch_grows (subreddit sort : string)
  (timeFilter after : option string) (limit : nat) (s : State) :
  exists r s' ext,
    fetchRedditPostsBatch W subreddit sort timeFilter after limit s = (r, s')
    /\ Stored.Grows W s s' ext
    /\ Stored.stored_ids ext = []
    /\ Stored.count Stored.is_listing ext <= 1
    /\ Stored.listed ext
       = match r with
         | Ok fetched => List.length (fst fetched)
         | Throw _ => 0
         end
    /\ Stored.count Stored.fetch_failed ext
       = match r with Ok _ => 0 | Throw _ => 1 end.
Proof.
  unfold fetchRedditPostsBatch. cbv zeta.
  set (link := listing_link subreddit sort timeFilter after limit).
  set (finish := fun response : ListingAnswer =>
                   match response with
                   | ListingThrows msg => St.throw msg
                   | ListingNotOk status =>
                       St.throw (String.append "HTTP error! status: "
                                   (JSNum.show_nat status))
                   | ListingOk posts nextAfter => St.ret (posts, nextAfter)
                   end : St.M State (list Listed.Post * option string)).
  destruct (listing_request_grows s link finish)
    as (r & s' & ext & Hrun & Hg & Hs & Hc & Hcases).
  { intros [msg|status|posts nextAfter] s1; eexists; reflexivity. }
  exists r, s', ext. split; [exact Hrun|]. split; [exact Hg|].
  split; [exact Hs|]. split; [exact Hc|].
  destruct Hcases
    as [(msg & -> & Hl & Hfail) | (before & bearer & answer & -> & Hb & Hfb & Hf)];
    [split; assumption|].
  rewrite listed_app, crawl_count_app, Hb, Hfb.
  destruct answer as [msg|status|posts nextAfter]; cbn in Hf;
    injection Hf as <-; cbn; split; lia.
Qed.

Lemma fetchRedditPosts_grows (subreddit : string) (limit : nat) (s : State) :
  exists r s' ext,
    fetchRedditPosts W subreddit limit s = (r, s')
    /\ Stored.Grows W s s' ext
    /\ Stored.stored_ids ext = []
    /\ Stored.count Stored.is_listing ext <= 1
    /\ (forall posts, r = Ok posts ->
                      Stored.listed ext = List.length posts
                      /\ Stored.count Stored.is_listing ext = 1).
Proof.
  unfold fetchRedditPosts. cbv zeta.
  set (link := listing_link subreddit "hot" None None limit).
  set (finish := fun response : ListingAnswer =>
                   match response with
                   | ListingThrows msg => St.throw msg
                   | ListingNotOk status =>
                       St.throw (String.append "HTTP error! status: "
                                   (JSNum.show_nat status))
                   | ListingOk posts _ => St.ret posts
                   end : St.M State (list Listed.Post)).
  destruct (listing_request_grows s link finish)
    as (r & s' & ext & Hrun & Hg & Hs & Hc & Hcases).
  { intros [msg|status|posts nextAfter] s1; eexists; reflexivity. }
  exists r, s', ext. split; [exact Hrun|]. split; [exact Hg|].
  split; [exact Hs|]. split; [exact Hc|].
  intros posts ->.
  destruct Hcases
    as [(msg & [=] & _) | (before & bearer & answer & -> & Hb & _ & Hf)].
  rewrite listed_app, Hb, crawl_count_app in *.
  destruct answer as [msg|status|posts' nextAfter]; cbn in Hf;
    try discriminate Hf. injection Hf as <-.
  unfold Stored.count in *. cbn in *. split; lia.
Qed.

Lemma pause_grows (ms : nat) (s : State) :
  Stored.Grows W s (Stored.extend s [EvPause ms]) [EvPause ms].
Proof.
  apply Grows_plain; try reflexivity; [repeat constructor|].
  intros token _ _. repeat constructor.
Qed.

Lemma crawl_batches_cases (strategy : Strategy) (remaining : nat) :
  forall (after : option string) (tally : Types.CrawlerResult) (s : State),
  exists r s' ext,
    crawl_batches W strategy remaining after tally s = (r, s')
    /\ Stored.Grows W s s' ext
    /\ Stored.count Stored.is_listing ext <= remaining
    /\ Stored.count Stored.fetch_failed ext <= remaining
    /\ (forall msg, r = Throw msg -> is_auth_failure msg = true)
    /\ forall tally',
         r = Ok tally' ->
         Types.processed tally' = Types.processed tally + Stored.listed ext
         /\ Types.inserted tally' + Types.skipped tally' + Types.errors tally'
            = Types.inserted tally + Types.skipped tally + Types.errors tally
              + Stored.listed ext + Stored.count Stored.fetch_failed ext
         /\ Types.errors tally + Stored.count Stored.fetch_failed ext
            <= Types.errors tally'
         /\ Types.inserted tally'
            <= Types.inserted tally + List.length (Stored.stored_ids ext).
Proof.
  assert (Hpl : Stored.count Stored.is_listing [EvPause 200] = 0) by reflexivity.
  assert (Hpf : Stored.count Stored.fetch_failed [EvPause 200] = 0) by reflexivity.
  assert (Hnl : Stored.count Stored.is_listing [] = 0) by reflexivity.
  assert (Hnf : Stored.count Stored.fetch_failed [] = 0) by reflexivity.
  induction remaining as [|fewer IH]; intros after tally s.
  - exists (Ok tally), s, []. cbn [crawl_batches St.ret]. split; [reflexivity|].
    split; [apply Grows_refl|]. rewrite Hnl, Hnf.
    split; [lia|]. split; [lia|]. split; [discriminate|].
    intros tally' [= <-]. cbn. repeat split; lia.
  - cbn [crawl_batches]. unfold St.bind at 1, St.try_catch, St.bind at 1.
    destruct (fetchRedditPostsBatch_grows "MeJulgue" (sort strategy)
                (time strategy) after 100 s)
      as (r1 & s1 & ext1 & Hrun1 & Hg1 & Hs1 & Hc1 & Hl1 & Hf1).
    rewrite Hrun1.
    destruct r1 as [[posts nextAfter]|msg]; cbn [fst snd] in *.
    + destruct (List.length posts =? 0) eqn:Hempty; cbn [St.ret].
      { apply Nat.eqb_eq in Hempty.
        exists (Ok tally), s1, ext1. split; [reflexivity|].
        split; [exact Hg1|]. split; [lia|]. split; [lia|].
        split; [discriminate|].
        intros tally' [= <-]. rewrite Hs1, Hf1. cbn. repeat split; lia. }
      unfold St.bind at 1.
      destruct (processPosts_cases posts zero_result s1)
        as (batch & s2 & ext2 & Hrun2 & Hg2 & Hq2 & _ & Hsum2 & _ & _ & _ & Hst2).
      rewrite Hrun2.
      destruct (no_listing_facts ext2 Hq2) as (Hc2 & _ & Hl2).
      pose proof (no_fetch_failed ext2 Hq2) as Hf2.
      cbn in Hsum2, Hst2.
      destruct (JS.truthy_opt nextAfter); cbn [negb St.ret].
      * unfold St.bind, pause. fold (Stored.extend s2 [EvPause 200]).
        cbn [St.ret].
        destruct (IH nextAfter (add_batch batch (List.length posts) tally)
                    (Stored.extend s2 [EvPause 200]))
          as (r & s' & ext & Hrun & Hg & Hc & Hfc & Hthrow & Hok).
        rewrite Hrun.
        exists r, s', (ext1 ++ ext2 ++ [EvPause 200] ++ ext).
        split; [reflexivity|]. split.
        { apply (Grows_trans s s1 s'); [exact Hg1|].
          apply (Grows_trans s1 s2 s'); [exact Hg2|].
          apply (Grows_trans s2 (Stored.extend s2 [EvPause 200]) s');
            [apply pause_grows|exact Hg]. }
        rewrite !crawl_count_app, Hc2, Hf1, Hf2, Hpl, Hpf.
        split; [lia|]. split; [lia|].
        split; [exact Hthrow|].
        intros tally' Hr. destruct (Hok tally' Hr) as (Hp & Hsum & He & Hi).
        rewrite !listed_app, !stored_ids_app, !length_app, Hl2, Hs1.
        cbn in Hp, Hsum, He, Hi |- *. repeat split; lia.
      * exists (Ok (add_batch batch (List.length posts) tally)), s2, (ext1 ++ ext2).
        split; [reflexivity|].
        split; [now apply (Grows_trans s s1 s2)|].
        rewrite !crawl_count_app, Hc2, Hf1, Hf2.
        split; [lia|]. split; [lia|].
        split; [discriminate|].
        intros tally' [= <-].
        rewrite listed_app, stored_ids_app, length_app, Hl2, Hs1.
        cbn. repeat split; lia.
    + destruct (is_auth_failure msg) eqn:Hauth; cbn [St.throw St.ret].
      { exists (Throw msg), s1, ext1. split; [reflexivity|].
        split; [exact Hg1|]. split; [lia|]. split; [lia|].
        split; [now intros msg' [= <-]|discriminate]. }
      destruct (IH after (add_error tally) s1)
        as (r & s' & ext & Hrun & Hg & Hc & Hfc & Hthrow & Hok).
      rewrite Hrun.
      exists r, s', (ext1 ++ ext).
      split; [reflexivity|]. split; [now apply (Grows_trans s s1 s')|].
      rewrite !crawl_count_app, Hf1.
      split; [lia|]. split; [lia|].
      split; [exact Hthrow|].
      intros tally' Hr. destruct (Hok tally' Hr) as (Hp & Hsum & He & Hi).
      rewrite listed_app, stored_ids_app, length_app, Hl1, Hs1.
      cbn in Hp, Hsum, He, Hi |- *. repeat split; lia.
Qed.

Lemma crawl_strategies_cases (strategies : list Strategy) :
  forall (totalResult : Types.CrawlerResult) (s : State),
  exists r s' ext,
    crawl_strategies W strategies totalResult s = (r, s')
    /\ Stored.Grows W s s' ext
    /\ Stored.count Stored.is_listing ext <= Stored.total_batches strategies
    /\ Stored.count Stored.fetch_failed ext <= Stored.total_batches strategies
    /\ (forall msg, r = Throw msg -> is_auth_failure msg = true)
    /\ forall total',
         r = Ok total' ->
         Types.processed total'
         = Types.processed totalResult + Stored.listed ext
         /\ Types.inserted total' + Types.skipped total' + Types.errors total'
            = Types.inserted totalResult + Types.skipped totalResult
              + Types.errors totalResult + Stored.listed ext
              + Stored.count Stored.fetch_failed ext
         /\ Types.errors totalResult + Stored.count Stored.fetch_failed ext
            <= Types.errors total'
         /\ Types.inserted total'
            <= Types.inserted totalResult
               + List.length (Stored.stored_ids ext).
Proof.
  assert (Hnl : Stored.count Stored.is_listing [] = 0) by reflexivity.
  assert (Hnf : Stored.count Stored.fetch_failed [] = 0) by reflexivity.
  induction strategies as [|strategy more IH]; intros totalResult s.
  - exists (Ok totalResult), s, []. cbn [crawl_strategies St.ret].
    split; [reflexivity|].
    split; [apply Grows_refl|]. rewrite Hnl, Hnf.
    split; [lia|]. split; [lia|]. split; [discriminate|].
    intros total' [= <-]. cbn. repeat split; lia.
  - cbn [crawl_strategies Stored.total_batches fold_right].
    fold (Stored.total_batches more). unfold St.bind at 1.
    match goal with
    | |- context [crawl_batches W strategy (batches strategy) None ?tally s] =>
        destruct (crawl_batches_cases strategy (batches strategy) None tally s)
          as (r1 & s1 & ext1 & Hrun1 & Hg1 & Hc1 & Hfc1 & Hthrow1 & Hok1)
    end.
    rewrite Hrun1.
    destruct r1 as [tally|msg].
    2:{ exists (Throw msg), s1, ext1. split; [reflexivity|].
        split; [exact Hg1|]. split; [lia|]. split; [lia|].
        split; [intros msg' [= <-]; now apply Hthrow1|discriminate]. }
    destruct (Hok1 tally eq_refl) as (Hp1 & Hsum1 & He1 & Hi1).
    cbn in Hp1, Hsum1, He1, Hi1.
    match goal with
    | |- context [crawl_strategies W more ?total s1] =>
        destruct (IH total s1)
          as (r & s' & ext & Hrun & Hg & Hc & Hfc & Hthrow & Hok)
    end.
    rewrite Hrun. exists r, s', (ext1 ++ ext).
    split; [reflexivity|]. split; [now apply (Grows_trans s s1 s')|].
    rewrite !crawl_count_app.
    split; [lia|]. split; [lia|].
    split; [exact Hthrow|].
    intros total' Hr. destruct (Hok total' Hr) as (Hp & Hsum & He & Hi).
    cbn in Hp, Hsum, He, Hi.
    rewrite listed_app, stored_ids_app, length_app.
    repeat split; lia.
Qed.

Lemma comprehensiveCrawl_cases (s : State) :
  exists r s' ext,
    comprehensiveCrawl W s = (r, s')
    /\ Stored.Grows W s s' ext
    /\ Stored.count Stored.is_listing ext <= 10
    /\ Stored.count Stored.fetch_failed ext <= 10
    /\ (forall msg,
          r = Throw msg ->
          is_auth_failure msg = true
          \/ (0 < Stored.count Stored.fetch_failed ext
              /\ Stored.listed ext = 0
              /\ msg = String.append "Crawler failed: 0 posts processed with "
                         (String.append
                            (JSNum.show_nat (Stored.count Stored.fetch_failed ext))
                            " errors")))
    /\ forall result,
         r = Ok result ->
         Types.processed result = Stored.listed ext
         /\ Types.inserted result + Types.skipped result + Types.errors result
            = Types.processed result + Stored.count Stored.fetch_failed ext
         /\ Types.inserted result <= List.length (Stored.stored_ids ext)
         /\ (0 < Types.processed result \/ Types.errors result = 0).
Proof.
  unfold comprehensiveCrawl, St.bind.
  destruct (crawl_strategies_cases CRAWL_STRATEGIES zero_result s)
    as (r & s' & ext & Hrun & Hg & Hc & Hfc & Hthrow & Hok).
  rewrite Hrun. change (Stored.total_batches CRAWL_STRATEGIES) with 10 in *.
  destruct r as [total|msg].
  2:{ exists (Throw msg), s', ext. split; [reflexivity|].
      split; [exact Hg|]. split; [exact Hc|]. split; [exact Hfc|].
      split; [|discriminate]. intros msg' [= <-]. left. now apply Hthrow. }
  destruct (Hok total eq_refl) as (Hp & Hsum & He & Hi).
  cbn in Hp, Hsum, He, Hi.
  destruct ((Types.processed total =? 0) && (0 <? Types.errors total)) eqn:Hfail.
  - eexists _, s', ext. cbn [St.throw].
    split; [reflexivity|]. split; [exact Hg|]. split; [exact Hc|].
    split; [exact Hfc|].
    split; [|discriminate]. intros msg [= <-]. right.
    apply Bool.andb_true_iff in Hfail as [Hz Hpos].
    apply Nat.eqb_eq in Hz. apply Nat.ltb_lt in Hpos.
    assert (Hsame : Types.errors total = Stored.count Stored.fetch_failed ext)
      by lia.
    rewrite <- Hsame. repeat split; [exact Hpos|lia].
  - exists (Ok total), s', ext. cbn [St.ret].
    split; [reflexivity|]. split; [exact Hg|]. split; [exact Hc|].
    split; [exact Hfc|].
    split; [discriminate|].
    intros result [= <-].
    apply Bool.andb_false_iff in Hfail.
    rewrite Nat.eqb_neq, Nat.ltb_ge in Hfail.
    repeat split; lia.
Qed.

Lemma crawlReddit_cases (s : State) :
  exists r s' ext,
    crawlReddit W s = (r, s')
    /\ Stored.Grows W s s' ext
    /\ Stored.count Stored.is_listing ext <= 1
    /\ forall result,
         r = Ok result ->
         Types.processed result = Stored.listed ext
         /\ Stored.count Stored.is_listing ext = 1
         /\ Types.inserted result + Types.skipped result + Types.errors result
            = Types.processed result
         /\ Types.inserted result <= List.length (Stored.stored_ids ext).
Proof.
  unfold crawlReddit, St.try_catch, St.bind.
  destruct (fetchRedditPosts_grows "MeJulgue" 50 s)
    as (r1 & s1 & ext1 & Hrun1 & Hg1 & Hs1 & Hc1 & Hok1).
  rewrite Hrun1.
  destruct r1 as [posts|msg].
  2:{ exists (Throw msg), s1, ext1. split; [reflexivity|].
      split; [exact Hg1|]. split; [exact Hc1|]. discriminate. }
  destruct (Hok1 posts eq_refl) as [Hl1 Hone].
  destruct (crawl_each_cases posts zero_result s1)
    as (result & s' & ext & Hrun & Hg & Hq & Hp & Hsum & Hi).
  rewrite Hrun.
  destruct (no_listing_facts ext Hq) as (Hc & _ & Hl).
  exists (Ok result), s', (ext1 ++ ext).
  split; [reflexivity|]. split; [now apply (Grows_trans s s1 s')|].
  split; [rewrite crawl_count_app; lia|].
  intros result' [= <-].
  rewrite listed_app, crawl_count_app, stored_ids_app, length_app, Hs1.
  cbn in Hp, Hsum, Hi |- *. repeat split; lia.
Qed.

Lemma Checked_sound (ext : Trace) :
  Stored.Checked ext ->
  forall before row answer after,
    ext = before ++ EvInsertPost row answer :: after ->
    (exists earlier, before = earlier ++ [EvExists (Row.reddit_id row)])
    /\ Row.elo row = 1500 /\ Row.wins row = 0 /\ Row.losses row = 0
    /\ JS.truthy (Row.image_url row) = true.
Proof.
  induction 1 as [|e t He Ht IH|post answer0 t H1 H2 H3 H4 Ht IH];
    intros before row answer after Heq.
  - destruct before; discriminate Heq.
  - destruct before as [|e' before]; cbn in Heq.
    + injection Heq as -> _. discriminate He.
    + injection Heq as <- Heq.
      destruct (IH _ _ _ _ Heq) as ((earlier & ->) & Hrest).
      split; [exists (e :: earlier); reflexivity|exact Hrest].
  - destruct before as [|e1 [|e2 before]]; cbn in Heq.
    + discriminate Heq.
    + injection Heq as <- <- <- _.
      split; [exists []; reflexivity|auto].
    + injection Heq as <- <- Heq.
      destruct (IH _ _ _ _ Heq) as ((earlier & ->) & Hrest).
      split; [|exact Hrest].
      exists (EvExists (Row.reddit_id post) :: EvInsertPost post answer0 :: earlier).
      reflexivity.
Qed.

(** In a crawl of either crawler, an insert is only ever asked for right
    after the existence check of the same post, and the row it inserts is
    a new one: rating 1500, no wins, no losses, and a non-empty image
    link. *)
Theorem crawl_inserts_follow_existence_check (s : State) :
  (exists ext,
      trace (snd (crawlReddit W s)) = trace s ++ ext
      /\ Stored.inserts_checked ext)
  /\ (exists ext,
         trace (snd (comprehensiveCrawl W s)) = trace s ++ ext
         /\ Stored.inserts_checked ext).
Proof.
  split.
  - destruct (crawlReddit_cases s) as (r & s' & ext & Hrun & (Ht & Hc & _) & _).
    exists ext. rewrite Hrun. split; [exact Ht|].
    unfold Stored.inserts_checked. now apply Checked_sound.
  - destruct (comprehensiveCrawl_cases s) as (r & s' & ext & Hrun & (Ht & Hc & _) & _).
    exists ext. rewrite Hrun. split; [exact Ht|].
    unfold Stored.inserts_checked. now apply Checked_sound.
Qed.

(** Against a storage that remembers the posts it has accepted, a crawl of
    either crawler never makes it hold a post twice: if the identifiers
    stored before the crawl are distinct, so are those stored after it,
    even when a listing shows a post more than once or a post shows up in
    several listings. *)
Theorem crawl_never_stores_a_post_twice (s : State) :
  Stored.remembers W ->
  NoDup (Stored.stored_ids (trace s)) ->
  NoDup (Stored.stored_ids (trace (snd (crawlReddit W s))))
  /\ NoDup (Stored.stored_ids (trace (snd (comprehensiveCrawl W s)))).
Proof.
  intros Hrem Hnd. split.
  - destruct (crawlReddit_cases s) as (r & s' & ext & Hrun & (_ & _ & Hd & _) & _).
    rewrite Hrun. now apply Hd.
  - destruct (comprehensiveCrawl_cases s) as (r & s' & ext & Hrun & (_ & _ & Hd & _) & _).
    rewrite Hrun. now apply Hd.
Qed.

(** A crawler that holds an access token keeps it for the whole crawl: it
    asks the token endpoint for no other, however long the crawl lasts,
    and every listing request carries that token. *)
Theorem crawl_keeps_its_token (s : State) (token : string) :
  accessToken s = Some token -> JS.truthy token = true ->
  (exists ext,
      trace (snd (crawlReddit W s)) = trace s ++ ext
      /\ accessToken (snd (crawlReddit W s)) = Some token
      /\ Forall (fun e => Stored.uses token e = true) ext)
  /\ (exists ext,
         trace (snd (comprehensiveCrawl W s)) = trace s ++ ext
         /\ accessToken (snd (comprehensiveCrawl W s)) = Some token
         /\ Forall (fun e => Stored.uses token e = true) ext).
Proof.
  intros Ha Ht. split.
  - destruct (crawlReddit_cases s) as (r & s' & ext & Hrun & (Htr & _ & _ & Hk) & _).
    exists ext. rewrite Hrun. destruct (Hk token Ha Ht). auto.
  - destruct (comprehensiveCrawl_cases s) as (r & s' & ext & Hrun & (Htr & _ & _ & Hk) & _).
    exists ext. rewrite Hrun. destruct (Hk token Ha Ht). auto.
Qed.

(** The counters [crawlReddit] returns add up: exactly one listing was
    fetched, every post of it was processed, and each processed post is
    counted once, as inserted, skipped or error; no more posts are counted
    as inserted than the storage accepted. *)
Theorem crawlReddit_counters_add_up (s s' : State) (result : Types.CrawlerResult) :
  crawlReddit W s = (Ok result, s') ->
  Types.inserted result + Types.skipped result + Types.errors result
  = Types.processed result
  /\ exists ext,
       trace s' = trace s ++ ext
       /\ Stored.count Stored.is_listing ext = 1
       /\ Types.processed result = Stored.listed ext
       /\ Types.inserted result <= List.length (Stored.stored_ids ext).
Proof.
  intros H.
  destruct (crawlReddit_cases s) as (r & s1 & ext & Hrun & (Ht & _) & _ & Hok).
  rewrite Hrun in H. injection H as -> ->.
  destruct (Hok result eq_refl) as (Hp & Hone & Hsum & Hi).
  split; [exact Hsum|]. exists ext. auto.
Qed.


(** [processPosts] never throws, asks for no listing and no token, and
    counts each post of the batch exactly once, as inserted, skipped or
    error. *)
Theorem processPosts_counts_every_post (posts : list Listed.Post) (s : State) :
  exists result s' ext,
    processPosts W posts zero_result s = (Ok result, s')
    /\ trace s' = trace s ++ ext
    /\ accessToken s' = accessToken s
    /\ Forall (fun e => Stored.is_listing e = false /\ Stored.is_token e = false) ext
    /\ Types.inserted result + Types.skipped result + Types.errors result
       = List.length posts
    /\ Types.inserted result <= List.length (Stored.stored_ids ext).
Proof.
  assert (Hkeep : forall posts' result s0,
             accessToken (snd (processPosts W posts' result s0)) = accessToken s0).
  { induction posts' as [|post more IH]; intros result s0; [reflexivity|].
    cbn [processPosts]. unfold St.bind.
    destruct (handle_post_cases ComprehensiveCrawler.validateImage post s0
                (comprehensive_validateImage_sane (Listed.payload post)))
      as (o & pext & tail & Hrun & _).
    rewrite Hrun. now rewrite IH. }
  destruct (processPosts_cases posts zero_result s)
    as (result & s' & ext & Hrun & (Ht & _) & Hq & _ & Hsum & _ & _ & _ & Hi).
  exists result, s', ext. cbn in Hsum, Hi.
  split; [exact Hrun|]. split; [exact Ht|].
  split; [specialize (Hkeep posts zero_result s); now rewrite Hrun in Hkeep|].
  repeat split; try assumption; lia.
Qed.

End CrawlFacts.

(** ** The crawlers on the small world *)

Section CrawlScenarioFacts.
Import Crawl.

Example crawlReddit_ex :
  fst (crawlReddit CrawlScenario.world CrawlScenario.start)
  = Ok {| Types.processed := 4; Types.inserted := 1; Types.skipped := 2;
          Types.errors := 1 |}
  /\ Stored.stored_ids (trace (snd (crawlReddit CrawlScenario.world CrawlScenario.start)))
     = ["a1"]
  /\ map Stored.plain
         (trace (snd (crawlReddit CrawlScenario.world CrawlScenario.start)))
     = [false; false; true; true; false; true; true; true; true].
Proof. repeat split; vm_compute; reflexivity. Qed.

Example comprehensiveCrawl_ex :
  fst (comprehensiveCrawl CrawlScenario.world CrawlScenario.start)
  = Ok {| Types.processed := 20; Types.inserted := 1; Types.skipped := 14;
          Types.errors := 5 |}
  /\ Stored.count Stored.is_listing
       (trace (snd (comprehensiveCrawl CrawlScenario.world CrawlScenario.start)))
     = 5
  /\ Stored.count Stored.is_token
       (trace (snd (comprehensiveCrawl CrawlScenario.world CrawlScenario.start)))
     = 1.
Proof. repeat split; vm_compute; reflexivity. Qed.

Example comprehensiveCrawl_unauthorized_ex :
  comprehensiveCrawl CrawlScenario.world_unauthorized CrawlScenario.start_with_token
  = (Throw "HTTP error! status: 401",
     Stored.extend CrawlScenario.start_with_token
       [EvListing "https://oauth.reddit.com/r/MeJulgue/new?limit=100" "tok"
                  (ListingNotOk 401)]).
Proof. vm_compute. reflexivity. Qed.

(** Both requests for the hot listing fail and are counted as errors,
    with the three posts that could not be stored in the other four
    listings; the crawl goes on. *)
Example comprehensiveCrawl_flaky_ex :
  fst (comprehensiveCrawl CrawlScenario.world_flaky CrawlScenario.start)
  = Ok {| Types.processed := 16; Types.inserted := 1; Types.skipped := 11;
          Types.errors := 6 |}
  /\ Stored.count Stored.fetch_failed
       (trace (snd (comprehensiveCrawl CrawlScenario.world_flaky
                      CrawlScenario.start)))
     = 2
  /\ Stored.count Stored.is_listing
       (trace (snd (comprehensiveCrawl CrawlScenario.world_flaky
                      CrawlScenario.start)))
     = 6.
Proof. repeat split; vm_compute; reflexivity. Qed.

(** Without a token every fetch fails before its listing request, and the
    crawl ends with the error that tells the ten failures. *)
Example comprehensiveCrawl_no_token_ex :
  fst (comprehensiveCrawl CrawlScenario.world_no_token CrawlScenario.start)
  = Throw "Crawler failed: 0 posts processed with 10 errors"
  /\ trace (snd (comprehensiveCrawl CrawlScenario.world_no_token
                   CrawlScenario.start))
     = repeat (EvToken (TokenNotOk 503)) 10.
Proof. repeat split; vm_compute; reflexivity. Qed.

Lemma world_remembers : Stored.remembers CrawlScenario.world.
Proof.
  intros t redditId Hin. cbn.
  assert (H : existsb (String.eqb redditId) (Stored.stored_ids t) = true).
  { apply existsb_exists. exists redditId. split; [exact Hin|apply String.eqb_refl]. }
  now rewrite H.
Qed.

End CrawlScenarioFacts.

(** ** Failing fast, and reusing a token *)

Section FailFast.
Import Crawl.
Variable W : World.

(** A comprehensive crawl that holds a token and whose first listing
    request is answered with HTTP 401 stops at once: it throws that error
    and has issued that one request only. *)
Theorem comprehensiveCrawl_stops_on_401 (s : State) (token : string) :
  accessToken s = Some token -> JS.truthy token = true ->
  let link := listing_link "MeJulgue" "new" None None 100 in
  listing_endpoint W (trace s) link token = ListingNotOk 401 ->
  comprehensiveCrawl W s
  = (Throw "HTTP error! status: 401",
     Stored.extend s [EvListing link token (ListingNotOk 401)]).
Proof.
  intros Ha Ht link Hl.
  unfold comprehensiveCrawl.
  cbn [CRAWL_STRATEGIES crawl_strategies crawl_batches batches sort time].
  unfold St.bind at 1. unfold St.bind at 1. unfold St.bind at 1.
  unfold St.try_catch at 1. unfold St.bind at 1.
  unfold fetchRedditPostsBatch, St.try_catch at 1, St.bind at 1.
  unfold getAccessToken, St.bind at 1, St.get. rewrite Ha.
  cbn [JS.truthy_opt]. rewrite Ht. cbn [St.ret].
  unfold St.bind at 1, request. cbn [trace accessToken].
  fold link. rewrite Hl. reflexivity.
Qed.

End FailFast.

Section TokenReuse.
Import Session.
Variable W : World.
Variable refreshToken : option string.

(** A manager without a usable token that is granted one caches it and
    returns it; and as long as the clock has advanced by no more than the
    token's lifetime less 61 seconds since the grant, the next call
    returns the same token without asking the token endpoint again,
    whatever requests were made in between. *)
Theorem refreshed_token_is_reused
  (s : State) (tokenData : TokenData) (later : Trace) :
  Cache.stale W s ->
  JS.truthy_opt refreshToken = true ->
  token_endpoint W (trace s) = TokenOk tokenData ->
  let t1 := trace s ++ [EvRefresh (TokenOk tokenData)] in
  let cached := Some (Cache.cached_from tokenData (now_ms W t1)) in
  getAccessToken W refreshToken s
  = (Ok (td_access_token tokenData), {| currentToken := cached; trace := t1 |})
  /\ ((now_ms W (t1 ++ later) - now_ms W t1
       <= (td_expires_in tokenData - 61) * 1000)%Z ->
      getAccessToken W refreshToken {| currentToken := cached; trace := t1 ++ later |}
      = (Ok (td_access_token tokenData),
         {| currentToken := cached; trace := t1 ++ later |})).
Proof.
  intros Hstale Hr He t1 cached. split.
  - assert (Hgo :
              St.bind (refreshAccessToken W refreshToken)
                (fun _ =>
                   St.bind St.get
                     (fun s' =>
                        match currentToken s' with
                        | None => St.throw "Failed to obtain access token"
                        | Some token => St.ret (access_token token)
                        end)) s
              = (Ok (td_access_token tokenData),
                 {| currentToken := cached; trace := t1 |})).
    { unfold refreshAccessToken. rewrite Hr. cbn [negb].
      unfold St.bind, request, St.get, St.put. rewrite He. reflexivity. }
    unfold getAccessToken, St.bind at 1, St.get.
    unfold Cache.stale in Hstale.
    destruct (currentToken s) as [token|]; [rewrite Hstale|]; exact Hgo.
  - intros Hclock.
    unfold getAccessToken, St.bind at 1, St.get. cbn [currentToken trace].
    unfold cached at 1.
    assert (Hv : still_valid (Cache.cached_from tokenData (now_ms W t1))
                   (now_ms W (t1 ++ later)) = true).
    { unfold still_valid, Cache.cached_from. cbn [expires_at].
      apply Z.ltb_lt. Z.div_mod_to_equations. lia. }
    rewrite Hv. reflexivity.
Qed.

End TokenReuse.

Section VerifyFacts.
Import Session.
Variable W : World.
Variable refreshToken : option string.

(** [verifyAuthentication] never throws.  It answers with a user only when
    [/api/v1/me] was asked, with the access token the manager then holds
    as bearer and after at most one token refresh, and answered with that
    user; without a usable token and without a configured refresh token it
    answers null without any request. *)
Theorem verifyAuthentication_spec (s : State) :
  exists r s',
    verifyAuthentication W refreshToken s = (Ok r, s')
    /\ (forall name id,
           r = Some (name, id) ->
           exists before bearer token,
             trace s' = trace s ++ before ++ [EvMe bearer (MeOk name id)]
             /\ List.length before <= 1
             /\ Forall (fun e => Cache.is_refresh e = true) before
             /\ currentToken s' = Some token
             /\ access_token token = bearer)
    /\ (JS.truthy_opt refreshToken = false -> Cache.stale W s ->
        r = None /\ s' = s).
Proof.
  unfold verifyAuthentication, St.try_catch, St.bind at 1,
    makeAuthenticatedRequest, St.bind at 1.
  pose proof (getAccessToken_cases W refreshToken s) as Hspec.
  destruct (getAccessToken W refreshToken s) as [[accessToken|msg] s1].
  - destruct Hspec as (token & Hcur & Hacc & Hhow).
    assert (Hpre : exists before,
               trace s1 = trace s ++ before
               /\ List.length before <= 1
               /\ Forall (fun e => Cache.is_refresh e = true) before
               /\ (JS.truthy_opt refreshToken = false -> Cache.stale W s -> False)).
    { destruct Hhow as [[-> Hv] | (Hstale & Hyes & td & He & Ht & _)].
      - exists []. rewrite app_nil_r. repeat split; [cbn; lia|constructor|].
        intros _ Hs. unfold Cache.stale in Hs. rewrite Hcur in Hs. congruence.
      - exists [EvRefresh (TokenOk td)]. repeat split;
          [exact Ht|cbn; lia|repeat constructor|].
        intros Hno _. congruence. }
    destruct Hpre as (before & Ht & Hl & Hall & Hno).
    unfold request.
    set (answer := me_endpoint W (trace s1) accessToken).
    exists (match answer with MeOk name id => Some (name, id) | _ => None end),
      {| currentToken := currentToken s1;
         trace := trace s1 ++ [EvMe accessToken answer] |}.
    split; [destruct answer; reflexivity|]. split.
    + intros name id Hr. exists before, accessToken, token.
      cbn [trace currentToken]. rewrite Ht, <- app_assoc.
      destruct answer as [|status|name' id']; try discriminate Hr.
      injection Hr as -> ->. auto.
    + intros Hnone Hstale. destruct (Hno Hnone Hstale).
  - destruct Hspec as (Hstale & Hcur & Hhow). cbn [St.ret].
    exists None, s1. split; [reflexivity|]. split; [discriminate|].
    intros Hnone _. split; [reflexivity|].
    destruct Hhow as [[_ Ht] | (Hyes & _)]; [|congruence].
    destruct s, s1; cbn in *; congruence.
Qed.

End VerifyFacts.

(** ** The further properties on the small worlds *)

Section MoreWitnesses.
Import Commenter.

Lemma run_counters_add_up_witness :
  let W := Scenario.world false Scenario.reply_fine in
  let config := Scenario.config0 false in
  let result := {| processed := 2; commented := 1; skipped := 1; errors := 0;
                   apiCallsUsed := 6 |} in
  processed result <= maxCommentsPerRun (commenting config)
  /\ commented result + skipped result = processed result
  /\ apiCallsUsed result
     = 1 + 2 * processed result
       + (if dryRunMode (qualityControl config) then 0 else commented result)
  /\ exists ext,
       snd (runIntelligentCommenter W config []) = [] ++ ext
       /\ Seen.count Seen.is_fetch_comments ext <= processed result
       /\ (Seen.signed_in W ->
           Seen.count Seen.is_fetch_comments ext = processed result)
       /\ commented result <= Seen.count Seen.is_fetch_comments ext
       /\ commented result
          <= (if dryRunMode (qualityControl config)
              then Seen.count Seen.is_print ext
              else Seen.count Spec.is_insert ext).
Proof.
  exact (run_counters_add_up (Scenario.world false Scenario.reply_fine)
           (Scenario.config0 false) [] _ eq_refl).
Defined.

Lemma run_leaves_commented_post_alone_witness :
  exists ext,
    snd (runIntelligentCommenter (Scenario.world true Scenario.reply_fine)
           (Scenario.config0 false) []) = [] ++ ext
    /\ Forall (fun e => Seen.touches "p2" e = false) ext.
Proof.
  apply (run_leaves_commented_post_alone
           (Scenario.world true Scenario.reply_fine) (Scenario.config0 false)
           "p2" []).
  intros t'. reflexivity.
Defined.

Lemma processPost_unrecorded_comment_witness :
  processPost ScenarioDown.world_insert_down (Scenario.config0 false)
    Scenario.p2 []
  = (Ok false,
     [EvFetchComments "p2"; EvCompletion "p2";
      EvSubmit "p2" "Que foto bonita, parabens!" Scenario.submit_ok;
      EvInsert "p2"])
  /\ forall result : CommenterResult,
       process_each ScenarioDown.world_insert_down (Scenario.config0 false)
         [Scenario.p2] result []
       = (Ok (count_skipped (count_api_calls 2 (count_processed result))),
          [EvFetchComments "p2"; EvCompletion "p2";
           EvSubmit "p2" "Que foto bonita, parabens!" Scenario.submit_ok;
           EvInsert "p2"]).
Proof.
  apply (processPost_unrecorded_comment ScenarioDown.world_insert_down
           (Scenario.config0 false) Scenario.p2 []
           Scenario.three_remarks Scenario.reply_fine
           "Que foto bonita, parabens!").
  - reflexivity.
  - reflexivity.
  - apply Nat.leb_le. reflexivity.
  - reflexivity.
  - reflexivity.
  - reflexivity.
  - reflexivity.
  - reflexivity.
Defined.

End MoreWitnesses.

Section CrawlWitnesses.
Import Crawl.

Lemma crawl_never_stores_a_post_twice_witness :
  NoDup (Stored.stored_ids
           (trace (snd (crawlReddit CrawlScenario.world CrawlScenario.start))))
  /\ NoDup (Stored.stored_ids
              (trace (snd (comprehensiveCrawl CrawlScenario.world
                             CrawlScenario.start)))).
Proof.
  apply (crawl_never_stores_a_post_twice CrawlScenario.world CrawlScenario.start).
  - exact world_remembers.
  - constructor.
Defined.

Lemma crawl_keeps_its_token_witness :
  (exists ext,
      trace (snd (crawlReddit CrawlScenario.world CrawlScenario.start_with_token))
      = [] ++ ext
      /\ accessToken (snd (crawlReddit CrawlScenario.world
                             CrawlScenario.start_with_token)) = Some "tok"
      /\ Forall (fun e => Stored.uses "tok" e = true) ext)
  /\ (exists ext,
         trace (snd (comprehensiveCrawl CrawlScenario.world
                       CrawlScenario.start_with_token))
         = [] ++ ext
         /\ accessToken (snd (comprehensiveCrawl CrawlScenario.world
                                CrawlScenario.start_with_token)) = Some "tok"
         /\ Forall (fun e => Stored.uses "tok" e = true) ext).
Proof.
  apply (crawl_keeps_its_token CrawlScenario.world
           CrawlScenario.start_with_token "tok"); reflexivity.
Defined.

Lemma crawlReddit_counters_add_up_witness :
  let result := {| Types.processed := 4; Types.inserted := 1;
                   Types.skipped := 2; Types.errors := 1 |} in
  Types.inserted result + Types.skipped result + Types.errors result
  = Types.processed result
  /\ exists ext,
       trace (snd (crawlReddit CrawlScenario.world CrawlScenario.start))
       = [] ++ ext
       /\ Stored.count Stored.is_listing ext = 1
       /\ Types.processed result = Stored.listed ext
       /\ Types.inserted result <= List.length (Stored.stored_ids ext).
Proof.
  apply (crawlReddit_counters_add_up CrawlScenario.world CrawlScenario.start
           (snd (crawlReddit CrawlScenario.world CrawlScenario.start))).
  vm_compute. reflexivity.
Defined.

Lemma comprehensiveCrawl_stops_on_401_witness :
  comprehensiveCrawl CrawlScenario.world_unauthorized
    CrawlScenario.start_with_token
  = (Throw "HTTP error! status: 401",
     Stored.extend CrawlScenario.start_with_token
       [EvListing (listing_link "MeJulgue" "new" None None 100) "tok"
                  (ListingNotOk 401)]).
Proof.
  apply (comprehensiveCrawl_stops_on_401 CrawlScenario.world_unauthorized
           CrawlScenario.start_with_token "tok"); reflexivity.
Defined.

End CrawlWitnesses.

Section SessionWitnesses.
Import Session.

Lemma refreshed_token_is_reused_witness :
  let t1 := [EvRefresh (TokenOk Cache.granted)] in
  let cached := Some (Cache.cached_from Cache.granted 1700000000000) in
  getAccessToken Cache.world_granting (Some "refresh") Cache.fresh_manager
  = (Ok "tok-1", {| currentToken := cached; trace := t1 |})
  /\ getAccessToken Cache.world_granting (Some "refresh")
       {| currentToken := cached; trace := t1 |}
     = (Ok "tok-1", {| currentToken := cached; trace := t1 |}).
Proof.
  destruct (refreshed_token_is_reused Cache.world_granting (Some "refresh")
              Cache.fresh_manager Cache.granted [] I eq_refl eq_refl)
    as [Hfirst Hagain].
  split; [exact Hfirst|].
  apply Hagain. cbn. lia.
Defined.

End SessionWitnesses.
